(** * confirmit-fastapi-server: the vision agent and the progress emitter

    A shallow embedding of [app/agents/vision_agent.py] and
    [app/core/progress_emitter.py].

    - Python [str] values are lists of Unicode code points.
    - Python objects that flow through the two modules (JSON data, the
      [details] payload, NumPy scalars and arrays) are the inductive
      [pyvalue]; a [dict] is an association list in insertion order.
    - Python [float] is IEEE binary64, as [spec_float] with [prec = 53]
      and [emax = 1024].
    - A call ends with a value, with an instance of [Exception] (a
      class tag and the text [str(e)] returns), which the
      [except Exception] clauses of the source take, or with an
      exception of another kind ([asyncio.CancelledError],
      [KeyboardInterrupt], [SystemExit]), which goes through them.
    - Side effects are threaded through a state-and-error monad; what
      the outside world answers (image loader, remote model, JSON
      decoder, clock, document store, NumPy comparisons) is read from an
      environment record of oracles, so every statement quantified over
      the environment covers every behaviour of these collaborators. *)

From Stdlib Require Import ZArith NArith List String Ascii Bool Lia.
From Stdlib Require Import DecimalString.
From Stdlib Require Import Floats.SpecFloat.
Import ListNotations.

Set Implicit Arguments.
Set Warnings "-register-all".
Set Warnings "-abstract-large-number".
Set Warnings "-notation-overridden".
Set Warnings "-notation-incompatible-prefix".

(* ================================================================== *)
(** * Strings *)
(* ================================================================== *)

Module PyStr.

Local Open Scope N_scope.

(** A Python [str]: the sequence of its code points. *)
Definition str := list N.

(** An ASCII literal as a [str]. *)
Definition u (s : string) : str := map N_of_ascii (list_ascii_of_string s).

Definition str_eqb (a b : str) : bool :=
  if list_eq_dec N.eq_dec a b then true else false.

(** [str.isspace] of one character: the code points CPython's
    [Py_UNICODE_ISSPACE] accepts. *)
Definition isspace (c : N) : bool :=
  ((9 <=? c) && (c <=? 13)) || ((28 <=? c) && (c <=? 32))
  || (c =? 133) || (c =? 160) || (c =? 5760)
  || ((8192 <=? c) && (c <=? 8202))
  || (c =? 8232) || (c =? 8233) || (c =? 8239) || (c =? 8287)
  || (c =? 12288).

Fixpoint lstrip (s : str) : str :=
  match s with
  | c :: s' => if isspace c then lstrip s' else s
  | [] => []
  end.

Definition rstrip (s : str) : str := rev (lstrip (rev s)).

(** [s.strip()] *)
Definition strip (s : str) : str := rstrip (lstrip s).

(** [s.startswith(p)] *)
Fixpoint startswith (s p : str) : bool :=
  match p, s with
  | [], _ => true
  | _ :: _, [] => false
  | a :: p', b :: s' => (a =? b) && startswith s' p'
  end.

(** [s.endswith(p)] *)
Definition endswith (s p : str) : bool := startswith (rev s) (rev p).

(** [p in s] *)
Fixpoint contains (s p : str) : bool :=
  startswith s p
  || match s with
     | [] => false
     | _ :: s' => contains s' p
     end.

(** [s[n:]] and [s[:-n]] *)
Definition slice_from (n : nat) (s : str) : str := skipn n s.
Definition slice_drop_last (n : nat) (s : str) : str :=
  firstn (List.length s - n)%nat s.

(** Lower-casing of the ASCII letters.  [str.lower] also maps letters
    outside ASCII, but only U+0130 and U+212A lower-case to text that
    holds an ASCII letter (i and k), so for a pattern made of the
    letters of [not found] and a blank, membership in [s.lower()] and
    membership in [lower s] agree. *)
Definition lower_char (c : N) : N :=
  if (65 <=? c) && (c <=? 90) then c + 32 else c.
Definition lower (s : str) : str := map lower_char s.

(** [sep.join(parts)] *)
Fixpoint join (sep : str) (parts : list str) : str :=
  match parts with
  | [] => []
  | [p] => p
  | p :: rest => p ++ sep ++ join sep rest
  end.

(** ** Digits

    [str.isdigit] holds for the characters whose Unicode Numeric_Type
    is Decimal or Digit; [float] reads only the Decimal ones (category
    Nd), which come in runs of ten starting at a zero.  The tables are
    those of Unicode 14.0 (CPython 3.11). *)
Definition decimal_zeros : list N :=
  [48; 1632; 1776; 1984; 2406; 2534; 2662; 2790; 2918; 3046; 3174; 3302;
   3430; 3558; 3664; 3792; 3872; 4160; 4240; 6112; 6160; 6470; 6608;
   6784; 6800; 6992; 7088; 7232; 7248; 42528; 43216; 43264; 43472;
   43504; 43600; 44016; 65296; 66720; 68912; 69734; 69872; 69942; 70096;
   70384; 70736; 70864; 71248; 71360; 71472; 71904; 72016; 72784; 73040;
   73120; 92768; 92864; 93008; 120782; 120792; 120802; 120812; 120822;
   123200; 123632; 125264; 130032].

(** Characters that are digits without being decimal digits
    (superscripts, circled digits and the like), as inclusive ranges. *)
Definition other_digit_ranges : list (N * N) :=
  [(178, 179); (185, 185); (4969, 4977); (6618, 6618); (8304, 8304);
   (8308, 8313); (8320, 8329); (9312, 9320); (9332, 9340); (9352, 9360);
   (9450, 9450); (9461, 9469); (9471, 9471); (10102, 10110);
   (10112, 10120); (10122, 10130); (68160, 68163); (69216, 69224);
   (69714, 69722); (127232, 127242)].

(** The value of a decimal digit character, if it is one. *)
Fixpoint decimal_in (zeros : list N) (c : N) : option N :=
  match zeros with
  | [] => None
  | z :: rest =>
      if (z <=? c) && (c <=? z + 9) then Some (c - z)
      else decimal_in rest c
  end.

Definition decimal_value (c : N) : option N := decimal_in decimal_zeros c.

Definition isdecimal (c : N) : bool :=
  match decimal_value c with Some _ => true | None => false end.

(** [c.isdigit()] *)
Definition isdigit (c : N) : bool :=
  isdecimal c
  || existsb (fun r => (fst r <=? c) && (c <=? snd r)) other_digit_ranges.

(** [repr] of an [int]. *)
Definition int_repr (z : Z) : str := u (NilZero.string_of_int (Z.to_int z)).

End PyStr.
Export PyStr.

(* ================================================================== *)
(** * Floats *)
(* ================================================================== *)

Module PyFloat.

(** A Python [float]: IEEE binary64. *)
Definition float := spec_float.
Definition prec : Z := 53.
Definition emax : Z := 1024.

Definition fzero : float := S754_zero false.

Definition isnan (f : float) : bool :=
  match f with S754_nan => true | _ => false end.
Definition isinf (f : float) : bool :=
  match f with S754_infinity _ => true | _ => false end.

(** [0.0 <= f]; false for NaN. *)
Definition nonneg (f : float) : bool := SFleb fzero f.

(** The binary64 value nearest to [m / d] (ties to even): what a
    correctly rounded decimal-to-binary conversion returns for the
    literal with digits [m] and [d = 10^k], [k] of them after the
    point. *)
Definition float_of_ratio (m d : N) : float :=
  match m, d with
  | Npos pm, Npos pd =>
      SFdiv prec emax (S754_finite false pm 0) (S754_finite false pd 0)
  | _, _ => fzero
  end.

(** Reading [digits [. digits]] or [. digits]: the digits as a number
    and the count of digits after the point; [None] when the text has a
    second point, a character that is no decimal digit, or no digit. *)
Fixpoint read_decimal (s : str) (point any : bool) (m k : N)
  : option (N * N) :=
  match s with
  | [] => if any then Some (m, k) else None
  | c :: s' =>
      if (c =? 46)%N then
        if point then None else read_decimal s' true any m k
      else
        match decimal_value c with
        | Some d =>
            read_decimal s' point true (10 * m + d)%N
                         (if point then (k + 1)%N else k)
        | None => None
        end
  end.

Definition parse_decimal (s : str) : option float :=
  match read_decimal s false false 0%N 0%N with
  | Some (m, k) => Some (float_of_ratio m (10 ^ k)%N)
  | None => None
  end.

End PyFloat.
Export PyFloat.

(* ================================================================== *)
(** * Values, exceptions, effects *)
(* ================================================================== *)

(** The Python objects of the two modules.  [NpFloat64] is apart from
    the other [np.floating] types because [np.float64] is also a
    subclass of [float]; the integer and boolean scalars of NumPy are
    subclasses of neither [int] nor [bool].  [NpFloating] is a float of
    half or single precision: its values are binary64 values, so it
    carries the value itself, which [float(obj)] gives unchanged.
    [NpLongDouble] is a float of extended precision, whose finite
    values can lie beyond the binary64 range: it carries what
    [np.isnan(obj) or np.isinf(obj)] answers for the NumPy object, and
    the binary64 value [float(obj)] gives.  An array carries the nested
    list [obj.tolist()] gives.  [PyObject] is any other object, with
    the text [str] returns for it. *)
Inductive pyvalue : Type :=
| PyNone
| PyBool (b : bool)
| PyInt (n : Z)
| PyFloat (f : float)
| PyStr (s : str)
| PyList (items : list pyvalue)
| PyTuple (items : list pyvalue)
| PyDict (items : list (str * pyvalue))
| NpInteger (n : Z)
| NpFloat64 (f : float)
| NpFloating (f : float)
| NpLongDouble (nan_or_inf : bool) (converted : float)
| NpBool (b : bool)
| NpArray (tolist : pyvalue)
| PyObject (text : str).

(** A [dict] with string keys, in insertion order. *)
Definition dict := list (str * pyvalue).

(** [d.get(k)] *)
Fixpoint dict_get (d : dict) (k : str) : option pyvalue :=
  match d with
  | [] => None
  | (k', v) :: d' => if str_eqb k' k then Some v else dict_get d' k
  end.

(** [k in d] *)
Definition dict_contains (d : dict) (k : str) : bool :=
  match dict_get d k with Some _ => true | None => false end.

(** [d[k] = v]: a present key keeps its place, a new one goes last. *)
Fixpoint dict_set (d : dict) (k : str) (v : pyvalue) : dict :=
  match d with
  | [] => [(k, v)]
  | (k', v') :: d' =>
      if str_eqb k' k then (k, v) :: d' else (k', v') :: dict_set d' k v
  end.

(** [d.get(k, default)] *)
Definition dict_get_default (d : dict) (k : str) (default : pyvalue)
  : pyvalue :=
  match dict_get d k with Some v => v | None => default end.

(** [d.get(k)], with [None] for a missing key. *)
Definition dict_get_none (d : dict) (k : str) : pyvalue :=
  dict_get_default d k PyNone.

Inductive exn_class : Type :=
| ValueError | TypeError | AttributeError | JSONDecodeError
| RecursionError | OtherException (name : str).

(** An exception that is an instance of [Exception]: its class and
    the text of [str(e)]. *)
Record exn : Type := Exn { exn_kind : exn_class; exn_text : str }.

(** An exception that is no instance of [Exception]: the classes that
    derive from [BaseException] directly, such as
    [asyncio.CancelledError], [KeyboardInterrupt], [SystemExit] and
    [GeneratorExit].  [uncaught_status] is the status the process ends
    with when nothing catches it: 1 after the traceback, the code of a
    [SystemExit], 130 after a [KeyboardInterrupt] where the interpreter
    ends by the interrupt signal. *)
Record signal : Type := Signal { signal_class : str; uncaught_status : Z }.

Definition CancelledError : signal :=
  {| signal_class := u "CancelledError"; uncaught_status := 1 |}.

Definition KeyboardInterrupt : signal :=
  {| signal_class := u "KeyboardInterrupt"; uncaught_status := 130 |}.

(** How a call ends: with a value, with an exception that is an
    instance of [Exception], or with one that is not. *)
Inductive result (A : Type) : Type :=
| Ok (a : A)
| Raise (e : exn)
| Escape (g : signal).
Arguments Ok {A} a.
Arguments Raise {A} e.
Arguments Escape {A} g.

(** The state-and-error monad: a computation reads a state and leaves a
    value or a raised exception, and a state. *)
Definition M (S A : Type) : Type := S -> result A * S.

Definition ret {S A} (a : A) : M S A := fun s => (Ok a, s).

Definition bind {S A B} (c : M S A) (k : A -> M S B) : M S B :=
  fun s =>
    match c s with
    | (Ok a, s') => k a s'
    | (Raise e, s') => (Raise e, s')
    | (Escape g, s') => (Escape g, s')
    end.

Definition raise {S A} (e : exn) : M S A := fun s => (Raise e, s).

(** [try: c except Exception as e: h e].  The clause takes the
    instances of [Exception]; any other exception goes through it. *)
Definition try_except {S A} (c : M S A) (h : exn -> M S A) : M S A :=
  fun s =>
    match c s with
    | (Ok a, s') => (Ok a, s')
    | (Raise e, s') => h e s'
    | (Escape g, s') => (Escape g, s')
    end.

(** A pure step that can raise. *)
Definition lift_result {S A} (r : result A) : M S A := fun s => (r, s).

Declare Scope py_scope.
Delimit Scope py_scope with py.
Notation "x <- c ;; k" := (bind c (fun x => k))
  (at level 61, c at next level, right associativity) : py_scope.
Notation "c ;; k" := (bind c (fun _ => k))
  (at level 61, right associativity) : py_scope.
Open Scope py_scope.

Inductive level : Type := INFO | WARNING | ERROR.

(** What the process does to the outside: a log record, or a partial
    update handed to the document of a receipt. *)
Inductive event : Type :=
| Log (lv : level) (msg : str)
| StoreUpdate (receipt_id : str) (update_data : dict).

(** [logger.info], [logger.warning], [logger.error] *)
Definition log (lv : level) (msg : str) : M (list event) unit :=
  fun evs => (Ok tt, evs ++ [Log lv msg]).

(** A decoded image, and the reply of the remote model, whose [text]
    property can itself raise. *)
Definition image := nat.
Record response : Type := { text : result str }.

(** The fields of a [VisionAgent]: [model] is the handle requests go
    through, named by the model it addresses. *)
Record VisionAgent : Type := { model_name : str; model : str }.

(** The state [analyze] runs in: the instance, the models its requests
    went to (oldest first), and the log and store events. *)
Record World : Type :=
  { agent : VisionAgent; submissions : list str; io : list event }.

(** A computation on the events, run inside a [World]. *)
Definition lift_io {A} (c : M (list event) A) : M World A :=
  fun w =>
    let '(r, evs) := c (io w) in
    (r, {| agent := agent w; submissions := submissions w; io := evs |}).

(** A progress collaborator: any object with an [emit] method. *)
Record Progress : Type :=
  { emit_method :
      pyvalue -> pyvalue -> pyvalue -> pyvalue -> pyvalue ->
      M (list event) unit }.

(** The outside world.  Oracles of effectful calls read the history,
    so their answers may change from call to call. *)
Record Env : Type :=
  { (** [PIL.Image.open(path)] *)
    image_open : World -> str -> result image;
    (** [handle.generate_content_async([prompt, img])] on the handle of
        the named model *)
    generate_content : World -> str -> image -> result response;
    (** [json.loads] *)
    json_loads : str -> result pyvalue;
    (** [str(v)] of a float, a boolean, a container or a NumPy object *)
    format_value : pyvalue -> str;
    (** [type(v).__name__] of a NumPy object or of an object of another
        class *)
    class_name : pyvalue -> str;
    (** [float.__repr__] of a finite float *)
    float_repr : float -> str;
    (** [int(v)] of a value that is neither [int] nor [bool] *)
    int_of : pyvalue -> result Z;
    (** [datetime.utcnow().isoformat()], by the history and the number
        of clock reads already made in the running call *)
    utcnow_isoformat : list event -> nat -> str;
    (** [document.update(fields)] of the store *)
    store_update : list event -> str -> dict -> result unit;
    (** the truth value of [a == b] when [a] is a NumPy object: NumPy
        compares element by element, and whether the outcome has a
        truth value depends on the shapes and on the NumPy version *)
    numpy_eq_truth : pyvalue -> pyvalue -> result bool;
    (** the truth value of a NumPy object *)
    numpy_truth : pyvalue -> result bool;
    (** how deep the JSON encoder may recurse before [RecursionError] *)
    recursion_limit : nat }.

(* ================================================================== *)
(** * app/core/progress_emitter.py *)
(* ================================================================== *)

Section ProgressEmitter.

Variable E : Env.

(** [str(v)] *)
Definition py_str (v : pyvalue) : str :=
  match v with
  | PyStr s => s
  | PyInt n => int_repr n
  | PyNone => u "None"
  | PyObject text => text
  | _ => format_value E v
  end.

(** [int(v)] *)
Definition py_int (v : pyvalue) : result Z :=
  match v with
  | PyInt n => Ok n
  | PyBool b => Ok (if b then 1%Z else 0%Z)
  | _ => int_of E v
  end.

Definition is_numpy (v : pyvalue) : bool :=
  match v with
  | NpInteger _ | NpFloat64 _ | NpFloating _ | NpLongDouble _ _ | NpBool _
  | NpArray _ => true
  | _ => false
  end.

(** The truth value of [v], as [if v:] takes it. *)
Definition py_truth (v : pyvalue) : result bool :=
  match v with
  | PyNone => Ok false
  | PyBool b => Ok b
  | PyInt n => Ok (negb (n =? 0)%Z)
  | PyFloat f => Ok (match f with S754_zero _ => false | _ => true end)
  | PyStr s => Ok (match s with [] => false | _ => true end)
  | PyList l | PyTuple l => Ok (match l with [] => false | _ => true end)
  | PyDict d => Ok (match d with [] => false | _ => true end)
  | PyObject _ => Ok true
  | _ => numpy_truth E v
  end.

(** The truth value of [v == {}] and of [v == []].  A tuple equals
    neither, the empty one included. *)
Definition eq_empty_dict (v : pyvalue) : result bool :=
  match v with
  | PyDict [] => Ok true
  | _ => if is_numpy v then numpy_eq_truth E v (PyDict []) else Ok false
  end.

Definition eq_empty_list (v : pyvalue) : result bool :=
  match v with
  | PyList [] => Ok true
  | _ => if is_numpy v then numpy_eq_truth E v (PyList []) else Ok false
  end.

(** [value is None or value == {} or value == []] *)
Definition is_skipped (value : pyvalue) : result bool :=
  match value with
  | PyNone => Ok true
  | _ =>
      match eq_empty_dict value with
      | Raise e => Raise e
      | Escape g => Escape g
      | Ok true => Ok true
      | Ok false => eq_empty_list value
      end
  end.

(** [isinstance(value, (str, int, float, bool))] *)
Definition is_primitive (value : pyvalue) : bool :=
  match value with
  | PyStr _ | PyInt _ | PyFloat _ | PyBool _ | NpFloat64 _ => true
  | _ => false
  end.

(** ** The JSON encoder *)

(** [type(v).__name__] *)
Definition type_name (v : pyvalue) : str :=
  match v with
  | PyNone => u "NoneType" | PyBool _ => u "bool" | PyInt _ => u "int"
  | PyFloat _ => u "float" | PyStr _ => u "str" | PyList _ => u "list"
  | PyTuple _ => u "tuple" | PyDict _ => u "dict"
  | _ => class_name E v
  end.

(** [json.JSONEncoder.default]: the base class refuses. *)
Definition JSONEncoder_default (obj : pyvalue) : result pyvalue :=
  Raise (Exn TypeError
           (u "Object of type " ++ type_name obj
              ++ u " is not JSON serializable")).

(** [NumpyJsonEncoder.default].  Line 24 puts its test to the NumPy
    object and converts afterwards: for a binary64 value the test on
    the object is the test on the value. *)
Definition NumpyJsonEncoder_default (obj : pyvalue) : result pyvalue :=
  match obj with
  | NpInteger n => Ok (PyInt n)
  | NpFloat64 f | NpFloating f =>
      Ok (PyFloat (if negb (isnan f || isinf f) then f else fzero))
  | NpLongDouble nan_or_inf converted =>
      Ok (PyFloat (if negb nan_or_inf then converted else fzero))
  | NpArray l => Ok l
  | NpBool b => Ok (PyBool b)
  | _ => JSONEncoder_default obj
  end.

Definition hex_digit (n : N) : N :=
  if (n <? 10)%N then (48 + n)%N else (87 + n)%N.

Definition hex4 (n : N) : str :=
  [hex_digit ((n / 4096) mod 16); hex_digit ((n / 256) mod 16);
   hex_digit ((n / 16) mod 16); hex_digit (n mod 16)]%N.

(** One character inside a JSON string, with [ensure_ascii]. *)
Definition escape_char (c : N) : str :=
  if (c =? 34)%N then [92; 34]%N
  else if (c =? 92)%N then [92; 92]%N
  else if (c =? 10)%N then [92; 110]%N
  else if (c =? 13)%N then [92; 114]%N
  else if (c =? 9)%N then [92; 116]%N
  else if (c =? 12)%N then [92; 102]%N
  else if (c =? 8)%N then [92; 98]%N
  else if ((32 <=? c) && (c <=? 126))%N then [c]
  else if (c <? 65536)%N then [92; 117]%N ++ hex4 c
  else
    let v := (c - 65536)%N in
    [92; 117]%N ++ hex4 (55296 + v / 1024)%N
      ++ [92; 117]%N ++ hex4 (56320 + v mod 1024)%N.

Definition encode_basestring_ascii (s : str) : str :=
  [34%N] ++ flat_map escape_char s ++ [34%N].

(** How the encoder writes a float ([allow_nan] is on). *)
Definition floatstr (f : float) : str :=
  match f with
  | S754_nan => u "NaN"
  | S754_infinity false => u "Infinity"
  | S754_infinity true => u "-Infinity"
  | _ => float_repr E f
  end.

Fixpoint map_result {A B} (f : A -> result B) (l : list A)
  : result (list B) :=
  match l with
  | [] => Ok []
  | a :: l' =>
      match f a with
      | Raise e => Raise e
      | Escape g => Escape g
      | Ok b =>
          match map_result f l' with
          | Raise e => Raise e
          | Escape g => Escape g
          | Ok bs => Ok (b :: bs)
          end
      end
  end.

(** The encoder of [json.dumps(o, cls=NumpyJsonEncoder)].  What the
    encoder knows (None, booleans, [int], [float] and its subclasses,
    [str], lists and tuples, dicts) is written directly; anything else goes
    through [default] and the outcome is encoded in turn.  [depth] is
    the room left for recursion. *)
Fixpoint iterencode (depth : nat) (o : pyvalue) : result str :=
  match depth with
  | O => Raise (Exn RecursionError
                  (u "maximum recursion depth exceeded while encoding a JSON object"))
  | S depth' =>
      match o with
      | PyStr s => Ok (encode_basestring_ascii s)
      | PyNone => Ok (u "null")
      | PyBool true => Ok (u "true")
      | PyBool false => Ok (u "false")
      | PyInt n => Ok (int_repr n)
      | PyFloat f | NpFloat64 f => Ok (floatstr f)
      | PyList items | PyTuple items =>
          match map_result (iterencode depth') items with
          | Raise e => Raise e
          | Escape g => Escape g
          | Ok parts => Ok (u "[" ++ join (u ", ") parts ++ u "]")
          end
      | PyDict items =>
          match
            map_result
              (fun kv =>
                 match iterencode depth' (snd kv) with
                 | Raise e => Raise e
                 | Escape g => Escape g
                 | Ok s =>
                     Ok (encode_basestring_ascii (fst kv) ++ u ": " ++ s)
                 end) items
          with
          | Raise e => Raise e
          | Escape g => Escape g
          | Ok parts => Ok (u "{" ++ join (u ", ") parts ++ u "}")
          end
      | _ =>
          match NumpyJsonEncoder_default o with
          | Raise e => Raise e
          | Escape g => Escape g
          | Ok o' => iterencode depth' o'
          end
      end
  end.

Definition json_dumps (o : pyvalue) : result str :=
  iterencode (recursion_limit E) o.

(** ** ProgressEmitter *)

Record ProgressEmitter : Type := { receipt_id : str }.

Definition detail_key (key : str) : str := u "progress_detail_" ++ key.

(** One turn of the loop over [details.items()]. *)
Definition flatten_item (update_data : dict) (key : str) (value : pyvalue)
  : M (list event) dict :=
  skipped <- lift_result (is_skipped value) ;;
  if skipped : bool then ret update_data
  else if is_primitive value then
    ret (dict_set update_data (detail_key key) value)
  else
    try_except
      (s <- lift_result (json_dumps value) ;;
       ret (dict_set update_data (detail_key key) (PyStr s)))
      (fun e =>
         log ERROR (u "Failed to serialize " ++ key ++ u ": " ++ exn_text e) ;;
         ret (dict_set update_data (detail_key key) (PyStr (py_str value)))).

Fixpoint flatten_details (items : dict) (update_data : dict)
  : M (list event) dict :=
  match items with
  | [] => ret update_data
  | (key, value) :: rest =>
      update_data' <- flatten_item update_data key value ;;
      flatten_details rest update_data'
  end.

Definition utcnow (n : nat) : M (list event) str :=
  fun evs => (Ok (utcnow_isoformat E evs n), evs).

(** [self.progress_ref.update(update_data)] *)
Definition progress_ref_update (self : ProgressEmitter) (update_data : dict)
  : M (list event) unit :=
  fun evs =>
    (store_update E evs (receipt_id self) update_data,
     evs ++ [StoreUpdate (receipt_id self) update_data]).

(** The [try] block of [emit]. *)
Definition emit_body (self : ProgressEmitter)
    (agent stage message progress details : pyvalue)
  : M (list event) unit :=
  percentage <- lift_result (py_int progress) ;;
  timestamp <- utcnow 0 ;;
  last_updated <- utcnow 1 ;;
  let update_data : dict :=
    [ (u "progress_agent", PyStr (py_str agent));
      (u "progress_stage", PyStr (py_str stage));
      (u "progress_message", PyStr (py_str message));
      (u "progress_percentage", PyInt percentage);
      (u "progress_timestamp", PyStr timestamp);
      (u "last_updated", PyStr last_updated) ] in
  truthy <- lift_result (py_truth details) ;;
  update_data <-
    (if truthy : bool then
       match details with
       | PyDict items => flatten_details items update_data
       | _ =>
           ret (dict_set update_data (u "progress_detail_info")
                         (PyStr (py_str details)))
       end
     else ret update_data) ;;
  progress_ref_update self update_data ;;
  log INFO ([63743; 252; 236; 176]%N ++ u " [" ++ receipt_id self ++ u "] "
              ++ py_str agent ++ u ": " ++ py_str message
              ++ u " (" ++ py_str progress ++ u "%)").

(** [ProgressEmitter.emit] *)
Definition emit (self : ProgressEmitter)
    (agent stage message progress details : pyvalue)
  : M (list event) unit :=
  try_except
    (emit_body self agent stage message progress details)
    (fun e =>
       log ERROR ([8218; 249; 229]%N ++ u " Failed to emit progress for "
                    ++ receipt_id self ++ u ": " ++ exn_text e)).

(** A [ProgressEmitter] in the role of the progress collaborator. *)
Definition as_progress (self : ProgressEmitter) : Progress :=
  {| emit_method := emit self |}.

End ProgressEmitter.

(* ================================================================== *)
(** * app/agents/vision_agent.py *)
(* ================================================================== *)

Definition primary_model : str := u "models/gemini-2.5-flash".
Definition secondary_model : str := u "models/gemini-2.5-pro".

(** [VisionAgent.__init__]; a missing key is [None].  Neither
    [genai.configure] nor the construction of a handle sends a
    request. *)
Definition VisionAgent_init (api_key : option str)
  : M (list event) VisionAgent :=
  match api_key with
  | None | Some [] =>
      log ERROR (u "Missing GEMINI_API_KEY") ;;
      raise (Exn ValueError (u "GEMINI_API_KEY is required"))
  | Some _ =>
      ret {| model_name := primary_model; model := primary_model |}
  end.

(** What the top-level handler of [analyze] returns. *)
Definition default_result : dict :=
  [ (u "merchant_name", PyStr (u "Unknown Merchant"));
    (u "total_amount", PyFloat fzero);
    (u "currency", PyStr [8358%N]);
    (u "date", PyStr []);
    (u "transaction_id", PyStr []);
    (u "ocr_text", PyStr (u "OCR extraction unavailable - Gemini API error"));
    (u "confidence", PyInt 0);
    (u "visual_anomalies", PyList []);
    (u "error",
     PyStr (u "Gemini API unavailable - check GEMINI_API_KEY and model access")) ].

Definition unavailable_message : str :=
  u "Gemini API unavailable. Please verify your GEMINI_API_KEY has model access.".

(** [float(s)] for the texts [analyze] passes: characters that are
    digits or points.  The rest of the grammar of [float] (signs,
    exponents, underscores, blanks, inf and nan) cannot occur in them
    and is not read here. *)
Definition float_of_str (s : str) : result float :=
  match parse_decimal s with
  | Some f => Ok f
  | None =>
      Raise (Exn ValueError
               (u "could not convert string to float: '" ++ s ++ u "'"))
  end.

(** [''.join(c for c in amount if c.isdigit() or c == '.')] *)
Definition clean_amount (amount : str) : str :=
  filter (fun c => isdigit c || (c =? 46)%N) amount.

(** Lines 91-95: the amount, when it came as a string. *)
Definition sanitize_amount (data : dict) : result dict :=
  match dict_get_default data (u "total_amount") (PyInt 0) with
  | PyStr amount =>
      match clean_amount amount with
      | [] => Ok (dict_set data (u "total_amount") (PyFloat fzero))
      | clean =>
          match float_of_str clean with
          | Ok f => Ok (dict_set data (u "total_amount") (PyFloat f))
          | Raise e => Raise e
          | Escape g => Escape g
          end
      end
  | _ => Ok data
  end.

(** Lines 98-99. *)
Definition ensure_confidence (data : dict) : dict :=
  if dict_contains data (u "confidence") then data
  else dict_set data (u "confidence") (PyInt 85).

(** Lines 82-86, after the first [strip]. *)
Definition unfence (raw_text : str) : str :=
  let raw_text :=
    if startswith raw_text (u "```json") then slice_from 7 raw_text
    else raw_text in
  if endswith raw_text (u "```") then slice_drop_last 3 raw_text
  else raw_text.

(** The test of line 70. *)
Definition is_not_found (model_error : exn) : bool :=
  contains (exn_text model_error) (u "404")
  || contains (lower (exn_text model_error)) (u "not found").

(** The fields of an extraction record that is complete. *)
Definition required_fields : list str :=
  [ u "merchant_name"; u "total_amount"; u "currency"; u "date";
    u "transaction_id"; u "ocr_text"; u "confidence"; u "visual_anomalies" ].

Definition has_required_fields (d : dict) : bool :=
  forallb (dict_contains d) required_fields.

(** A reply body inside the fence the prompt forbids. *)
Definition fenced (body : str) : str := u "```json" ++ body ++ u "```".

(** A progress collaborator whose [emit] always returns, as that of
    [ProgressEmitter] does; no collaborator at all counts as one. *)
Definition emit_returns (p : Progress) : Prop :=
  forall agent stage message percentage details evs,
  exists evs',
    emit_method p agent stage message percentage details evs = (Ok tt, evs').

Definition quiet (progress : option Progress) : Prop :=
  match progress with
  | Some p => emit_returns p
  | None => True
  end.

Section VisionAgent.

Variable E : Env.

(** [await self.model.generate_content_async([prompt, img])] *)
Definition submit (img : image) : M World response :=
  fun w =>
    (generate_content E w (model (agent w)) img,
     {| agent := agent w;
        submissions := submissions w ++ [model (agent w)];
        io := io w |}).

(** [self.model = genai.GenerativeModel(name)]; building a handle sends
    nothing and does not raise. *)
Definition set_model (name : str) : M World unit :=
  fun w =>
    (Ok tt,
     {| agent := {| model_name := model_name (agent w); model := name |};
        submissions := submissions w;
        io := io w |}).

Definition get_model_name : M World str :=
  fun w => (Ok (model_name (agent w)), w).

(** Lines 67-79: the request with its fallback. *)
Definition call_model (img : image) : M World response :=
  try_except (submit img)
    (fun model_error =>
       if is_not_found model_error then
         name <- get_model_name ;;
         lift_io (log WARNING (u "Model " ++ name
                    ++ u " failed, trying models/gemini-2.5-pro...")) ;;
         try_except
           (set_model secondary_model ;; submit img)
           (fun second_error =>
              lift_io (log ERROR (u "All Gemini models failed. Last error: "
                                    ++ exn_text second_error)) ;;
              raise (Exn ValueError unavailable_message))
       else raise model_error).

(** [if progress: await progress.emit(...)] *)
Definition emit_if (progress : option Progress)
    (agent stage message percentage details : pyvalue) : M World unit :=
  match progress with
  | Some p =>
      lift_io (emit_method p agent stage message percentage details)
  | None => ret tt
  end.

Definition open_image (image_path : str) : M World image :=
  fun w => (image_open E w image_path, w).

(** [data.get] exists on a [dict] only. *)
Definition as_dict (data : pyvalue) : result dict :=
  match data with
  | PyDict d => Ok d
  | _ =>
      Raise (Exn AttributeError
               (u "'" ++ type_name E data
                  ++ u "' object has no attribute 'get'"))
  end.

(** Lines 82-115: from the reply to the returned record. *)
Definition extract (progress : option Progress) (reply : response)
  : M World dict :=
  response_text <- lift_result (text reply) ;;
  let raw_text := unfence (strip response_text) in
  parsed <- lift_result (json_loads E (strip raw_text)) ;;
  data <- lift_result (as_dict parsed) ;;
  data <- lift_result (sanitize_amount data) ;;
  let data := ensure_confidence data in
  emit_if progress (PyStr (u "vision")) (PyStr (u "ocr_complete"))
    (PyStr (u "Extracted: "
              ++ py_str E (dict_get_default data (u "merchant_name")
                                            (PyStr (u "Unknown")))
              ++ u " - "
              ++ py_str E (dict_get_default data (u "currency")
                                            (PyStr [8358%N]))
              ++ py_str E (dict_get_default data (u "total_amount")
                                            (PyInt 0))))
    (PyInt 30)
    (PyDict [ (u "merchant", dict_get_none data (u "merchant_name"));
              (u "amount", dict_get_none data (u "total_amount"));
              (u "confidence", dict_get_none data (u "confidence")) ]) ;;
  lift_io (log INFO ([9989%N] ++ u " Gemini extraction complete - "
                       ++ py_str E (dict_get_none data (u "merchant_name"))
                       ++ u ": "
                       ++ py_str E (dict_get_none data (u "total_amount")))) ;;
  ret data.

(** Lines 37-48: the first progress event and the image. *)
Definition load_image (image_path : str) (progress : option Progress)
  : M World image :=
  emit_if progress (PyStr (u "vision")) (PyStr (u "ocr_started"))
    (PyStr ([129302%N] ++ u " Gemini Vision analyzing receipt structure..."))
    (PyInt 10) PyNone ;;
  lift_io (log INFO (u "Loading image with PIL: " ++ image_path)) ;;
  open_image image_path.

(** The [try] block of [analyze]. *)
Definition analyze_body (image_path : str) (progress : option Progress)
  : M World dict :=
  img <- load_image image_path progress ;;
  reply <- call_model img ;;
  extract progress reply.

(** The handler of [analyze], lines 117-131. *)
Definition on_failure (e : exn) : M World dict :=
  lift_io (log ERROR (u "Gemini Vision failed: " ++ exn_text e)) ;;
  ret default_result.

(** [VisionAgent.analyze] *)
Definition analyze (image_path : str) (progress : option Progress)
  : M World dict :=
  try_except (analyze_body image_path progress) on_failure.

(** Calls of [analyze] on one instance, one after the other; the
    returned records are dropped. *)
Fixpoint analyze_all (calls : list (str * option Progress)) (w : World)
  : World :=
  match calls with
  | [] => w
  | (image_path, progress) :: rest =>
      analyze_all rest (snd (analyze image_path progress w))
  end.

End VisionAgent.

(* ================================================================== *)
(** * A concrete environment for worked runs *)
(* ================================================================== *)

Module Scenario.

Local Open Scope N_scope.

(** A JSON text written with apostrophes in place of double quotes. *)
Definition json_text (s : string) : str :=
  map (fun c => if c =? 39 then 34 else c) (u s).

Fixpoint skip_ws (s : str) : str :=
  match s with
  | c :: s' =>
      if (c =? 32) || (c =? 9) || (c =? 10) || (c =? 13) then skip_ws s'
      else s
  | [] => []
  end.

(** The characters of a string up to its closing quote; escapes and
    control characters are not read. *)
Fixpoint read_string (s acc : str) : option (str * str) :=
  match s with
  | [] => None
  | c :: s' =>
      if c =? 34 then Some (rev acc, s')
      else if (c =? 92) || (c <? 32) then None
      else read_string s' (c :: acc)
  end.

Fixpoint read_digits (s : str) (m k : N) : N * N * str :=
  match s with
  | c :: s' =>
      if (48 <=? c) && (c <=? 57) then read_digits s' (10 * m + (c - 48)) (k + 1)
      else (m, k, s)
  | [] => (m, k, s)
  end.

(** [-? (0 | digit digits) (. digits)?], without exponent: after a
    zero the integer part is over. *)
Definition read_number (s : str) : option (pyvalue * str) :=
  let '(neg, s1) :=
    match s with
    | 45 :: s' => (true, s')
    | _ => (false, s)
    end in
  let '(m, k, s2) :=
    match s1 with
    | 48 :: s' => (0, 1, s')
    | _ => read_digits s1 0 0
    end in
  if k =? 0 then None
  else
    match s2 with
    | 46 :: s3 =>
        let '(m', k', s4) := read_digits s3 m 0 in
        if k' =? 0 then None
        else
          let f := float_of_ratio m' (10 ^ k') in
          Some (PyFloat (if neg : bool then SFopp f else f), s4)
    | _ => Some (PyInt (if neg : bool then - Z.of_N m else Z.of_N m)%Z, s2)
    end.

(** A decoder for plain JSON texts: objects, arrays, strings without
    escapes, numbers without exponent, [true], [false], [null]. *)
Fixpoint parse_value (fuel : nat) (s : str) : option (pyvalue * str) :=
  match fuel with
  | O => None
  | S fuel' =>
      let fix members (k : nat) (s : str) (acc : dict)
        : option (pyvalue * str) :=
        match k with
        | O => None
        | S k' =>
            match skip_ws s with
            | 34 :: s1 =>
                match read_string s1 [] with
                | Some (key, s2) =>
                    match skip_ws s2 with
                    | 58 :: s3 =>
                        match parse_value fuel' s3 with
                        | Some (v, s4) =>
                            match skip_ws s4 with
                            | 44 :: s5 => members k' s5 (dict_set acc key v)
                            | 125 :: s5 => Some (PyDict (dict_set acc key v), s5)
                            | _ => None
                            end
                        | None => None
                        end
                    | _ => None
                    end
                | None => None
                end
            | _ => None
            end
        end in
      let fix elements (k : nat) (s : str) (acc : list pyvalue)
        : option (pyvalue * str) :=
        match k with
        | O => None
        | S k' =>
            match parse_value fuel' s with
            | Some (v, s1) =>
                match skip_ws s1 with
                | 44 :: s2 => elements k' s2 (v :: acc)
                | 93 :: s2 => Some (PyList (rev (v :: acc)), s2)
                | _ => None
                end
            | None => None
            end
        end in
      match skip_ws s with
      | 123 :: s1 =>
          match skip_ws s1 with
          | 125 :: s2 => Some (PyDict [], s2)
          | _ => members (List.length s1) s1 []
          end
      | 91 :: s1 =>
          match skip_ws s1 with
          | 93 :: s2 => Some (PyList [], s2)
          | _ => elements (List.length s1) s1 []
          end
      | 34 :: s1 =>
          match read_string s1 [] with
          | Some (v, s2) => Some (PyStr v, s2)
          | None => None
          end
      | 116 :: 114 :: 117 :: 101 :: s1 => Some (PyBool true, s1)
      | 102 :: 97 :: 108 :: 115 :: 101 :: s1 => Some (PyBool false, s1)
      | 110 :: 117 :: 108 :: 108 :: s1 => Some (PyNone, s1)
      | s1 => read_number s1
      end
  end.

Definition decode (s : str) : result pyvalue :=
  match parse_value (S (List.length s)) s with
  | Some (v, rest) =>
      match skip_ws rest with
      | [] => Ok v
      | _ => Raise (Exn JSONDecodeError (u "Extra data"))
      end
  | None => Raise (Exn JSONDecodeError (u "Expecting value"))
  end.

(** The remote model answers the n-th request with the n-th entry of a
    script. *)
Definition scripted (script : list (result response))
  : World -> str -> image -> result response :=
  fun w _ _ =>
    nth (List.length (submissions w)) script
        (Raise (Exn (OtherException (u "RuntimeError")) (u "no reply"))).

(** The remote model gives every request the same answer. *)
Definition always (reply : result response)
  : World -> str -> image -> result response :=
  fun _ _ _ => reply.

(** An environment where the image loads, the store takes every
    update, and the model behaves as [remote]. *)
Definition env (remote : World -> str -> image -> result response) : Env :=
  {| image_open := fun _ _ => Ok O;
     generate_content := remote;
     json_loads := decode;
     format_value := fun _ => u "<object>";
     class_name :=
       fun v =>
         match v with
         | NpInteger _ => u "int64"
         | NpFloat64 _ => u "float64"
         | NpFloating _ => u "float32"
         | NpLongDouble _ _ => u "longdouble"
         | NpBool _ => u "bool_"
         | NpArray _ => u "ndarray"
         | _ => u "object"
         end;
     float_repr :=
       fun f => match f with S754_zero false => u "0.0" | _ => u "<float>" end;
     int_of := fun _ => Raise (Exn TypeError (u "int() argument"));
     utcnow_isoformat := fun _ _ => u "2025-01-01T00:00:00";
     store_update := fun _ _ _ => Ok tt;
     numpy_eq_truth := fun _ _ => Ok false;
     numpy_truth := fun _ => Ok true;
     recursion_limit := 1000 |}.

Definition answers (s : str) : result response := Ok {| text := Ok s |}.

Definition fails (msg : string) : result response :=
  Raise (Exn (OtherException (u "GoogleAPIError")) (u msg)).

(** The task that awaits the answer is cancelled. *)
Definition cancelled : result response := Escape CancelledError.

(** A fresh instance and an empty history. *)
Definition start : World :=
  {| agent := {| model_name := primary_model; model := primary_model |};
     submissions := [];
     io := [] |}.

Definition emitter : ProgressEmitter := {| receipt_id := u "receipt-1" |}.

End Scenario.

(* ================================================================== *)
(** * Observations used in the statements *)
(* ================================================================== *)

(** The world right after a request through the current handle. *)
Definition after_submit (w : World) : World :=
  {| agent := agent w;
     submissions := submissions w ++ [model (agent w)];
     io := io w |}.

(** The world in which the second request is made: the first one is on
    record, the warning is logged, the handle is replaced. *)
Definition at_retry (w : World) : World :=
  {| agent := {| model_name := model_name (agent w);
                 model := secondary_model |};
     submissions := submissions w ++ [model (agent w)];
     io := io w ++ [Log WARNING
                      (u "Model " ++ model_name (agent w)
                         ++ u " failed, trying models/gemini-2.5-pro...")] |}.

(** The requests made between two worlds. *)
Definition requests_since (w w' : World) : list str :=
  skipn (List.length (submissions w)) (submissions w').

(** A computation that leaves the instance and the record of requests
    as they were. *)
Definition frames {A} (c : M World A) : Prop :=
  forall w,
    agent (snd (c w)) = agent w /\ submissions (snd (c w)) = submissions w.

(** The fields [emit] writes before the details. *)
Definition base_fields (E : Env) (agent stage message : pyvalue)
    (percentage : Z) (evs : list event) : dict :=
  [ (u "progress_agent", PyStr (py_str E agent));
    (u "progress_stage", PyStr (py_str E stage));
    (u "progress_message", PyStr (py_str E message));
    (u "progress_percentage", PyInt percentage);
    (u "progress_timestamp", PyStr (utcnow_isoformat E evs 0));
    (u "last_updated", PyStr (utcnow_isoformat E evs 1)) ].

Definition base_field_names : list str :=
  [ u "progress_agent"; u "progress_stage"; u "progress_message";
    u "progress_percentage"; u "progress_timestamp"; u "last_updated" ].

(** The events added between two histories. *)
Definition events_since (evs evs' : list event) : list event :=
  skipn (List.length evs) evs'.

Definition is_log (ev : event) : Prop :=
  match ev with
  | Log _ _ => True
  | StoreUpdate _ _ => False
  end.

(** The details of the filtering example:
    [{"a": None, "b": [], "c": {}, "d": 5}]. *)
Definition example_details : dict :=
  [ (u "a", PyNone); (u "b", PyList []); (u "c", PyDict []);
    (u "d", PyInt 5) ].

(** Replies used in the worked runs. *)
Definition partial_reply : str :=
  Scenario.json_text "{'merchant_name': 'Acme Store'}".

Definition dotted_amount_reply : str :=
  Scenario.json_text
    "{'merchant_name': 'Toko Maju', 'total_amount': '1.500.000',
      'currency': 'Rp', 'date': '2025-01-31', 'transaction_id': 'TX-1',
      'ocr_text': 'TOTAL Rp 1.500.000', 'confidence': 90,
      'visual_anomalies': []}".

Definition negative_amount_reply : str :=
  Scenario.json_text
    "{'merchant_name': 'Acme Store', 'total_amount': -5,
      'currency': '$', 'date': '2025-01-31', 'transaction_id': 'TX-2',
      'ocr_text': 'REFUND -5', 'confidence': 90, 'visual_anomalies': []}".

Definition naira_amount_reply : str :=
  Scenario.json_text
    "{'merchant_name': 'Acme Store', 'total_amount': '"
    ++ [8358%N]
    ++ Scenario.json_text
         "1,500.75', 'currency': 'NGN', 'date': '2025-01-31',
          'transaction_id': 'TX-3', 'ocr_text': 'TOTAL 1,500.75',
          'confidence': 92, 'visual_anomalies': ['font mismatch']}".

(** 1500.0 and 1500.75 in binary64. *)
Definition f1500 : float := S754_finite false 6597069766656000 (-42).
Definition f1500_75 : float := S754_finite false 6600368301539328 (-42).

(** The primitive values: strings, integers, floats, booleans. *)
Definition plain_primitive (v : pyvalue) : bool :=
  match v with
  | PyStr _ | PyInt _ | PyFloat _ | PyBool _ => true
  | _ => false
  end.

(** A string amount that [float] can read once cleaned. *)
Definition amount_readable (d : dict) : Prop :=
  forall s,
    dict_get d (u "total_amount") = Some (PyStr s) ->
    clean_amount s = [] \/ exists f, parse_decimal (clean_amount s) = Some f.

(** The amount [analyze] returns for a string amount. *)
Definition amount_value (s : str) : float :=
  match clean_amount s with
  | [] => fzero
  | clean =>
      match parse_decimal clean with
      | Some f => f
      | None => fzero
      end
  end.

(* ================================================================== *)
(** * test_gemini_models.py *)
(* ================================================================== *)

Module Diagnostic.

(** An entry of [genai.list_models()]. *)
Record Model : Type :=
  { name : str; supported_generation_methods : list str }.

(** ['generateContent' in model.supported_generation_methods] *)
Definition supports_generate (m : Model) : bool :=
  existsb (str_eqb (u "generateContent")) (supported_generation_methods m).

(** The test of line 30.  [lower] stands for [str.lower] here as it
    does for the error texts: the lower-case i that U+0130 gives is
    followed by a combining dot, which no pattern holds, and none of
    the patterns has a k. *)
Definition looks_multimodal (m : Model) : bool :=
  contains (lower (name m)) (u "vision")
  || contains (lower (name m)) (u "pro")
  || contains (lower (name m)) (u "flash").

(** One turn of the loop of lines 28-33 on
    [(vision_models, text_models)]. *)
Definition classify_step (lists : list str * list str) (m : Model)
  : list str * list str :=
  let '(vision_models, text_models) := lists in
  if supports_generate m then
    if looks_multimodal m then (vision_models ++ [name m], text_models)
    else (vision_models, text_models ++ [name m])
  else (vision_models, text_models).

Definition classify (models : list Model) : list str * list str :=
  fold_left classify_step models ([], []).

Definition tick (model : str) : str := u "  " ++ [10003%N] ++ u " " ++ model.

(** Lines 35-59: what is printed once the models are listed, one entry
    for each call of [print]. *)
Definition report (models : list Model) : list str :=
  let '(vision_models, text_models) := classify models in
  [ [128444; 65039]%N ++ u "  VISION/MULTIMODAL MODELS (for receipt analysis):" ]
  ++ match vision_models with
     | [] => [ u "  " ++ [10060%N] ++ u " No vision models found!" ]
     | _ => map tick vision_models
     end
  ++ [ [10; 128221]%N ++ u " TEXT-ONLY MODELS:" ]
  ++ match text_models with
     | [] => [ u "  " ++ [10060%N] ++ u " No text models found!" ]
     | _ => map tick text_models
     end
  ++ [ [10%N] ++ repeat 61%N 60 ]
  ++ match vision_models with
     | recommended :: _ =>
         [ [10; 9989]%N ++ u " RECOMMENDED MODEL TO USE: " ++ recommended;
           [10%N] ++ u "Update vision_agent.py line 22 to:";
           u "   self.model = genai.GenerativeModel(" ++ [34%N]
             ++ recommended ++ [34%N] ++ u ")" ]
     | [] =>
         [ [10; 10060]%N ++ u " YOUR API KEY HAS NO MODEL ACCESS!";
           u "   Please regenerate your Gemini API key at:";
           u "   https://aistudio.google.com/app/apikey" ]
     end.

(** The script: the key read from the environment ([None] when the
    variable is not set) and what listing the models gives, to the
    printed entries and the exit status.  The loop only fills two local
    lists, so a listing that raises half way shows as one that raises.
    An exception of the listing that is no instance of [Exception]
    passes the handler of line 61 and ends the script. *)
Definition script (api_key : option str) (list_models : result (list Model))
  : list str * Z :=
  match api_key with
  | None | Some [] =>
      ([ [10060%N] ++ u " GEMINI_API_KEY not found in environment" ], 1%Z)
  | Some key =>
      let found :=
        [ [9989%N] ++ u " API Key found: " ++ firstn 20 key ++ u "...";
          [10; 128203]%N ++ u " Checking available models..." ++ [10%N] ] in
      match list_models with
      | Ok models => (found ++ report models, 0%Z)
      | Raise e =>
          (found
             ++ [ [10060%N] ++ u " ERROR: " ++ exn_text e;
                  [10%N] ++ u "Your API key might be invalid or expired.";
                  u "Generate a new one at: https://aistudio.google.com/app/apikey" ],
           0%Z)
      | Escape g => (found, uncaught_status g)
      end
  end.

End Diagnostic.

(* ================================================================== *)
(** * Further observations *)
(* ================================================================== *)

(** The updates handed to the store, oldest first. *)
Fixpoint store_updates (evs : list event) : list (str * dict) :=
  match evs with
  | [] => []
  | StoreUpdate rid upd :: rest => (rid, upd) :: store_updates rest
  | Log _ _ :: rest => store_updates rest
  end.

Definition stage_and_percentage (update : str * dict)
  : option pyvalue * option pyvalue :=
  (dict_get (snd update) (u "progress_stage"),
   dict_get (snd update) (u "progress_percentage")).

(** A computation that only appends log records to the events. *)
Definition logs_only {A} (c : M World A) : Prop :=
  forall w,
  exists logs, io (snd (c w)) = io w ++ logs /\ Forall is_log logs.

(** Values a JSON decoder can return: nothing of NumPy at the top. *)
Definition plain_values (d : dict) : Prop :=
  forall k v, dict_get d k = Some v -> is_numpy v = false.

(** An environment in which NumPy refuses to give a comparison a truth
    value, as it does for an array of several elements. *)
Definition with_ambiguous_numpy (E : Env) : Env :=
  {| image_open := image_open E;
     generate_content := generate_content E;
     json_loads := json_loads E;
     format_value := format_value E;
     class_name := class_name E;
     float_repr := float_repr E;
     int_of := int_of E;
     utcnow_isoformat := utcnow_isoformat E;
     store_update := store_update E;
     numpy_eq_truth :=
       fun _ _ =>
         Raise (Exn ValueError
                  (u "The truth value of an array with more than one element is ambiguous."));
     numpy_truth := numpy_truth E;
     recursion_limit := recursion_limit E |}.

(** An environment in which the call of the store is interrupted by an
    exception that is no instance of [Exception]. *)
Definition with_interrupted_store (E : Env) (g : signal) : Env :=
  {| image_open := image_open E;
     generate_content := generate_content E;
     json_loads := json_loads E;
     format_value := format_value E;
     class_name := class_name E;
     float_repr := float_repr E;
     int_of := int_of E;
     utcnow_isoformat := utcnow_isoformat E;
     store_update := fun _ _ _ => Escape g;
     numpy_eq_truth := numpy_eq_truth E;
     numpy_truth := numpy_truth E;
     recursion_limit := recursion_limit E |}.

(** An environment whose store, integer conversion and NumPy
    comparisons end with a value or with an instance of [Exception]. *)
Definition uninterrupted (E : Env) : Prop :=
  (forall evs rid upd g, store_update E evs rid upd <> Escape g)
  /\ (forall v g, int_of E v <> Escape g)
  /\ (forall a b g, numpy_eq_truth E a b <> Escape g)
  /\ (forall v g, numpy_truth E v <> Escape g).

(** Collaborators of [analyze] that end every call with a value or with
    an instance of [Exception]: the image loader, the remote model and
    the [text] of its replies, the JSON decoder and the progress
    collaborator. *)
Definition never_interrupted (E : Env) (progress : option Progress) : Prop :=
  (forall w path g, image_open E w path <> Escape g)
  /\ (forall w m img g, generate_content E w m img <> Escape g)
  /\ (forall w m img reply g,
        generate_content E w m img = Ok reply -> text reply <> Escape g)
  /\ (forall s g, json_loads E s <> Escape g)
  /\ match progress with
     | Some p =>
         forall agent stage message percentage details evs g,
           fst (emit_method p agent stage message percentage details evs)
           <> Escape g
     | None => True
     end.

(** A reply inside a fence that has no language tag. *)
Definition plain_fenced_reply : str :=
  u "```" ++ [10%N] ++ partial_reply ++ [10%N] ++ u "```".

(** The models of a listing, for the worked runs. *)
Definition sample_listing : list Diagnostic.Model :=
  [ {| Diagnostic.name := u "models/embedding-001";
       Diagnostic.supported_generation_methods := [u "embedContent"] |};
    {| Diagnostic.name := u "models/chat-bison-001";
       Diagnostic.supported_generation_methods :=
         [u "generateMessage"; u "generateContent"] |};
    {| Diagnostic.name := u "models/Gemini-2.5-Flash";
       Diagnostic.supported_generation_methods :=
         [u "generateContent"; u "countTokens"] |};
    {| Diagnostic.name := u "models/gemini-2.5-pro";
       Diagnostic.supported_generation_methods := [u "generateContent"] |} ].

(* ================================================================== *)
(** * Facts *)
(* ================================================================== *)

Unset Implicit Arguments.

(** ** Dictionaries and strings *)

Lemma str_eqb_eq (a b : str) : str_eqb a b = true <-> a = b.
Proof.
  unfold str_eqb. destruct (list_eq_dec N.eq_dec a b); split; congruence.
Qed.

Lemma str_eqb_refl (a : str) : str_eqb a a = true.
Proof. apply str_eqb_eq. reflexivity. Qed.

Lemma str_eqb_neq (a b : str) : a <> b -> str_eqb a b = false.
Proof.
  intros H. unfold str_eqb. destruct (list_eq_dec N.eq_dec a b); congruence.
Qed.

Lemma dict_get_set_same (d : dict) (k : str) (v : pyvalue) :
  dict_get (dict_set d k v) k = Some v.
Proof.
  induction d as [| [k' v'] d IH]; simpl.
  - now rewrite str_eqb_refl.
  - destruct (str_eqb k' k) eqn:Hk; simpl.
    + now rewrite str_eqb_refl.
    + now rewrite Hk.
Qed.

Lemma dict_get_set_other (d : dict) (k k' : str) (v : pyvalue) :
  k <> k' -> dict_get (dict_set d k v) k' = dict_get d k'.
Proof.
  intros Hne. induction d as [| [k0 v0] d IH]; simpl.
  - now rewrite str_eqb_neq.
  - destruct (str_eqb k0 k) eqn:Hk; simpl.
    + apply str_eqb_eq in Hk. subst k0. now rewrite !str_eqb_neq.
    + destruct (str_eqb k0 k'); [reflexivity | exact IH].
Qed.

Lemma detail_key_inj (k k' : str) : detail_key k = detail_key k' -> k = k'.
Proof. unfold detail_key. apply app_inv_head. Qed.

(** ** The monad *)

Lemma lift_io_frame {A} (c : M (list event) A) (w : World) :
  agent (snd (lift_io c w)) = agent w
  /\ submissions (snd (lift_io c w)) = submissions w.
Proof. unfold lift_io. destruct (c (io w)); simpl. auto. Qed.

Lemma lift_io_returns {A} (c : M (list event) A) (w : World) a evs :
  c (io w) = (Ok a, evs) ->
  lift_io c w =
    (Ok a, {| agent := agent w; submissions := submissions w; io := evs |}).
Proof. intros H. unfold lift_io. now rewrite H. Qed.

(** ** What [emit] ends with *)

Lemma map_result_never_escapes {A B} (f : A -> result B) :
  (forall a g, f a <> Escape g) ->
  forall l g, map_result f l <> Escape g.
Proof.
  intros Hf l. induction l as [| a l IH]; intros g; simpl; [discriminate |].
  destruct (f a) as [b | e | g0] eqn:Ha;
    [| discriminate | exfalso; exact (Hf a g0 Ha)].
  destruct (map_result f l) as [bs | e | g1];
    [discriminate | discriminate |].
  exfalso. exact (IH g1 eq_refl).
Qed.

(** The encoder raises instances of [Exception] only. *)
Lemma iterencode_never_escapes (E : Env) (depth : nat) :
  forall o g, iterencode E depth o <> Escape g.
Proof.
  induction depth as [| depth IH]; intros o g; [discriminate |].
  assert (Hlist : forall items g0,
             match map_result (iterencode E depth) items with
             | Raise e => Raise e
             | Escape g1 => Escape g1
             | Ok parts => Ok (u "[" ++ join (u ", ") parts ++ u "]")
             end <> Escape g0).
  { intros items g0.
    pose proof (map_result_never_escapes (iterencode E depth) IH items) as H.
    destruct (map_result (iterencode E depth) items) as [parts | e | g1];
      [discriminate | discriminate | exfalso; exact (H g1 eq_refl)]. }
  destruct o; simpl; try discriminate; try apply IH; try apply Hlist.
  - destruct b; discriminate.
  - match goal with
    | |- context [map_result ?f items] =>
        assert (Hf : forall kv g0, f kv <> Escape g0);
        [| pose proof (map_result_never_escapes f Hf items) as H;
           destruct (map_result f items) as [parts | e | g1];
           [discriminate | discriminate | exfalso; exact (H g1 eq_refl)]]
    end.
    intros kv g0. pose proof (IH (snd kv)) as H.
    destruct (iterencode E depth (snd kv)) as [t | e | g1];
      [discriminate | discriminate | exfalso; exact (H g1 eq_refl)].
Qed.

Lemma json_dumps_never_escapes (E : Env) (o : pyvalue) (g : signal) :
  json_dumps E o <> Escape g.
Proof. apply iterencode_never_escapes. Qed.

Lemma is_skipped_never_escapes (E : Env) (v : pyvalue) (g : signal) :
  uninterrupted E -> is_skipped E v <> Escape g.
Proof.
  intros [_ [_ [Heq _]]]. unfold is_skipped, eq_empty_dict, eq_empty_list.
  destruct v; simpl; try discriminate;
    try (destruct items; discriminate);
    match goal with
    | |- context [numpy_eq_truth E ?a (PyDict [])] =>
        pose proof (Heq a (PyDict [])) as H1;
        pose proof (Heq a (PyList []) g) as H2;
        destruct (numpy_eq_truth E a (PyDict [])) as [[|] | e | g1];
        [discriminate | exact H2 | discriminate
        | exfalso; exact (H1 g1 eq_refl)]
    end.
Qed.

Lemma flatten_item_never_escapes (E : Env) upd k v evs (g : signal) :
  uninterrupted E -> fst (flatten_item E upd k v evs) <> Escape g.
Proof.
  intros HE. unfold flatten_item, bind, lift_result, try_except.
  pose proof (is_skipped_never_escapes E v) as Hs.
  destruct (is_skipped E v) as [[|] | e | g1];
    [discriminate | | discriminate | exfalso; exact (Hs g1 HE eq_refl)].
  destruct (is_primitive v); [discriminate |].
  pose proof (json_dumps_never_escapes E v) as Hj.
  destruct (json_dumps E v) as [t | e | g1];
    [discriminate | discriminate | exfalso; exact (Hj g1 eq_refl)].
Qed.

Lemma flatten_details_never_escapes (E : Env) items :
  uninterrupted E ->
  forall upd evs (g : signal),
    fst (flatten_details E items upd evs) <> Escape g.
Proof.
  intros HE. induction items as [| [k v] rest IH]; intros upd evs g; simpl;
    [discriminate |].
  unfold bind.
  pose proof (flatten_item_never_escapes E upd k v evs) as Hi.
  destruct (flatten_item E upd k v evs) as [[upd1 | e | g1] evs1];
    [apply IH | discriminate | exfalso; exact (Hi g1 HE eq_refl)].
Qed.

Lemma emit_body_never_escapes (E : Env) self a s m p details evs
    (g : signal) :
  uninterrupted E -> fst (emit_body E self a s m p details evs) <> Escape g.
Proof.
  intros HE. pose proof HE as [Hstore [Hint [_ Htruth]]].
  unfold emit_body, bind, lift_result, utcnow.
  assert (Hp : forall g0, py_int E p <> Escape g0).
  { intros g0. destruct p; simpl; try discriminate; apply Hint. }
  destruct (py_int E p) as [pct | e | g1];
    [| discriminate | exfalso; exact (Hp g1 eq_refl)].
  assert (Ht : forall g0, py_truth E details <> Escape g0).
  { intros g0. destruct details; simpl; try discriminate; apply Htruth. }
  destruct (py_truth E details) as [truthy | e | g1];
    [| discriminate | exfalso; exact (Ht g1 eq_refl)].
  match goal with
  | |- context [(if truthy then ?c else ?c') evs] =>
      assert (Hd : forall g0, fst ((if truthy then c else c') evs) <> Escape g0);
      [| destruct ((if truthy then c else c') evs) as [[upd | e | g1] evs1];
         [| discriminate | exfalso; exact (Hd g1 eq_refl)]]
  end.
  { intros g0. destruct truthy; [| discriminate].
    destruct details; try discriminate.
    apply flatten_details_never_escapes. exact HE. }
  unfold progress_ref_update, log.
  pose proof (Hstore evs1 (receipt_id self) upd) as Hu.
  destruct (store_update E evs1 (receipt_id self) upd) as [[] | e | g1];
    [discriminate | discriminate | exfalso; exact (Hu g1 eq_refl)].
Qed.

(** With a store, an integer conversion and NumPy comparisons that
    raise instances of [Exception] only, [emit] returns. *)
Lemma emit_total (E : Env) (self : ProgressEmitter)
    (agent stage message progress details : pyvalue) (evs : list event) :
  uninterrupted E ->
  exists evs',
    emit E self agent stage message progress details evs = (Ok tt, evs').
Proof.
  intros HE. unfold emit, try_except.
  pose proof (emit_body_never_escapes E self agent stage message progress
                details evs) as Hb.
  destruct (emit_body E self agent stage message progress details evs)
    as [[[] | e | g] evs1].
  - eauto.
  - unfold log. eauto.
  - exfalso. exact (Hb g HE eq_refl).
Qed.

Lemma as_progress_quiet (E : Env) (self : ProgressEmitter) :
  uninterrupted E -> quiet (Some (as_progress E self)).
Proof. intros HE. simpl. intros a s m p d evs. now apply emit_total. Qed.

Lemma scenario_uninterrupted
    (remote : World -> str -> image -> result response) :
  uninterrupted (Scenario.env remote).
Proof. repeat split; intros; discriminate. Qed.

(** C8, as the code has it.  No instance of [Exception] leaves
    [ProgressEmitter.emit]: when the fields were built and written it
    returns [None]; when anything raised such an exception on the way,
    the handler of line 98 appends one error record to the log and
    [emit] returns [None] all the same; an exception that is no
    instance of [Exception] is not caught and reaches the caller.  So
    with a store, an integer conversion and NumPy comparisons that
    raise instances of [Exception] only, [emit] always returns ([str]
    of the arguments and the clock are taken to answer). *)
Theorem emit_never_raises (E : Env) (self : ProgressEmitter)
    (agent stage message progress details : pyvalue) (evs : list event) :
  (forall e,
      fst (emit E self agent stage message progress details evs) <> Raise e)
  /\ match emit_body E self agent stage message progress details evs with
     | (Ok _, evs') =>
         emit E self agent stage message progress details evs = (Ok tt, evs')
     | (Raise e, evs') =>
         emit E self agent stage message progress details evs =
           (Ok tt,
            evs' ++ [Log ERROR ([8218; 249; 229]%N
                                  ++ u " Failed to emit progress for "
                                  ++ receipt_id self ++ u ": " ++ exn_text e)])
     | (Escape g, evs') =>
         emit E self agent stage message progress details evs
         = (Escape g, evs')
     end
  /\ (uninterrupted E ->
      exists evs',
        emit E self agent stage message progress details evs = (Ok tt, evs')).
Proof.
  split; [| split].
  - intros e. unfold emit, try_except.
    destruct (emit_body E self agent stage message progress details evs)
      as [[[] | e1 | g] evs1]; discriminate.
  - unfold emit, try_except.
    destruct (emit_body E self agent stage message progress details evs)
      as [[[] | e | g] evs1]; reflexivity.
  - apply emit_total.
Qed.

(** C8 as stated fails: the handler of line 98 takes instances of
    [Exception]; a [KeyboardInterrupt] that arrives while the store is
    being written leaves [emit], and nothing is logged. *)
Lemma emit_lets_an_interrupt_through :
  let E :=
    with_interrupted_store
      (Scenario.env (Scenario.always (Scenario.fails "unused")))
      KeyboardInterrupt in
  emit E Scenario.emitter (PyStr (u "vision")) (PyStr (u "ocr_started"))
       (PyStr (u "reading")) (PyInt 10) PyNone []
  = (Escape KeyboardInterrupt,
     [ StoreUpdate (u "receipt-1")
         (base_fields E (PyStr (u "vision")) (PyStr (u "ocr_started"))
                      (PyStr (u "reading")) 10 []) ]).
Proof. reflexivity. Qed.

(** ** What [analyze] ends with *)

Lemma analyze_of_body_raise (E : Env) image_path progress w e w1 :
  analyze_body E image_path progress w = (Raise e, w1) ->
  fst (analyze E image_path progress w) = Ok default_result.
Proof.
  intros H. unfold analyze, try_except. rewrite H. reflexivity.
Qed.

Lemma analyze_of_body_ok (E : Env) image_path progress w d w1 :
  analyze_body E image_path progress w = (Ok d, w1) ->
  analyze E image_path progress w = (Ok d, w1).
Proof.
  intros H. unfold analyze, try_except. rewrite H. reflexivity.
Qed.

Lemma analyze_of_body_escape (E : Env) image_path progress w g w1 :
  analyze_body E image_path progress w = (Escape g, w1) ->
  analyze E image_path progress w = (Escape g, w1).
Proof.
  intros H. unfold analyze, try_except. rewrite H. reflexivity.
Qed.

(** [analyze] returns a record, unless an exception that is no instance
    of [Exception] left its [try] block. *)
Lemma analyze_outcome (E : Env) (image_path : str)
    (progress : option Progress) (w : World) :
  (exists g w',
      analyze_body E image_path progress w = (Escape g, w')
      /\ analyze E image_path progress w = (Escape g, w'))
  \/ exists d w', analyze E image_path progress w = (Ok d, w').
Proof.
  unfold analyze, try_except.
  destruct (analyze_body E image_path progress w) as [[d | e | g] w1].
  - right. eauto.
  - right. unfold on_failure, bind, lift_io, log, ret. simpl. eauto.
  - left. eauto.
Qed.

(** ** Construction *)

(** C9, as the code has it.  Construction raises [ValueError] exactly
    when the key is missing or empty; every other key, well formed or
    not, gives an instance on the primary model.  Either way nothing is
    done but, on failure, one error record in the log. *)
Theorem init_fails_iff_key_missing (api_key : option str)
    (evs : list event) :
  match api_key with
  | None | Some [] =>
      VisionAgent_init api_key evs =
        (Raise (Exn ValueError (u "GEMINI_API_KEY is required")),
         evs ++ [Log ERROR (u "Missing GEMINI_API_KEY")])
  | Some (_ :: _) =>
      VisionAgent_init api_key evs =
        (Ok {| model_name := primary_model; model := primary_model |}, evs)
  end.
Proof. destruct api_key as [[| c key] |]; reflexivity. Qed.

(** C9 as stated fails: a key that no service would accept, here a
    single blank, is enough for construction to succeed. *)
Lemma init_accepts_malformed_key :
  fst (VisionAgent_init (Some (u " ")) [])
  = Ok {| model_name := primary_model; model := primary_model |}.
Proof. reflexivity. Qed.

(** ** The fallback *)

Lemma call_model_primary_ok (E : Env) img w reply :
  generate_content E w (model (agent w)) img = Ok reply ->
  call_model E img w = (Ok reply, after_submit w).
Proof.
  intros H. unfold call_model, try_except, submit. rewrite H. reflexivity.
Qed.

Lemma call_model_other_error (E : Env) img w e :
  generate_content E w (model (agent w)) img = Raise e ->
  is_not_found e = false ->
  call_model E img w = (Raise e, after_submit w).
Proof.
  intros H Hnf. unfold call_model, try_except, submit. rewrite H, Hnf.
  reflexivity.
Qed.

Lemma call_model_primary_escape (E : Env) img w g :
  generate_content E w (model (agent w)) img = Escape g ->
  call_model E img w = (Escape g, after_submit w).
Proof.
  intros H. unfold call_model, try_except, submit. rewrite H. reflexivity.
Qed.

Lemma call_model_retry (E : Env) img w e :
  generate_content E w (model (agent w)) img = Raise e ->
  is_not_found e = true ->
  call_model E img w =
    match generate_content E (at_retry w) secondary_model img with
    | Ok reply => (Ok reply, after_submit (at_retry w))
    | Raise e2 =>
        (Raise (Exn ValueError unavailable_message),
         {| agent := agent (at_retry w);
            submissions := submissions (after_submit (at_retry w));
            io := io (at_retry w)
                    ++ [Log ERROR (u "All Gemini models failed. Last error: "
                                     ++ exn_text e2)] |})
    | Escape g => (Escape g, after_submit (at_retry w))
    end.
Proof.
  intros H Hnf. unfold call_model, try_except at 1, submit at 1.
  rewrite H, Hnf.
  unfold bind, get_model_name, lift_io, log, try_except, set_model, submit,
    at_retry, after_submit.
  cbn [agent submissions io model model_name].
  match goal with
  | |- context [generate_content E ?w1 secondary_model img] =>
      destruct (generate_content E w1 secondary_model img)
  end; reflexivity.
Qed.



(** ** No way out of [analyze] but through a collaborator *)

Lemma emit_if_never_escapes (progress : option Progress) a s m p d w
    (g : signal) :
  match progress with
  | Some pr =>
      forall a s m pc d evs g,
        fst (emit_method pr a s m pc d evs) <> Escape g
  | None => True
  end ->
  fst (emit_if progress a s m p d w) <> Escape g.
Proof.
  destruct progress as [pr |]; simpl; [| discriminate].
  intros H. unfold lift_io. specialize (H a s m p d (io w) g).
  destruct (emit_method pr a s m p d (io w)) as [r evs]. exact H.
Qed.

Lemma load_image_never_escapes (E : Env) path progress w (g : signal) :
  never_interrupted E progress ->
  fst (load_image E path progress w) <> Escape g.
Proof.
  intros [Himg [_ [_ [_ Hp]]]]. unfold load_image, bind.
  match goal with
  | |- context [emit_if progress ?a ?s ?m ?p ?d w] =>
      pose proof (fun g0 => emit_if_never_escapes progress a s m p d w g0 Hp)
        as He;
      destruct (emit_if progress a s m p d w) as [[[] | e | g1] w1]
  end.
  - unfold lift_io, log, open_image. simpl. apply Himg.
  - discriminate.
  - exfalso. exact (He g1 eq_refl).
Qed.

Lemma call_model_never_escapes (E : Env) img w (g : signal) :
  (forall w m img g, generate_content E w m img <> Escape g) ->
  fst (call_model E img w) <> Escape g.
Proof.
  intros Hgen.
  destruct (generate_content E w (model (agent w)) img) as [reply | e | g1]
    eqn:H1.
  - rewrite (call_model_primary_ok E img w reply H1). discriminate.
  - destruct (is_not_found e) eqn:Hnf.
    + rewrite (call_model_retry E img w e H1 Hnf).
      destruct (generate_content E (at_retry w) secondary_model img)
        as [reply | e2 | g2] eqn:H2; try discriminate.
      exfalso. exact (Hgen _ _ _ _ H2).
    + rewrite (call_model_other_error E img w e H1 Hnf). discriminate.
  - exfalso. exact (Hgen _ _ _ _ H1).
Qed.

(** A reply [call_model] returns is a reply of the remote model. *)
Lemma call_model_reply (E : Env) img w reply w' :
  call_model E img w = (Ok reply, w') ->
  exists w0 m, generate_content E w0 m img = Ok reply.
Proof.
  destruct (generate_content E w (model (agent w)) img) as [r | e | g]
    eqn:H1.
  - rewrite (call_model_primary_ok E img w r H1).
    intros H. injection H as <- _. eauto.
  - destruct (is_not_found e) eqn:Hnf.
    + rewrite (call_model_retry E img w e H1 Hnf).
      destruct (generate_content E (at_retry w) secondary_model img)
        as [r | e2 | g2] eqn:H2; try discriminate.
      intros H. injection H as <- _. eauto.
    + rewrite (call_model_other_error E img w e H1 Hnf). discriminate.
  - rewrite (call_model_primary_escape E img w g H1). discriminate.
Qed.

Lemma sanitize_amount_never_escapes (d : dict) (g : signal) :
  sanitize_amount d <> Escape g.
Proof.
  unfold sanitize_amount, float_of_str.
  destruct (dict_get_default d (u "total_amount") (PyInt 0));
    try discriminate.
  destruct (clean_amount s) as [| c rest]; [discriminate |].
  destruct (parse_decimal (c :: rest)); discriminate.
Qed.

Lemma extract_never_escapes (E : Env) progress reply w (g : signal) :
  (forall g0, text reply <> Escape g0) ->
  never_interrupted E progress ->
  fst (extract E progress reply w) <> Escape g.
Proof.
  intros Ht [_ [_ [_ [Hj Hp]]]]. unfold extract, bind, lift_result.
  destruct (text reply) as [t | e | g1];
    [| discriminate | exfalso; exact (Ht g1 eq_refl)].
  pose proof (Hj (strip (unfence (strip t)))) as Hj'.
  destruct (json_loads E (strip (unfence (strip t)))) as [parsed | e | g1];
    [| discriminate | exfalso; exact (Hj' g1 eq_refl)].
  destruct parsed; simpl as_dict; try discriminate.
  cbv iota beta.
  pose proof (sanitize_amount_never_escapes items) as Hs.
  destruct (sanitize_amount items) as [d' | e | g1];
    [| discriminate | exfalso; exact (Hs g1 eq_refl)].
  match goal with
  | |- context [emit_if progress ?a ?s ?m ?p ?dd w] =>
      pose proof (fun g0 => emit_if_never_escapes progress a s m p dd w g0 Hp)
        as He;
      destruct (emit_if progress a s m p dd w) as [[[] | e | g1] w1]
  end.
  - discriminate.
  - discriminate.
  - exfalso. exact (He g1 eq_refl).
Qed.

Lemma analyze_body_never_escapes (E : Env) path progress w (g : signal) :
  never_interrupted E progress ->
  fst (analyze_body E path progress w) <> Escape g.
Proof.
  intros HE. pose proof HE as [_ [Hgen [Htext _]]].
  unfold analyze_body, bind.
  pose proof (load_image_never_escapes E path progress w) as Hl.
  destruct (load_image E path progress w) as [[img | e | g1] w1];
    [| discriminate | exfalso; exact (Hl g1 HE eq_refl)].
  pose proof (call_model_never_escapes E img w1) as Hc.
  destruct (call_model E img w1) as [[reply | e | g1] w2] eqn:Hcall;
    [| discriminate | exfalso; exact (Hc g1 Hgen eq_refl)].
  destruct (call_model_reply E img w1 reply w2 Hcall) as [w0 [m Hr]].
  apply extract_never_escapes; [| exact HE].
  intros g0. exact (Htext w0 m img reply g0 Hr).
Qed.

(** With collaborators that raise instances of [Exception] only,
    [analyze] returns a record. *)
Lemma analyze_total (E : Env) (image_path : str) (progress : option Progress)
    (w : World) :
  never_interrupted E progress ->
  exists d w', analyze E image_path progress w = (Ok d, w').
Proof.
  intros HE.
  destruct (analyze_outcome E image_path progress w)
    as [[g [w' [Hb _]]] | H]; [| exact H].
  exfalso.
  apply (analyze_body_never_escapes E image_path progress w g HE).
  now rewrite Hb.
Qed.

(** C2, as the code has it.  No instance of [Exception] leaves
    [analyze]: when its [try] block returned a record, that record is
    returned; when anything in the block raised such an exception, the
    handler of line 117 returns the default record, with confidence 0,
    the placeholder texts, and an error text that is not empty; an
    exception that is no instance of [Exception] is not caught and
    reaches the caller.  So with an image loader, a remote model, a
    JSON decoder and a progress collaborator that raise instances of
    [Exception] only, [analyze] always returns a record. *)
Theorem analyze_never_raises (E : Env) (image_path : str)
    (progress : option Progress) (w : World) :
  (forall e, fst (analyze E image_path progress w) <> Raise e)
  /\ match analyze_body E image_path progress w with
     | (Ok d, w') => analyze E image_path progress w = (Ok d, w')
     | (Raise _, _) =>
         fst (analyze E image_path progress w) = Ok default_result
     | (Escape g, w') => analyze E image_path progress w = (Escape g, w')
     end
  /\ (never_interrupted E progress ->
      exists d w', analyze E image_path progress w = (Ok d, w'))
  /\ dict_get default_result (u "confidence") = Some (PyInt 0)
  /\ dict_get default_result (u "merchant_name")
     = Some (PyStr (u "Unknown Merchant"))
  /\ dict_get default_result (u "ocr_text")
     = Some (PyStr (u "OCR extraction unavailable - Gemini API error"))
  /\ dict_get default_result (u "total_amount") = Some (PyFloat fzero)
  /\ exists msg,
       dict_get default_result (u "error") = Some (PyStr msg) /\ msg <> [].
Proof.
  split; [| split; [| split]].
  - intros e.
    destruct (analyze_outcome E image_path progress w)
      as [[g [w' [_ ->]]] | [d [w' ->]]]; discriminate.
  - destruct (analyze_body E image_path progress w) as [[d | e | g] w1] eqn:Hb.
    + now apply analyze_of_body_ok.
    + now apply analyze_of_body_raise with (e := e) (w1 := w1).
    + now apply analyze_of_body_escape.
  - apply analyze_total.
  - repeat split; try reflexivity.
    eexists. split; [reflexivity | discriminate].
Qed.

(** C2 as stated fails: the handler of line 117 takes instances of
    [Exception]; when the task is cancelled while it awaits the answer
    of the remote model, the [CancelledError] goes through both
    handlers to the caller, and no record is returned. *)
Lemma analyze_lets_cancellation_through :
  let E := Scenario.env (Scenario.always Scenario.cancelled) in
  analyze E (u "receipt.png") None Scenario.start
  = (Escape CancelledError,
     {| agent := agent Scenario.start;
        submissions := [primary_model];
        io := [Log INFO (u "Loading image with PIL: receipt.png")] |}).
Proof. vm_compute. reflexivity. Qed.

(** ** What a call does to the instance and to the record of requests *)

Create HintDb frames.

Lemma frames_ret {A} (a : A) : frames (ret a).
Proof. intros w. auto. Qed.

Lemma frames_raise {A} (e : exn) : frames (@raise World A e).
Proof. intros w. auto. Qed.

Lemma frames_lift_result {A} (r : result A) : frames (lift_result r).
Proof. intros w. auto. Qed.

Lemma frames_lift_io {A} (c : M (list event) A) : frames (lift_io c).
Proof. intros w. apply lift_io_frame. Qed.

Lemma frames_bind {A B} (c : M World A) (k : A -> M World B) :
  frames c -> (forall a, frames (k a)) -> frames (bind c k).
Proof.
  intros Hc Hk w. unfold bind. specialize (Hc w).
  destruct (c w) as [[a | e | g] w1]; simpl in *.
  - destruct (Hk a w1) as [H1 H2]. destruct Hc as [H3 H4]. split; congruence.
  - exact Hc.
  - exact Hc.
Qed.

Lemma frames_emit_if (E : Env) progress a s m p d :
  frames (emit_if progress a s m p d).
Proof.
  destruct progress; simpl; [apply frames_lift_io | apply frames_ret].
Qed.

Lemma frames_open_image (E : Env) path : frames (open_image E path).
Proof. intros w. auto. Qed.

#[local] Hint Resolve frames_ret frames_raise frames_lift_result
  frames_lift_io frames_emit_if frames_open_image : frames.

Lemma frames_load_image (E : Env) path progress :
  frames (load_image E path progress).
Proof.
  unfold load_image. repeat (apply frames_bind; [| intros ?]); auto with frames.
Qed.

Lemma frames_extract (E : Env) progress reply :
  frames (extract E progress reply).
Proof.
  unfold extract. repeat (apply frames_bind; [| intros ?]); auto with frames.
Qed.

Lemma call_model_effect (E : Env) img w :
  (submissions (snd (call_model E img w)) = submissions w ++ [model (agent w)]
   /\ agent (snd (call_model E img w)) = agent w)
  \/ (submissions (snd (call_model E img w))
      = submissions w ++ [model (agent w); secondary_model]
      /\ model (agent (snd (call_model E img w))) = secondary_model).
Proof.
  destruct (generate_content E w (model (agent w)) img) as [reply | e | g]
    eqn:H1.
  - rewrite (call_model_primary_ok E img w reply H1). left. auto.
  - destruct (is_not_found e) eqn:Hnf.
    + rewrite (call_model_retry E img w e H1 Hnf). right.
      destruct (generate_content E (at_retry w) secondary_model img);
        simpl; rewrite <- app_assoc; auto.
    + rewrite (call_model_other_error E img w e H1 Hnf). left. auto.
  - rewrite (call_model_primary_escape E img w g H1). left. auto.
Qed.

(** Rewriting along the equations on agents and requests. *)
Ltac chase :=
  repeat match goal with
         | H : submissions _ = _ |- _ => rewrite H
         | H : agent _ = _ |- _ => rewrite H
         | H : model (agent _) = _ |- _ => rewrite H
         end.

(** The requests of one call: none, one through the current handle, or
    that one and the retry, after which the handle is the secondary
    one. *)
Lemma analyze_requests (E : Env) path progress w :
  exists l,
    submissions (snd (analyze E path progress w)) = submissions w ++ l
    /\ ((l = [] /\ agent (snd (analyze E path progress w)) = agent w)
        \/ (l = [model (agent w)]
            /\ agent (snd (analyze E path progress w)) = agent w)
        \/ (l = [model (agent w); secondary_model]
            /\ model (agent (snd (analyze E path progress w)))
               = secondary_model)).
Proof.
  assert (Hh : forall e, frames (on_failure e)).
  { intros e. apply frames_bind; auto with frames. }
  unfold analyze, try_except, analyze_body, bind.
  destruct (frames_load_image E path progress w) as [Ha1 Hs1].
  destruct (load_image E path progress w) as [[img | e | g] w1];
    simpl in Ha1, Hs1.
  - destruct (call_model_effect E img w1) as [[Hs2 Ha2] | [Hs2 Ha2]];
      destruct (call_model E img w1) as [[reply | e | g] w2];
      simpl in Hs2, Ha2;
      try (destruct (frames_extract E progress reply w2) as [Ha3 Hs3];
           destruct (extract E progress reply w2) as [[d | e | g] w3];
           simpl in Ha3, Hs3);
      try (destruct (Hh e w3) as [Ha4 Hs4]);
      try (destruct (Hh e w2) as [Ha4 Hs4]);
      cbn [snd];
      first
        [ exists [model (agent w)]; split; [chase; reflexivity |];
          right; left; split; chase; reflexivity
        | exists [model (agent w); secondary_model];
          split; [chase; reflexivity |];
          right; right; split; chase; reflexivity ].
  - destruct (Hh e w1) as [Ha4 Hs4].
    exists []. rewrite app_nil_r. split; [chase; reflexivity |].
    left. split; chase; reflexivity.
  - exists []. rewrite app_nil_r. cbn [snd]. split; [chase; reflexivity |].
    left. split; chase; reflexivity.
Qed.

Lemma requests_since_app (w w' : World) (l : list str) :
  submissions w' = submissions w ++ l -> requests_since w w' = l.
Proof.
  intros H. unfold requests_since.
  rewrite H, skipn_app, skipn_all, Nat.sub_diag. reflexivity.
Qed.

Lemma primary_is_not_secondary : primary_model <> secondary_model.
Proof. discriminate. Qed.

(** Once the handle is the secondary one, a call keeps it and asks no
    other model. *)
Lemma analyze_on_secondary (E : Env) path progress w :
  model (agent w) = secondary_model ->
  model (agent (snd (analyze E path progress w))) = secondary_model
  /\ exists l,
       submissions (snd (analyze E path progress w)) = submissions w ++ l
       /\ Forall (fun m => m = secondary_model) l.
Proof.
  intros Hm.
  destruct (analyze_requests E path progress w)
    as [l [Hs [[Hl Ha] | [[Hl Ha] | [Hl Ha]]]]]; subst l.
  - split; [now rewrite Ha | exists []; auto].
  - split; [now rewrite Ha |].
    exists [model (agent w)]. split; [exact Hs | repeat constructor; exact Hm].
  - split; [exact Ha |].
    exists [model (agent w); secondary_model].
    split; [exact Hs | repeat constructor; exact Hm].
Qed.

Lemma analyze_all_on_secondary (E : Env) calls :
  forall w,
    model (agent w) = secondary_model ->
    model (agent (analyze_all E calls w)) = secondary_model
    /\ exists l,
         submissions (analyze_all E calls w) = submissions w ++ l
         /\ Forall (fun m => m = secondary_model) l.
Proof.
  induction calls as [| [path progress] rest IH]; intros w Hm; simpl.
  - split; [exact Hm |]. exists []. rewrite app_nil_r. auto.
  - destruct (analyze_on_secondary E path progress w Hm) as [Hm1 [l1 [Hs1 Hf1]]].
    destruct (IH _ Hm1) as [Hm2 [l2 [Hs2 Hf2]]].
    split; [exact Hm2 |].
    exists (l1 ++ l2). split.
    + rewrite Hs2, Hs1, app_assoc. reflexivity.
    + apply Forall_app. auto.
Qed.

(** A call that reached the secondary model leaves the secondary handle
    on the instance. *)
Lemma secondary_request_sets_handle (E : Env) path progress w :
  In secondary_model (requests_since w (snd (analyze E path progress w))) ->
  model (agent (snd (analyze E path progress w))) = secondary_model.
Proof.
  intros Hin.
  destruct (analyze_requests E path progress w)
    as [l [Hs [[Hl Ha] | [[Hl Ha] | [Hl Ha]]]]];
    rewrite (requests_since_app _ _ _ Hs) in Hin; subst l.
  - destruct Hin.
  - destruct Hin as [Hin | []]. now rewrite Ha.
  - exact Ha.
Qed.

(** C10. When a call of [analyze] has fallen back, so that a request
    went to the secondary model, the instance keeps the secondary
    handle: through every later sequence of calls on that instance all
    requests, the first one of each call included, go to the secondary
    model, and none to the primary one. *)
Theorem fallback_is_permanent (E : Env) (image_path : str)
    (progress : option Progress) (w : World)
    (calls : list (str * option Progress)) :
  In secondary_model
     (requests_since w (snd (analyze E image_path progress w))) ->
  let w1 := snd (analyze E image_path progress w) in
  let w2 := analyze_all E calls w1 in
  model (agent w1) = secondary_model
  /\ model (agent w2) = secondary_model
  /\ Forall (fun m => m = secondary_model) (requests_since w1 w2)
  /\ ~ In primary_model (requests_since w1 w2).
Proof.
  intros Hin w1 w2.
  pose proof (secondary_request_sets_handle E image_path progress w Hin)
    as Hm1.
  destruct (analyze_all_on_secondary E calls w1 Hm1) as [Hm2 [l [Hs Hf]]].
  fold w2 in Hm2, Hs. rewrite (requests_since_app _ _ _ Hs).
  repeat split; auto.
  intros Hp. rewrite Forall_forall in Hf.
  apply primary_is_not_secondary. now apply Hf.
Qed.

Lemma fallback_is_permanent_witness :
  let E :=
    Scenario.env
      (Scenario.scripted
         [ Scenario.fails "404 models/gemini-2.5-flash is not found";
           Scenario.answers (u "{}");
           Scenario.answers (u "{}");
           Scenario.fails "503 unavailable";
           Scenario.fails "404 again" ]) in
  let w1 := snd (analyze E (u "receipt.png") None Scenario.start) in
  let w2 :=
    analyze_all E [ (u "a.png", None); (u "b.png", None); (u "c.png", None) ]
                w1 in
  requests_since Scenario.start w1 = [primary_model; secondary_model]
  /\ requests_since w1 w2
     = [secondary_model; secondary_model; secondary_model; secondary_model]
  /\ model (agent w1) = secondary_model
  /\ model (agent w2) = secondary_model
  /\ Forall (fun m => m = secondary_model) (requests_since w1 w2)
  /\ ~ In primary_model (requests_since w1 w2).
Proof.
  intros E w1 w2.
  split; [vm_compute; reflexivity |].
  split; [vm_compute; reflexivity |].
  apply (fallback_is_permanent E (u "receipt.png") None Scenario.start
           [ (u "a.png", None); (u "b.png", None); (u "c.png", None) ]).
  vm_compute. auto.
Defined.

(** ** The fields [emit] writes *)

Lemma flatten_item_skipped (E : Env) upd k v evs :
  is_skipped E v = Ok true -> flatten_item E upd k v evs = (Ok upd, evs).
Proof.
  intros H. unfold flatten_item, bind, lift_result. rewrite H. reflexivity.
Qed.

Lemma flatten_item_primitive (E : Env) upd k v evs :
  is_skipped E v = Ok false ->
  is_primitive v = true ->
  flatten_item E upd k v evs = (Ok (dict_set upd (detail_key k) v), evs).
Proof.
  intros H Hp. unfold flatten_item, bind, lift_result. rewrite H, Hp.
  reflexivity.
Qed.

(** One turn of the loop writes at most its own field, and writes it
    only for a value that is not skipped. *)
Lemma flatten_item_fields (E : Env) upd k v evs upd' evs' :
  flatten_item E upd k v evs = (Ok upd', evs') ->
  (is_skipped E v = Ok true /\ upd' = upd)
  \/ (is_skipped E v = Ok false
      /\ exists x, upd' = dict_set upd (detail_key k) x).
Proof.
  unfold flatten_item, bind, lift_result, try_except.
  destruct (is_skipped E v) as [[|] | e | g];
    [| | discriminate | discriminate].
  - intros H. injection H as <- _. auto.
  - intros H. right. split; [reflexivity |].
    destruct (is_primitive v).
    + injection H as <- _. eauto.
    + destruct (json_dumps E v); simpl in H; try discriminate H;
        injection H as <- _; eauto.
Qed.

Lemma flatten_item_logs (E : Env) upd k v evs :
  exists logs,
    snd (flatten_item E upd k v evs) = evs ++ logs /\ Forall is_log logs.
Proof.
  unfold flatten_item, bind, lift_result, try_except.
  destruct (is_skipped E v) as [[|] | e | g];
    try (exists []; rewrite app_nil_r; simpl; auto; fail).
  destruct (is_primitive v);
    try (exists []; rewrite app_nil_r; simpl; auto; fail).
  destruct (json_dumps E v) as [s | e | g];
    try (exists []; rewrite app_nil_r; simpl; auto; fail).
  eexists. simpl. split; [reflexivity |]. repeat constructor.
Qed.

Lemma flatten_details_logs (E : Env) items :
  forall upd evs,
  exists logs,
    snd (flatten_details E items upd evs) = evs ++ logs
    /\ Forall is_log logs.
Proof.
  induction items as [| [k v] rest IH]; intros upd evs; simpl.
  - exists []. rewrite app_nil_r. auto.
  - unfold bind.
    destruct (flatten_item_logs E upd k v evs) as [l1 [H1 F1]].
    destruct (flatten_item E upd k v evs) as [[upd1 | e | g] evs1];
      simpl in H1.
    + destruct (IH upd1 evs1) as [l2 [H2 F2]].
      exists (l1 ++ l2). rewrite H2, H1, app_assoc. split; [reflexivity |].
      apply Forall_app. auto.
    + exists l1. auto.
    + exists l1. auto.
Qed.

(** What the loop leaves under each field name. *)
Lemma flatten_details_fields (E : Env) items :
  forall upd evs upd' evs',
    NoDup (map fst items) ->
    flatten_details E items upd evs = (Ok upd', evs') ->
    (forall k v,
        In (k, v) items ->
        (is_skipped E v = Ok true ->
         dict_get upd' (detail_key k) = dict_get upd (detail_key k))
        /\ (is_skipped E v = Ok false -> is_primitive v = true ->
            dict_get upd' (detail_key k) = Some v))
    /\ (forall f,
           dict_get upd' f = dict_get upd f
           \/ exists k v,
                In (k, v) items /\ f = detail_key k
                /\ is_skipped E v = Ok false).
Proof.
  induction items as [| [k0 v0] rest IH]; intros upd evs upd' evs' Hnd Hrun.
  - simpl in Hrun. injection Hrun as <- _. split; [intros k v [] | auto].
  - simpl in Hrun. unfold bind in Hrun.
    destruct (flatten_item E upd k0 v0 evs) as [[upd1 | e | g] evs1]
      eqn:Hitem; [| discriminate | discriminate].
    inversion Hnd as [| ? ? Hnotin Hnd']; subst.
    destruct (IH upd1 evs1 upd' evs' Hnd' Hrun) as [IHa IHb].
    assert (Hrest : forall k, In k (map fst rest) ->
                     dict_get upd1 (detail_key k) = dict_get upd (detail_key k)).
    { intros k Hk.
      destruct (flatten_item_fields E upd k0 v0 evs _ _ Hitem)
        as [[_ ->] | [_ [x ->]]]; [reflexivity |].
      apply dict_get_set_other. intros Heq. apply detail_key_inj in Heq.
      subst k0. contradiction. }
    assert (Hhere : dict_get upd' (detail_key k0) = dict_get upd1 (detail_key k0)).
    { destruct (IHb (detail_key k0)) as [H | [k [v [Hin [Heq _]]]]];
        [exact H |].
      apply detail_key_inj in Heq. subst k.
      exfalso. apply Hnotin. apply (in_map fst) in Hin. exact Hin. }
    split.
    + intros k v [Heq | Hin].
      * injection Heq as -> ->. rewrite Hhere. split.
        -- intros Hsk. now rewrite (flatten_item_skipped E upd k v evs Hsk) in Hitem;
             injection Hitem as <- _.
        -- intros Hsk Hp.
           rewrite (flatten_item_primitive E upd k v evs Hsk Hp) in Hitem.
           injection Hitem as <- _. apply dict_get_set_same.
      * destruct (IHa k v Hin) as [H1 H2].
        rewrite <- (Hrest k (in_map fst _ _ Hin)). auto.
    + intros f.
      destruct (IHb f) as [H | [k [v [Hin [Heq Hsk]]]]].
      * destruct (flatten_item_fields E upd k0 v0 evs _ _ Hitem)
          as [[_ ->] | [Hsk [x ->]]]; [left; exact H |].
        destruct (list_eq_dec N.eq_dec (detail_key k0) f) as [<- | Hne].
        -- right. exists k0, v0. simpl. auto.
        -- left. rewrite H. now apply dict_get_set_other.
      * right. exists k, v. simpl. auto.
Qed.

Lemma events_since_app (evs new : list event) :
  events_since evs (evs ++ new) = new.
Proof.
  unfold events_since. rewrite skipn_app, skipn_all, Nat.sub_diag.
  reflexivity.
Qed.

Lemma base_fields_named (E : Env) a s m pct evs f :
  dict_get (base_fields E a s m pct evs) f <> None ->
  In f base_field_names.
Proof.
  unfold base_fields, base_field_names. simpl dict_get.
  repeat match goal with
         | |- context [str_eqb ?k f] =>
             let H := fresh "H" in
             destruct (str_eqb k f) eqn:H;
             [apply str_eqb_eq in H; subst f; intros _; simpl; tauto |]
         end.
  congruence.
Qed.

Lemma base_fields_no_detail (E : Env) a s m pct evs key :
  dict_get (base_fields E a s m pct evs) (detail_key key) = None.
Proof.
  destruct (dict_get (base_fields E a s m pct evs) (detail_key key)) eqn:H;
    [| reflexivity].
  assert (Hin : In (detail_key key) base_field_names).
  { apply (base_fields_named E a s m pct evs). congruence. }
  exfalso. unfold base_field_names, detail_key in Hin. simpl in Hin.
  repeat (destruct Hin as [Hin | Hin]; [discriminate Hin |]).
  exact Hin.
Qed.

(** The update [emit] hands to the store is what the loop built from
    the six base fields. *)
Lemma emit_written (E : Env) self a s m p items evs rid upd :
  In (StoreUpdate rid upd)
     (events_since evs (snd (emit E self a s m p (PyDict items) evs))) ->
  exists pct evs1,
    py_int E p = Ok pct
    /\ flatten_details E items (base_fields E a s m pct evs) evs
       = (Ok upd, evs1).
Proof.
  unfold emit, try_except, emit_body, bind, lift_result, utcnow.
  destruct (py_int E p) as [pct | e | g]; simpl py_truth.
  - fold (base_fields E a s m pct evs).
    set (base := base_fields E a s m pct evs).
    assert (Hrun : exists logs r,
               (if match items with [] => false | _ :: _ => true end
                then flatten_details E items base
                else ret base) evs = (r, evs ++ logs)
               /\ Forall is_log logs
               /\ flatten_details E items base evs = (r, evs ++ logs)).
    { destruct (flatten_details_logs E items base evs) as [logs [Hl Hf]].
      destruct items as [| it rest].
      - exists [], (Ok base). rewrite app_nil_r. simpl. auto.
      - exists logs. destruct (flatten_details E (it :: rest) base evs) as [r evs1].
        simpl in Hl. subst evs1. eauto. }
    destruct Hrun as [logs [r [Hrun [Hlogs Hfl]]]].
    rewrite Hrun. clear Hrun.
    assert (Hno : forall (tail : list event),
               In (StoreUpdate rid upd) (logs ++ tail) ->
               In (StoreUpdate rid upd) tail).
    { intros tail Hin. apply in_app_or in Hin. destruct Hin as [Hin | Hin];
        [| exact Hin].
      rewrite Forall_forall in Hlogs. destruct (Hlogs _ Hin). }
    destruct r as [upd0 | e | g].
    + unfold progress_ref_update, log.
      destruct (store_update E (evs ++ logs) (receipt_id self) upd0)
        as [[] | e | g]; simpl snd;
        rewrite <- ?app_assoc, events_since_app; intros Hin;
        apply Hno in Hin; simpl in Hin;
        (destruct Hin as [Hin | Hin]; [injection Hin as _ <-; eauto |]);
        repeat (destruct Hin as [Hin | Hin]; try discriminate Hin);
        destruct Hin.
    + unfold log. simpl snd. rewrite <- app_assoc, events_since_app.
      intros Hin. apply Hno in Hin. destruct Hin as [Hin | []].
      discriminate Hin.
    + simpl snd. rewrite events_since_app.
      intros Hin. rewrite <- (app_nil_r logs) in Hin. apply Hno in Hin.
      destruct Hin.
  - unfold log. simpl snd. rewrite events_since_app.
    intros [Hin | []]. discriminate Hin.
  - simpl snd. rewrite <- (app_nil_r evs) at 2. rewrite events_since_app.
    intros [].
Qed.

Lemma plain_primitive_kept (E : Env) (v : pyvalue) :
  plain_primitive v = true ->
  is_skipped E v = Ok false /\ is_primitive v = true.
Proof. destruct v; simpl; intros H; try discriminate H; auto. Qed.

Lemma not_skipped_not_empty (E : Env) (v : pyvalue) :
  is_skipped E v = Ok false ->
  v <> PyNone /\ v <> PyDict [] /\ v <> PyList [].
Proof.
  intros H. repeat split; intros ->; discriminate H.
Qed.

(** The update written for the details of the example, in every
    environment: the base fields and [progress_detail_d = 5]. *)
Lemma emit_example_update (E : Env) (self : ProgressEmitter)
    (agent stage message : pyvalue) (p : Z) (evs : list event) :
  exists tail,
    snd (emit E self agent stage message (PyInt p)
              (PyDict example_details) evs)
    = evs
        ++ StoreUpdate (receipt_id self)
             (base_fields E agent stage message p evs
                ++ [ (detail_key (u "d"), PyInt 5) ])
        :: tail.
Proof.
  unfold emit, try_except, emit_body, bind, lift_result, utcnow,
    progress_ref_update, log.
  simpl py_int. simpl py_truth. cbv iota beta.
  fold (base_fields E agent stage message p evs).
  set (base := base_fields E agent stage message p evs).
  assert (Hd : flatten_details E example_details base evs
               = (Ok (base ++ [ (detail_key (u "d"), PyInt 5) ]), evs)).
  { unfold example_details. simpl flatten_details. unfold bind.
    rewrite !flatten_item_skipped by reflexivity.
    rewrite flatten_item_primitive by reflexivity.
    reflexivity. }
  rewrite Hd.
  destruct (store_update E evs (receipt_id self)
              (base ++ [ (detail_key (u "d"), PyInt 5) ])) as [[] | e | g];
    simpl snd; rewrite <- ?app_assoc; simpl; eauto.
Qed.

(** C7, as the code has it.  Detail filtering.  In the update [emit]
    hands to the store for a [details] mapping, a pair whose value is
    [None], an empty mapping or an empty list has no field (of the
    sequences only the list: the test of line 75 is [value == []],
    which an empty tuple fails), a pair whose value is a string, an
    integer, a float or a boolean has its value itself under
    [progress_detail_<key>], and every field is one of the six base
    fields or the detail field of a pair that is not skipped.  For the
    details a: None, b: [], c: {}, d: 5 the update is the base fields
    and [progress_detail_d] with value 5. *)
Theorem emit_detail_filtering (E : Env) (self : ProgressEmitter)
    (agent stage message progress : pyvalue) (items : dict)
    (evs : list event) (rid : str) (upd : dict) :
  NoDup (map fst items) ->
  In (StoreUpdate rid upd)
     (events_since evs
        (snd (emit E self agent stage message progress (PyDict items) evs))) ->
  (forall key value,
      In (key, value) items ->
      (value = PyNone \/ value = PyDict [] \/ value = PyList [] ->
       dict_get upd (detail_key key) = None)
      /\ (plain_primitive value = true ->
          dict_get upd (detail_key key) = Some value))
  /\ (forall f,
         dict_get upd f <> None ->
         In f base_field_names
         \/ exists key value,
              In (key, value) items /\ f = detail_key key
              /\ value <> PyNone /\ value <> PyDict [] /\ value <> PyList [])
  /\ (forall (p : Z) (evs0 : list event),
       exists tail,
         snd (emit E self agent stage message (PyInt p)
                   (PyDict example_details) evs0)
         = evs0
             ++ StoreUpdate (receipt_id self)
                  (base_fields E agent stage message p evs0
                     ++ [ (detail_key (u "d"), PyInt 5) ])
             :: tail).
Proof.
  intros Hnd Hin.
  destruct (emit_written E self agent stage message progress items evs
              rid upd Hin) as [pct [evs1 [Hp Hrun]]].
  destruct (flatten_details_fields E items _ evs _ _ Hnd Hrun) as [Ha Hb].
  split; [| split].
  - intros key value Hkv. destruct (Ha key value Hkv) as [H1 H2]. split.
    + intros Hempty. rewrite H1.
      * apply base_fields_no_detail.
      * destruct Hempty as [-> | [-> | ->]]; reflexivity.
    + intros Hprim. destruct (plain_primitive_kept E value Hprim). auto.
  - intros f Hf. destruct (Hb f) as [Heq | [k [v [Hkv [-> Hsk]]]]].
    + left. rewrite Heq in Hf.
      exact (base_fields_named E agent stage message pct evs f Hf).
    + right. exists k, v. split; [exact Hkv |]. split; [reflexivity |].
      exact (not_skipped_not_empty E v Hsk).
  - intros p evs0. apply emit_example_update.
Qed.

Lemma emit_detail_filtering_witness :
  let E := Scenario.env (Scenario.always (Scenario.fails "unused")) in
  let details :=
    [ (u "a", PyNone); (u "b", PyList []); (u "c", PyDict []);
      (u "d", PyInt 5) ] in
  let upd :=
    base_fields E (PyStr (u "vision")) (PyStr (u "ocr_complete"))
                (PyStr (u "done")) 30 []
      ++ [ (u "progress_detail_d", PyInt 5) ] in
  events_since []
    (snd (emit E Scenario.emitter (PyStr (u "vision"))
               (PyStr (u "ocr_complete")) (PyStr (u "done")) (PyInt 30)
               (PyDict details) []))
  = [ StoreUpdate (u "receipt-1") upd;
      Log INFO ([63743; 252; 236; 176]%N
                  ++ u " [receipt-1] vision: done (30%)") ]
  /\ dict_get upd (detail_key (u "a")) = None
  /\ dict_get upd (detail_key (u "b")) = None
  /\ dict_get upd (detail_key (u "c")) = None
  /\ dict_get upd (detail_key (u "d")) = Some (PyInt 5).
Proof.
  intros E details upd.
  assert (Hnd : NoDup (map fst details)).
  { repeat constructor; simpl; intuition discriminate. }
  assert (Hin : In (StoreUpdate (u "receipt-1") upd)
                  (events_since []
                     (snd (emit E Scenario.emitter (PyStr (u "vision"))
                                (PyStr (u "ocr_complete")) (PyStr (u "done"))
                                (PyInt 30) (PyDict details) [])))).
  { vm_compute. left. reflexivity. }
  destruct (emit_detail_filtering E Scenario.emitter (PyStr (u "vision"))
              (PyStr (u "ocr_complete")) (PyStr (u "done")) (PyInt 30)
              details [] (u "receipt-1") upd Hnd Hin) as [Hfields _].
  split; [vm_compute; reflexivity |].
  split; [apply (Hfields (u "a") PyNone); simpl; auto |].
  split; [apply (Hfields (u "b") (PyList [])); simpl; auto |].
  split; [apply (Hfields (u "c") (PyDict [])); simpl; auto |].
  apply (Hfields (u "d") (PyInt 5)); simpl; auto.
Defined.

(** C7 as stated fails for an empty sequence that is no list: an empty
    tuple equals neither [{}] nor [[]], so its pair is not skipped; it
    is no primitive either, so it goes to the encoder, which writes a
    tuple as an array, and the field holds the text [[]]. *)
Lemma empty_tuple_is_written :
  let E := Scenario.env (Scenario.always (Scenario.fails "unused")) in
  is_skipped E (PyTuple []) = Ok false
  /\ json_dumps E (PyTuple []) = Ok (u "[]")
  /\ events_since []
       (snd (emit E Scenario.emitter (PyStr (u "vision"))
                  (PyStr (u "ocr_complete")) (PyStr (u "done")) (PyInt 30)
                  (PyDict [ (u "anomalies", PyTuple []) ]) []))
     = [ StoreUpdate (u "receipt-1")
           (base_fields E (PyStr (u "vision")) (PyStr (u "ocr_complete"))
                        (PyStr (u "done")) 30 []
              ++ [ (u "progress_detail_anomalies", PyStr (u "[]")) ]);
         Log INFO ([63743; 252; 236; 176]%N
                     ++ u " [receipt-1] vision: done (30%)") ].
Proof. repeat split; vm_compute; reflexivity. Qed.

(** ** The amount *)

Lemma shr_1_nonneg (mrs : shr_record) :
  (0 <= shr_m mrs)%Z -> (0 <= shr_m (shr_1 mrs))%Z.
Proof.
  destruct mrs as [m r s]. simpl.
  destruct m as [| [p | p |] | p]; simpl; lia.
Qed.

Lemma iter_shr_1_nonneg (p : positive) :
  forall mrs, (0 <= shr_m mrs)%Z -> (0 <= shr_m (iter_pos shr_1 p mrs))%Z.
Proof.
  induction p as [p IH | p IH |]; intros mrs H; simpl.
  - apply IH, IH, shr_1_nonneg, H.
  - apply IH, IH, H.
  - apply shr_1_nonneg, H.
Qed.

Lemma shr_fexp_nonneg (m e : Z) (l : location) :
  (0 <= m)%Z -> (0 <= shr_m (fst (shr_fexp prec emax m e l)))%Z.
Proof.
  intros H. unfold shr_fexp, shr.
  assert (H0 : (0 <= shr_m (shr_record_of_loc m l))%Z).
  { destruct l as [| []]; exact H. }
  destruct (fexp prec emax (Zdigits2 m + e) - e)%Z; simpl; auto.
  now apply iter_shr_1_nonneg.
Qed.

Lemma round_nearest_even_nonneg (m : Z) (l : location) :
  (0 <= m)%Z -> (0 <= round_nearest_even m l)%Z.
Proof.
  intros H. destruct l as [| []]; simpl; try lia.
  destruct (Z.even m); lia.
Qed.

Lemma binary_round_aux_nonneg (mx ex : Z) (lx : location) :
  (0 <= mx)%Z -> nonneg (binary_round_aux prec emax false mx ex lx) = true.
Proof.
  intros H. unfold binary_round_aux.
  pose proof (shr_fexp_nonneg mx ex lx H) as H1.
  destruct (shr_fexp prec emax mx ex lx) as [mrs1 e1]. simpl in H1.
  pose proof (round_nearest_even_nonneg (shr_m mrs1)
                (loc_of_shr_record mrs1) H1) as H2.
  pose proof (shr_fexp_nonneg _ e1 loc_Exact H2) as H3.
  destruct (shr_fexp prec emax
              (round_nearest_even (shr_m mrs1) (loc_of_shr_record mrs1))
              e1 loc_Exact) as [mrs2 e2].
  simpl in H3.
  destruct (shr_m mrs2) as [| m | m]; [reflexivity | | lia].
  destruct (e2 <=? emax - prec)%Z; reflexivity.
Qed.

Lemma float_of_ratio_nonneg (m d : N) : nonneg (float_of_ratio m d) = true.
Proof.
  unfold float_of_ratio. destruct m as [| pm]; [reflexivity |].
  destruct d as [| pd]; [reflexivity |].
  unfold SFdiv, SFdiv_core_binary.
  set (s := (0 - 0
             - Z.min (fexp prec emax
                        (Zdigits2 (Z.pos pm) + 0 - (Zdigits2 (Z.pos pd) + 0)))
                     (0 - 0))%Z).
  set (m' := match s with
             | Z0 => Z.pos pm
             | Z.pos _ => Z.shiftl (Z.pos pm) s
             | Z.neg _ => 0%Z
             end).
  assert (Hm : (0 <= m')%Z).
  { unfold m'. destruct s; try lia. apply Z.shiftl_nonneg. lia. }
  pose proof (Z.div_pos m' (Z.pos pd) Hm ltac:(lia)) as Hq.
  unfold Z.div in Hq.
  destruct (Z.div_eucl m' (Z.pos pd)) as [q r]. simpl in Hq.
  simpl xorb. now apply binary_round_aux_nonneg.
Qed.

Lemma parse_decimal_nonneg (s : str) (f : float) :
  parse_decimal s = Some f -> nonneg f = true.
Proof.
  unfold parse_decimal.
  destruct (read_decimal s false false 0 0) as [[m k] |]; [| discriminate].
  intros H. injection H as <-. apply float_of_ratio_nonneg.
Qed.

Lemma ensure_confidence_other (d : dict) (k : str) :
  k <> u "confidence" ->
  dict_get (ensure_confidence d) k = dict_get d k.
Proof.
  intros H. unfold ensure_confidence.
  destruct (dict_contains d (u "confidence")); [reflexivity |].
  apply dict_get_set_other. congruence.
Qed.

(** What the sanitizer returns, by the kind of amount it finds. *)
Lemma sanitize_amount_result (d d' : dict) :
  sanitize_amount d = Ok d' ->
  match dict_get d (u "total_amount") with
  | Some (PyStr s) =>
      d' = dict_set d (u "total_amount") (PyFloat (amount_value s))
      /\ (clean_amount s = [] \/ exists f, parse_decimal (clean_amount s) = Some f)
  | _ => d' = d
  end.
Proof.
  unfold sanitize_amount, dict_get_default, amount_value, float_of_str.
  destruct (dict_get d (u "total_amount")) as [[] |];
    try (intros H; injection H as <-; reflexivity).
  destruct (clean_amount s) as [| c rest] eqn:Hc.
  - intros H. injection H as <-. auto.
  - destruct (parse_decimal (c :: rest)) as [f |] eqn:Hp; [| discriminate].
    intros H. injection H as <-. eauto.
Qed.

Lemma amount_value_nonneg (s : str) : nonneg (amount_value s) = true.
Proof.
  unfold amount_value. destruct (clean_amount s) as [| c rest]; [reflexivity |].
  destruct (parse_decimal (c :: rest)) eqn:Hp; [| reflexivity].
  now apply parse_decimal_nonneg with (s := c :: rest).
Qed.

(** ** Runs of [analyze] *)

Lemma emit_if_quiet (E : Env) progress a s m p d w :
  quiet progress ->
  exists w',
    emit_if progress a s m p d w = (Ok tt, w')
    /\ agent w' = agent w /\ submissions w' = submissions w.
Proof.
  intros Hq. destruct progress as [pr |]; simpl.
  - destruct (Hq a s m p d (io w)) as [evs' He].
    rewrite (lift_io_returns _ w tt evs' He). eauto.
  - unfold ret. eauto.
Qed.

Lemma load_image_run (E : Env) path progress img w :
  quiet progress ->
  (forall w', image_open E w' path = Ok img) ->
  exists w1,
    load_image E path progress w = (Ok img, w1)
    /\ agent w1 = agent w /\ submissions w1 = submissions w.
Proof.
  intros Hq Himg. unfold load_image, bind.
  destruct (emit_if_quiet E progress (PyStr (u "vision"))
              (PyStr (u "ocr_started"))
              (PyStr ([129302%N]
                        ++ u " Gemini Vision analyzing receipt structure..."))
              (PyInt 10) PyNone w Hq) as [w0 [-> [Ha Hs]]].
  unfold lift_io, log, open_image. simpl. rewrite Himg. eauto.
Qed.

(** The way through [extract] when nothing raises. *)
Lemma extract_run (E : Env) progress reply t d d' w :
  quiet progress ->
  text reply = Ok t ->
  json_loads E (strip (unfence (strip t))) = Ok (PyDict d) ->
  sanitize_amount d = Ok d' ->
  exists w', extract E progress reply w = (Ok (ensure_confidence d'), w').
Proof.
  intros Hq Ht Hj Hs. unfold extract, bind, lift_result.
  rewrite Ht, Hj. simpl as_dict. cbv iota beta. rewrite Hs.
  match goal with
  | |- context [emit_if progress ?a ?s ?m ?p ?dd w] =>
      destruct (emit_if_quiet E progress a s m p dd w Hq) as [w0 [-> _]]
  end.
  unfold lift_io, log, ret. simpl. eauto.
Qed.

(** What [extract] returned, when it returned. *)
Lemma extract_result (E : Env) progress reply w r w' :
  extract E progress reply w = (Ok r, w') ->
  exists t d d',
    text reply = Ok t
    /\ json_loads E (strip (unfence (strip t))) = Ok (PyDict d)
    /\ sanitize_amount d = Ok d'
    /\ r = ensure_confidence d'.
Proof.
  unfold extract, bind, lift_result.
  destruct (text reply) as [t | e | g] eqn:Ht;
    [| discriminate | discriminate].
  destruct (json_loads E (strip (unfence (strip t)))) as [parsed | e | g]
    eqn:Hj; [| discriminate | discriminate].
  destruct parsed; simpl as_dict; try discriminate.
  cbv iota beta.
  destruct (sanitize_amount items) as [d' | e | g] eqn:Hs;
    [| discriminate | discriminate].
  match goal with
  | |- context [emit_if progress ?a ?s ?m ?p ?dd w] =>
      destruct (emit_if progress a s m p dd w) as [[[] | e | g] w0];
        [| discriminate | discriminate]
  end.
  unfold lift_io, log, ret. simpl. intros H. injection H as <- _.
  exists t, items, d'. auto.
Qed.

(** The record [analyze] returns is the default one or the sanitized
    decoding of a reply; it returns one unless an exception that is no
    instance of [Exception] went through it. *)
Lemma analyze_result (E : Env) path progress w :
  (exists g w', analyze E path progress w = (Escape g, w'))
  \/ exists r w',
       analyze E path progress w = (Ok r, w')
       /\ (r = default_result
           \/ exists t d d',
                json_loads E t = Ok (PyDict d)
                /\ sanitize_amount d = Ok d'
                /\ r = ensure_confidence d').
Proof.
  unfold analyze, try_except.
  destruct (analyze_body E path progress w) as [[r | e | g] w1] eqn:Hb.
  - right. exists r, w1. split; [reflexivity |]. right.
    unfold analyze_body, bind in Hb.
    destruct (load_image E path progress w) as [[img | e | g] w2];
      [| discriminate | discriminate].
    destruct (call_model E img w2) as [[reply | e | g] w3];
      [| discriminate | discriminate].
    destruct (extract_result E progress reply w3 r w1 Hb)
      as [t [d [d' [_ [Hj [Hs Hr]]]]]].
    eauto 6.
  - right. unfold on_failure, bind, lift_io, log, ret. simpl. eauto.
  - left. eauto.
Qed.

(** The way through [analyze] when the image loads, the model answers
    the first request, the answer decodes to an object and nothing
    raises. *)
Lemma analyze_run (E : Env) path progress w img reply t d d' :
  quiet progress ->
  (forall w', image_open E w' path = Ok img) ->
  (forall w', generate_content E w' (model (agent w)) img = Ok reply) ->
  text reply = Ok t ->
  json_loads E (strip (unfence (strip t))) = Ok (PyDict d) ->
  sanitize_amount d = Ok d' ->
  exists w', analyze E path progress w = (Ok (ensure_confidence d'), w').
Proof.
  intros Hq Himg Hgen Ht Hj Hs.
  destruct (load_image_run E path progress img w Hq Himg)
    as [w1 [Hl [Ha _]]].
  assert (Hc : call_model E img w1 = (Ok reply, after_submit w1)).
  { apply call_model_primary_ok. rewrite Ha. apply Hgen. }
  destruct (extract_run E progress reply t d d' (after_submit w1)
              Hq Ht Hj Hs) as [w' He].
  exists w'. apply analyze_of_body_ok.
  unfold analyze_body, bind. now rewrite Hl, Hc.
Qed.

(** ** Stripping and the fence *)

Lemma lstrip_fixed (c : N) (s : str) :
  isspace c = false -> lstrip (c :: s) = c :: s.
Proof. intros H. simpl. now rewrite H. Qed.

Lemma lstrip_idem (s : str) : lstrip (lstrip s) = lstrip s.
Proof.
  induction s as [| c s IH]; [reflexivity |].
  simpl. destruct (isspace c) eqn:Hc; [exact IH |].
  now apply lstrip_fixed.
Qed.

Lemma lstrip_head (s : str) :
  lstrip s = [] \/ exists c r, lstrip s = c :: r /\ isspace c = false.
Proof.
  induction s as [| c s IH]; [now left |].
  simpl. destruct (isspace c) eqn:Hc; [exact IH |]. right. eauto.
Qed.

Lemma lstrip_snoc (l : str) (c : N) :
  isspace c = false -> lstrip (l ++ [c]) = lstrip l ++ [c].
Proof.
  intros Hc. induction l as [| a l IH]; simpl.
  - now rewrite Hc.
  - destruct (isspace a); [exact IH | reflexivity].
Qed.

Lemma rstrip_idem (s : str) : rstrip (rstrip s) = rstrip s.
Proof. unfold rstrip. now rewrite rev_involutive, lstrip_idem. Qed.

Lemma rstrip_keeps_head (c : N) (r : str) :
  isspace c = false -> rstrip (c :: r) = c :: rstrip r.
Proof.
  intros Hc. unfold rstrip. simpl rev.
  rewrite (lstrip_snoc _ c Hc), rev_app_distr. reflexivity.
Qed.

Lemma strip_idem (s : str) : strip (strip s) = strip s.
Proof.
  unfold strip.
  destruct (lstrip_head s) as [-> | [c [r [-> Hc]]]]; [reflexivity |].
  rewrite (rstrip_keeps_head c r Hc), (lstrip_fixed c _ Hc).
  rewrite <- (rstrip_keeps_head c r Hc). apply rstrip_idem.
Qed.

Lemma startswith_app (p s : str) : startswith (p ++ s) p = true.
Proof.
  induction p as [| a p IH]; simpl; [now destruct s |].
  now rewrite N.eqb_refl.
Qed.

Lemma startswith_head (s p : str) (a b : N) :
  startswith s [a] = true -> a <> b -> startswith s (b :: p) = false.
Proof.
  destruct s as [| c s]; simpl; [discriminate |].
  intros H Hne. apply andb_true_iff in H. destruct H as [H _].
  apply N.eqb_eq in H. subst c.
  destruct (N.eqb_spec b a); [congruence | reflexivity].
Qed.

(** A text in braces carries no fence. *)
Lemma unfence_braces (s : str) :
  startswith s (u "{") = true ->
  endswith s (u "}") = true ->
  unfence s = s.
Proof.
  intros Hs He. unfold unfence.
  assert (H1 : startswith s (u "```json") = false).
  { apply (startswith_head s _ 123%N 96%N); [exact Hs | discriminate]. }
  rewrite H1.
  assert (H2 : endswith s (u "```") = false).
  { unfold endswith in *.
    apply (startswith_head (rev s) _ 125%N 96%N); [exact He | discriminate]. }
  now rewrite H2.
Qed.

(** The fence comes off a fenced body. *)
Lemma unfence_fenced (body : str) : unfence (fenced body) = body.
Proof.
  unfold unfence, fenced.
  rewrite startswith_app.
  change (slice_from 7 (u "```json" ++ body ++ u "```"))
    with (body ++ u "```").
  assert (H : endswith (body ++ u "```") (u "```") = true).
  { unfold endswith. rewrite rev_app_distr. apply startswith_app. }
  rewrite H. unfold slice_drop_last.
  rewrite length_app. simpl List.length.
  rewrite Nat.add_sub, firstn_app, Nat.sub_diag, firstn_all. simpl.
  apply app_nil_r.
Qed.

Lemma sanitize_amount_readable (d : dict) :
  amount_readable d ->
  exists d',
    sanitize_amount d = Ok d'
    /\ (forall k, k <> u "total_amount" -> dict_get d' k = dict_get d k)
    /\ match dict_get d (u "total_amount") with
       | Some (PyStr s) =>
           dict_get d' (u "total_amount") = Some (PyFloat (amount_value s))
       | other => dict_get d' (u "total_amount") = other
       end.
Proof.
  intros Hr. unfold amount_readable in Hr.
  unfold sanitize_amount, dict_get_default, amount_value, float_of_str.
  destruct (dict_get d (u "total_amount")) as [[] |] eqn:Hg;
    try (exists d; repeat split; auto; fail).
  destruct (Hr s eq_refl) as [Hc | [f Hf]].
  - rewrite Hc. eexists. split; [reflexivity |]. split.
    + intros k Hk. apply dict_get_set_other. congruence.
    + apply dict_get_set_same.
  - destruct (clean_amount s) as [| c rest].
    + eexists. split; [reflexivity |]. split.
      * intros k Hk. apply dict_get_set_other. congruence.
      * apply dict_get_set_same.
    + rewrite Hf. eexists. split; [reflexivity |]. split.
      * intros k Hk. apply dict_get_set_other. congruence.
      * apply dict_get_set_same.
Qed.

(** ** The returned record *)

(** C5, as the code has it.  [analyze] returns the default record,
    whose amount is 0.0, or the sanitized decoding of a reply; in the
    latter, an amount that came as a string is returned as a float that
    is not negative (a minus sign goes with every other character that
    is no digit and no point), and an amount of any other kind, a
    negative number included, is returned as it came.  No record is
    returned only when an exception that is no instance of [Exception]
    went through the call. *)
Theorem returned_amount (E : Env) (image_path : str)
    (progress : option Progress) (w : World) :
  ((exists g w', analyze E image_path progress w = (Escape g, w'))
   \/ exists r w',
        analyze E image_path progress w = (Ok r, w')
        /\ (r = default_result
            \/ exists t d,
                 json_loads E t = Ok (PyDict d)
                 /\ match dict_get d (u "total_amount") with
                    | Some (PyStr s) =>
                        dict_get r (u "total_amount")
                        = Some (PyFloat (amount_value s))
                        /\ nonneg (amount_value s) = true
                    | other => dict_get r (u "total_amount") = other
                    end))
  /\ dict_get default_result (u "total_amount") = Some (PyFloat fzero)
  /\ nonneg fzero = true
  /\ amount_value (u "-1,500") = f1500.
Proof.
  split; [| repeat split; vm_compute; reflexivity].
  destruct (analyze_result E image_path progress w)
    as [Hesc | [r [w' [Hrun [Hr | [t [d [d' [Hj [Hs Hr]]]]]]]]]];
    [left; exact Hesc | right.. ];
    exists r, w'; (split; [exact Hrun |]); [now left | right].
  exists t, d. split; [exact Hj |].
  pose proof (sanitize_amount_result d d' Hs) as Hres.
  assert (Hne : u "total_amount" <> u "confidence") by discriminate.
  rewrite Hr, (ensure_confidence_other d' _ Hne).
  destruct (dict_get d (u "total_amount")) as [[] |] eqn:Hg;
    try (subst d'; exact Hg).
  destruct Hres as [-> _]. split.
  - apply dict_get_set_same.
  - apply amount_value_nonneg.
Qed.

(** C5 as stated fails: a negative number in the reply is returned as
    it came. *)
Lemma negative_amount_is_returned :
  let E :=
    Scenario.env (Scenario.always (Scenario.answers negative_amount_reply)) in
  exists r,
    fst (analyze E (u "receipt.png") None Scenario.start) = Ok r
    /\ dict_get r (u "total_amount") = Some (PyInt (-5))
    /\ (-5 < 0)%Z.
Proof.
  eexists. split; [vm_compute; reflexivity |].
  split; [vm_compute; reflexivity | lia].
Qed.

(** C1: a reply that leaves fields out.  On the way where nothing
    raises, every field the decoded reply lacks, other than the
    confidence, is lacking in the returned record too. *)
Theorem analyze_keeps_missing_fields (E : Env) (image_path : str)
    (progress : option Progress) (w : World) (img : image)
    (reply : response) (t : str) (d : dict) (field : str) :
  quiet progress ->
  (forall w', image_open E w' image_path = Ok img) ->
  (forall w', generate_content E w' (model (agent w)) img = Ok reply) ->
  text reply = Ok t ->
  json_loads E (strip (unfence (strip t))) = Ok (PyDict d) ->
  amount_readable d ->
  field <> u "confidence" ->
  dict_get d field = None ->
  exists r w',
    analyze E image_path progress w = (Ok r, w')
    /\ dict_get r field = None.
Proof.
  intros Hq Himg Hgen Ht Hj Hread Hf Hmiss.
  destruct (sanitize_amount_readable d Hread) as [d' [Hs [Hother Hamount]]].
  destruct (analyze_run E image_path progress w img reply t d d'
              Hq Himg Hgen Ht Hj Hs) as [w' Hrun].
  exists (ensure_confidence d'), w'. split; [exact Hrun |].
  rewrite (ensure_confidence_other d' field Hf).
  destruct (list_eq_dec N.eq_dec field (u "total_amount")) as [-> | Hne].
  - rewrite Hmiss in Hamount. exact Hamount.
  - rewrite (Hother field Hne). exact Hmiss.
Qed.

Lemma analyze_keeps_missing_fields_witness :
  let E := Scenario.env (Scenario.always (Scenario.answers partial_reply)) in
  fst (analyze E (u "receipt.png") None Scenario.start)
  = Ok [ (u "merchant_name", PyStr (u "Acme Store"));
         (u "confidence", PyInt 85) ]
  /\ exists r w',
       analyze E (u "receipt.png") None Scenario.start = (Ok r, w')
       /\ dict_get r (u "total_amount") = None.
Proof.
  intros E. split; [vm_compute; reflexivity |].
  apply (analyze_keeps_missing_fields E (u "receipt.png") None Scenario.start
           O {| text := Ok partial_reply |} partial_reply
           [ (u "merchant_name", PyStr (u "Acme Store")) ]
           (u "total_amount")).
  - exact I.
  - reflexivity.
  - reflexivity.
  - reflexivity.
  - vm_compute. reflexivity.
  - intros s Hs. vm_compute in Hs. discriminate Hs.
  - discriminate.
  - vm_compute. reflexivity.
Defined.

Lemma contains_confidence (d : dict) :
  has_required_fields d = true -> dict_contains d (u "confidence") = true.
Proof.
  unfold has_required_fields, required_fields. simpl forallb.
  intros H. repeat (apply andb_true_iff in H; destruct H as [? H]).
  assumption.
Qed.

Lemma ensure_confidence_present (d : dict) :
  dict_contains d (u "confidence") = true -> ensure_confidence d = d.
Proof. intros H. unfold ensure_confidence. now rewrite H. Qed.

(** C3, as the code has it.  Round trip.  When the reply is an object
    in braces, bare or inside the fence that opens with three backticks
    and json and closes with three backticks, when it holds the eight
    fields, when a string amount is readable (cleaned of every
    character that is no digit and no point, it is empty or a decimal
    literal), and when the progress collaborator does not raise, the
    returned record has the decoded value under every field but
    [total_amount], and there the decoded value too unless it was a
    string, in which case it has the float read from the cleaned text,
    0.0 for an empty one. *)
Theorem analyze_roundtrip (E : Env) (image_path : str)
    (progress : option Progress) (w : World) (img : image)
    (reply : response) (t body : str) (d : dict) :
  quiet progress ->
  (forall w', image_open E w' image_path = Ok img) ->
  (forall w', generate_content E w' (model (agent w)) img = Ok reply) ->
  text reply = Ok t ->
  (t = body
   /\ startswith (strip body) (u "{") = true
   /\ endswith (strip body) (u "}") = true)
  \/ strip t = fenced body ->
  json_loads E (strip body) = Ok (PyDict d) ->
  has_required_fields d = true ->
  amount_readable d ->
  (exists r w',
      analyze E image_path progress w = (Ok r, w')
      /\ (forall k, k <> u "total_amount" -> dict_get r k = dict_get d k)
      /\ match dict_get d (u "total_amount") with
         | Some (PyStr s) =>
             dict_get r (u "total_amount") = Some (PyFloat (amount_value s))
         | other => dict_get r (u "total_amount") = other
         end)
  /\ amount_value (u "1,500") = f1500
  /\ amount_value (8358%N :: u "1,500.75") = f1500_75
  /\ amount_value (u "N/A") = fzero.
Proof.
  intros Hq Himg Hgen Ht Hshape Hj Hfields Hread.
  split; [| repeat split; vm_compute; reflexivity].
  assert (Hj' : json_loads E (strip (unfence (strip t))) = Ok (PyDict d)).
  { destruct Hshape as [[-> [Hs He]] | Hf].
    - now rewrite (unfence_braces _ Hs He), strip_idem.
    - now rewrite Hf, unfence_fenced. }
  destruct (sanitize_amount_readable d Hread) as [d' [Hs [Hother Hamount]]].
  destruct (analyze_run E image_path progress w img reply t d d'
              Hq Himg Hgen Ht Hj' Hs) as [w' Hrun].
  assert (Hc : dict_contains d' (u "confidence") = true).
  { unfold dict_contains. rewrite Hother by discriminate.
    exact (contains_confidence d Hfields). }
  rewrite (ensure_confidence_present d' Hc) in Hrun.
  exists d', w'. auto.
Qed.

Lemma analyze_roundtrip_witness :
  let body := [10%N] ++ naira_amount_reply ++ [10%N] in
  let E :=
    Scenario.env (Scenario.always (Scenario.answers (fenced body))) in
  exists r w',
    analyze E (u "receipt.png") (Some (as_progress E Scenario.emitter))
            Scenario.start = (Ok r, w')
    /\ dict_get r (u "merchant_name") = Some (PyStr (u "Acme Store"))
    /\ dict_get r (u "visual_anomalies")
       = Some (PyList [PyStr (u "font mismatch")])
    /\ dict_get r (u "total_amount") = Some (PyFloat f1500_75).
Proof.
  intros body E.
  destruct (Scenario.decode (strip body)) as [[] | e | g] eqn:Hd;
    try (vm_compute in Hd; discriminate Hd).
  destruct (analyze_roundtrip E (u "receipt.png")
              (Some (as_progress E Scenario.emitter)) Scenario.start O
              {| text := Ok (fenced body) |} (fenced body) body items)
    as [[r [w' [Hrun [Hother Hamount]]]] _].
  - apply as_progress_quiet, scenario_uninterrupted.
  - reflexivity.
  - reflexivity.
  - reflexivity.
  - right. vm_compute. reflexivity.
  - exact Hd.
  - vm_compute in Hd. injection Hd as <-. vm_compute. reflexivity.
  - vm_compute in Hd. injection Hd as <-. intros s Hs.
    vm_compute in Hs. injection Hs as <-.
    right. exists f1500_75. vm_compute. reflexivity.
  - exists r, w'. split; [exact Hrun |].
    vm_compute in Hd. injection Hd as <-.
    split; [rewrite Hother by discriminate; vm_compute; reflexivity |].
    split; [rewrite Hother by discriminate; vm_compute; reflexivity |].
    exact Hamount.
Defined.

(** C3 as stated fails: a well-formed reply with the eight fields whose
    amount is written with points between the thousands is answered
    with the default record. *)
Lemma roundtrip_fails_on_dotted_amount :
  let E :=
    Scenario.env (Scenario.always (Scenario.answers dotted_amount_reply)) in
  exists d,
    json_loads E dotted_amount_reply = Ok (PyDict d)
    /\ has_required_fields d = true
    /\ dict_get d (u "merchant_name") = Some (PyStr (u "Toko Maju"))
    /\ dict_get d (u "total_amount") = Some (PyStr (u "1.500.000"))
    /\ fst (analyze E (u "receipt.png") None Scenario.start)
       = Ok default_result
    /\ dict_get default_result (u "merchant_name")
       = Some (PyStr (u "Unknown Merchant")).
Proof.
  eexists. split; [vm_compute; reflexivity |].
  repeat split; vm_compute; reflexivity.
Qed.

(** ** NumPy floats in the details *)

Lemma dict_set_fresh (d : dict) (k : str) (v : pyvalue) :
  dict_get d k = None -> dict_set d k v = d ++ [(k, v)].
Proof.
  induction d as [| [k' v'] d IH]; simpl; [reflexivity |].
  destruct (str_eqb k' k); [discriminate |].
  intros H. now rewrite IH.
Qed.

Lemma json_dumps_deep (E : Env) (o : pyvalue) :
  3 <= recursion_limit E ->
  exists n, json_dumps E o = iterencode E (S (S (S n))) o.
Proof.
  intros H. unfold json_dumps.
  destruct (recursion_limit E) as [| [| [| n]]]; try lia. eauto.
Qed.

(** C6: where the code departs from it.  A NaN of type [np.float64] is
    a [float] for the encoder, which writes it as NaN without asking
    [default]; so is an infinity, and so is a NaN that [tolist] brings
    out of an array.  Only a NaN of another NumPy float type becomes
    0.0.  A list holding an [np.float64] NaN in the details is
    therefore stored as the text [[NaN]]. *)
Theorem nan_float64_is_written_as_NaN (E : Env) (self : ProgressEmitter)
    (agent stage message : pyvalue) (p : Z) (key : str)
    (evs : list event) :
  3 <= recursion_limit E ->
  json_dumps E (PyList [NpFloat64 S754_nan]) = Ok (u "[NaN]")
  /\ json_dumps E (PyList [NpFloat64 (S754_infinity false)])
     = Ok (u "[Infinity]")
  /\ json_dumps E (NpArray (PyList [PyFloat S754_nan])) = Ok (u "[NaN]")
  /\ json_dumps E (PyList [NpFloating S754_nan])
     = Ok (u "[" ++ float_repr E fzero ++ u "]")
  /\ exists tail,
       snd (emit E self agent stage message (PyInt p)
                 (PyDict [ (key, PyList [NpFloat64 S754_nan]) ]) evs)
       = evs
           ++ StoreUpdate (receipt_id self)
                (base_fields E agent stage message p evs
                   ++ [ (detail_key key, PyStr (u "[NaN]")) ])
           :: tail.
Proof.
  intros Hdepth.
  assert (H1 : json_dumps E (PyList [NpFloat64 S754_nan]) = Ok (u "[NaN]")).
  { destruct (json_dumps_deep E (PyList [NpFloat64 S754_nan]) Hdepth)
      as [n ->]. reflexivity. }
  split; [exact H1 |].
  split.
  { destruct (json_dumps_deep E (PyList [NpFloat64 (S754_infinity false)])
                Hdepth) as [n ->]. reflexivity. }
  split.
  { destruct (json_dumps_deep E (NpArray (PyList [PyFloat S754_nan])) Hdepth)
      as [n ->]. reflexivity. }
  split.
  { destruct (json_dumps_deep E (PyList [NpFloating S754_nan]) Hdepth)
      as [n ->]. reflexivity. }
  unfold emit, try_except, emit_body, bind, lift_result, utcnow,
    progress_ref_update, log.
  simpl py_int. simpl py_truth. cbv iota beta.
  fold (base_fields E agent stage message p evs).
  set (base := base_fields E agent stage message p evs).
  assert (Hd : flatten_details E [ (key, PyList [NpFloat64 S754_nan]) ]
                 base evs
               = (Ok (base ++ [ (detail_key key, PyStr (u "[NaN]")) ]), evs)).
  { simpl flatten_details.
    unfold bind, flatten_item, bind, lift_result, try_except.
    simpl is_skipped. simpl is_primitive. cbv iota beta.
    rewrite H1. unfold ret.
    rewrite dict_set_fresh by apply base_fields_no_detail. reflexivity. }
  rewrite Hd.
  destruct (store_update E evs (receipt_id self)
              (base ++ [ (detail_key key, PyStr (u "[NaN]")) ])) as [[] | e | g];
    simpl snd; rewrite <- ?app_assoc; simpl; eauto.
Qed.

Lemma nan_float64_is_written_as_NaN_witness :
  let E := Scenario.env (Scenario.always (Scenario.fails "unused")) in
  json_dumps E (PyList [NpFloat64 S754_nan]) = Ok (u "[NaN]")
  /\ json_dumps E (PyList [NpFloating S754_nan]) = Ok (u "[0.0]")
  /\ events_since []
       (snd (emit E Scenario.emitter (PyStr (u "forensic"))
                  (PyStr (u "scores")) (PyStr (u "scored")) (PyInt 60)
                  (PyDict [ (u "scores", PyList [NpFloat64 S754_nan]) ]) []))
     = [ StoreUpdate (u "receipt-1")
           (base_fields E (PyStr (u "forensic")) (PyStr (u "scores"))
                        (PyStr (u "scored")) 60 []
              ++ [ (u "progress_detail_scores", PyStr (u "[NaN]")) ]);
         Log INFO ([63743; 252; 236; 176]%N
                     ++ u " [receipt-1] forensic: scored (60%)") ].
Proof.
  intros E.
  assert (Hdepth : 3 <= recursion_limit E).
  { apply Nat.leb_le. vm_compute. reflexivity. }
  destruct (nan_float64_is_written_as_NaN E Scenario.emitter
              (PyStr (u "forensic")) (PyStr (u "scores"))
              (PyStr (u "scored")) 60 (u "scores") [] Hdepth)
    as [H1 [_ [_ [H4 _]]]].
  split; [exact H1 |].
  split; [exact H4 |].
  vm_compute. reflexivity.
Defined.

(** ** Ways into the handlers *)

(** A failing image loader ends in the default record. *)
Lemma analyze_default_of_image_failure (E : Env) path w e :
  (forall w', image_open E w' path = Raise e) ->
  fst (analyze E path None w) = Ok default_result.
Proof.
  intros Himg. unfold analyze, try_except, analyze_body, load_image, bind,
    emit_if, ret, lift_io, log, open_image.
  simpl. rewrite Himg. reflexivity.
Qed.

(** A raising progress collaborator ends in the default record. *)
Lemma analyze_default_of_emit_failure (E : Env) path w p e :
  (forall a s m pc d evs, emit_method p a s m pc d evs = (Raise e, evs)) ->
  fst (analyze E path (Some p) w) = Ok default_result.
Proof.
  intros Hemit. unfold analyze, try_except, analyze_body, load_image, bind,
    emit_if, lift_io.
  rewrite Hemit. reflexivity.
Qed.

(** A reply whose [text] raises, a text the decoder refuses, a decoded
    value that is no object, and an amount [float] refuses all end in
    the default record. *)
Lemma analyze_default_of_bad_reply (E : Env) path w img reply :
  (forall w', image_open E w' path = Ok img) ->
  (forall w', generate_content E w' (model (agent w)) img = Ok reply) ->
  match text reply with
  | Raise _ => True
  | Escape _ => False
  | Ok t =>
      match json_loads E (strip (unfence (strip t))) with
      | Raise _ => True
      | Escape _ => False
      | Ok (PyDict d) =>
          match sanitize_amount d with
          | Raise _ => True
          | _ => False
          end
      | Ok _ => True
      end
  end ->
  fst (analyze E path None w) = Ok default_result.
Proof.
  intros Himg Hgen Hbad.
  destruct (load_image_run E path None img w I Himg) as [w1 [Hl [Ha _]]].
  assert (Hc : call_model E img w1 = (Ok reply, after_submit w1)).
  { apply call_model_primary_ok. rewrite Ha. apply Hgen. }
  unfold analyze, try_except, analyze_body, bind. rewrite Hl, Hc.
  unfold extract, bind, lift_result.
  destruct (text reply) as [t | e | g]; [| reflexivity | destruct Hbad].
  destruct (json_loads E (strip (unfence (strip t)))) as [parsed | e | g];
    [| reflexivity | destruct Hbad].
  destruct parsed; simpl as_dict; try reflexivity.
  cbv iota beta.
  destruct (sanitize_amount items) as [d' | e | g];
    [destruct Hbad | reflexivity | destruct Hbad].
Qed.

(** A store that refuses the update is logged and swallowed. *)
Lemma emit_swallows_store_failure (E : Env) self a s m (p : Z) evs e :
  (forall evs' rid upd, store_update E evs' rid upd = Raise e) ->
  exists upd,
    emit E self a s m (PyInt p) PyNone evs
    = (Ok tt,
       evs ++ [ StoreUpdate (receipt_id self) upd;
                Log ERROR ([8218; 249; 229]%N
                             ++ u " Failed to emit progress for "
                             ++ receipt_id self ++ u ": " ++ exn_text e) ]).
Proof.
  intros Hstore.
  unfold emit, try_except, emit_body, bind, lift_result, utcnow,
    progress_ref_update, log, ret.
  simpl py_int. simpl py_truth. cbv iota beta.
  rewrite Hstore. rewrite <- app_assoc. simpl. eauto.
Qed.

(* ================================================================== *)
(** * Further facts *)
(* ================================================================== *)

(** ** The diagnostic script *)

Lemma classify_fold (models : list Diagnostic.Model) :
  forall vision text,
    fold_left Diagnostic.classify_step models (vision, text)
    = (vision
         ++ map Diagnostic.name
              (filter (fun m => Diagnostic.supports_generate m
                                && Diagnostic.looks_multimodal m) models),
       text
         ++ map Diagnostic.name
              (filter (fun m => Diagnostic.supports_generate m
                                && negb (Diagnostic.looks_multimodal m))
                      models)).
Proof.
  induction models as [| m rest IH]; intros vision text; simpl.
  - now rewrite !app_nil_r.
  - destruct (Diagnostic.supports_generate m),
      (Diagnostic.looks_multimodal m); simpl; rewrite IH;
      rewrite <- ?app_assoc; reflexivity.
Qed.

Lemma classify_filters (models : list Diagnostic.Model) :
  Diagnostic.classify models
  = (map Diagnostic.name
       (filter (fun m => Diagnostic.supports_generate m
                         && Diagnostic.looks_multimodal m) models),
     map Diagnostic.name
       (filter (fun m => Diagnostic.supports_generate m
                         && negb (Diagnostic.looks_multimodal m)) models)).
Proof. unfold Diagnostic.classify. now rewrite classify_fold. Qed.

(** X1. The loop of the script sorts the listed models without loss and
    without repeats: the first list has, in listing order, the names
    of the models that support generateContent and whose lower-cased
    name holds vision, pro or flash; the second has the names of the
    other models that support generateContent; a model that does not
    support it is in neither, so the two lists together are as long as
    the supporting models are many. *)
Theorem classify_partition (models : list Diagnostic.Model) :
  Diagnostic.classify models
  = (map Diagnostic.name
       (filter (fun m => Diagnostic.supports_generate m
                         && Diagnostic.looks_multimodal m) models),
     map Diagnostic.name
       (filter (fun m => Diagnostic.supports_generate m
                         && negb (Diagnostic.looks_multimodal m)) models))
  /\ List.length (fst (Diagnostic.classify models))
     + List.length (snd (Diagnostic.classify models))
     = List.length (filter Diagnostic.supports_generate models).
Proof.
  split; [apply classify_filters |].
  rewrite classify_filters. simpl. rewrite !length_map.
  induction models as [| m rest IH]; [reflexivity |].
  simpl. destruct (Diagnostic.supports_generate m),
    (Diagnostic.looks_multimodal m); simpl; lia.
Qed.

Lemma filter_head_find {A} (P : A -> bool) (l : list A) :
  match filter P l with
  | x :: _ => find P l = Some x
  | [] => find P l = None
  end.
Proof.
  induction l as [| a l IH]; simpl; [reflexivity |].
  destruct (P a); [reflexivity | exact IH].
Qed.

(** X2. What the script ends with.  Without a key, or with an empty
    one, it prints one line and exits with status 1.  With a key the
    status is 0 whatever the listing returns or raises as an instance
    of [Exception]: such an exception is printed, not raised; otherwise
    the model recommended is the first listed one that supports
    generateContent and whose name, in lower case, holds vision, pro or
    flash, and when there is none the script says that the key has no
    model access.  An exception of the listing that is no instance of
    [Exception] passes the handler: after the two lines already printed
    the script ends with the status the interpreter gives it. *)
Theorem script_outcome (api_key : option str)
    (list_models : result (list Diagnostic.Model)) :
  match api_key with
  | None | Some [] =>
      Diagnostic.script api_key list_models
      = ([ [10060%N] ++ u " GEMINI_API_KEY not found in environment" ], 1%Z)
  | Some (_ :: _) =>
      match list_models with
      | Raise e =>
          snd (Diagnostic.script api_key list_models) = 0%Z
          /\ In ([10060%N] ++ u " ERROR: " ++ exn_text e)
                (fst (Diagnostic.script api_key list_models))
      | Ok models =>
          snd (Diagnostic.script api_key list_models) = 0%Z
          /\ match
               find (fun m => Diagnostic.supports_generate m
                              && Diagnostic.looks_multimodal m) models
             with
             | Some m =>
                 In ([10; 9989]%N ++ u " RECOMMENDED MODEL TO USE: "
                       ++ Diagnostic.name m)
                    (fst (Diagnostic.script api_key list_models))
             | None =>
                 In ([10; 10060]%N ++ u " YOUR API KEY HAS NO MODEL ACCESS!")
                    (fst (Diagnostic.script api_key list_models))
             end
      | Escape g =>
          snd (Diagnostic.script api_key list_models) = uncaught_status g
          /\ List.length (fst (Diagnostic.script api_key list_models)) = 2
      end
  end.
Proof.
  destruct api_key as [[| c key] |]; try reflexivity.
  destruct list_models as [models | e | g].
  - split; [reflexivity |].
    unfold Diagnostic.script. cbn [fst].
    unfold Diagnostic.report. rewrite classify_filters.
    pose proof (filter_head_find
                  (fun m => Diagnostic.supports_generate m
                            && Diagnostic.looks_multimodal m) models) as Hf.
    destruct (filter (fun m => Diagnostic.supports_generate m
                               && Diagnostic.looks_multimodal m) models)
      as [| x rest]; rewrite Hf; cbn [map];
      repeat (apply in_or_app; right); left; reflexivity.
  - split; [reflexivity |]. simpl. right. right. left. reflexivity.
  - split; reflexivity.
Qed.

(** ** More on the returned record *)

Lemma ensure_confidence_has (d : dict) :
  dict_contains (ensure_confidence d) (u "confidence") = true.
Proof.
  unfold ensure_confidence.
  destruct (dict_contains d (u "confidence")) eqn:H; [exact H |].
  unfold dict_contains. now rewrite dict_get_set_same.
Qed.

(** X3. Whatever happens, the record [analyze] returns has a
    confidence: it is the one field the success path fills in.  No
    record is returned only when an exception that is no instance of
    [Exception] went through the call. *)
Theorem confidence_always_present (E : Env) (image_path : str)
    (progress : option Progress) (w : World) :
  (exists g w', analyze E image_path progress w = (Escape g, w'))
  \/ exists r w',
       analyze E image_path progress w = (Ok r, w')
       /\ dict_contains r (u "confidence") = true.
Proof.
  destruct (analyze_result E image_path progress w)
    as [Hesc | [r [w' [Hrun [-> | [t [d [d' [_ [_ ->]]]]]]]]]];
    [left; exact Hesc | right.. ];
    eexists; eexists; (split; [exact Hrun |]).
  - reflexivity.
  - apply ensure_confidence_has.
Qed.

(** X4. Sanitizing is idempotent: a record that came out of the
    sanitizer goes through it unchanged. *)
Theorem sanitize_amount_idempotent (d d' : dict) :
  sanitize_amount d = Ok d' -> sanitize_amount d' = Ok d'.
Proof.
  intros H. pose proof (sanitize_amount_result d d' H) as Hres.
  destruct (dict_get d (u "total_amount")) as [[] |] eqn:Hg;
    try (subst d'; exact H).
  destruct Hres as [-> _].
  unfold sanitize_amount, dict_get_default.
  now rewrite dict_get_set_same.
Qed.

Lemma sanitize_amount_idempotent_witness :
  sanitize_amount [ (u "total_amount", PyStr (u "1,500")) ]
  = Ok [ (u "total_amount", PyFloat f1500) ]
  /\ sanitize_amount [ (u "total_amount", PyFloat f1500) ]
     = Ok [ (u "total_amount", PyFloat f1500) ].
Proof.
  assert (H : sanitize_amount [ (u "total_amount", PyStr (u "1,500")) ]
              = Ok [ (u "total_amount", PyFloat f1500) ]).
  { vm_compute. reflexivity. }
  split; [exact H |].
  exact (sanitize_amount_idempotent _ _ H).
Defined.

Lemma script_sample_run :
  Diagnostic.classify sample_listing
  = ([ u "models/Gemini-2.5-Flash"; u "models/gemini-2.5-pro" ],
     [ u "models/chat-bison-001" ])
  /\ In ([10; 9989]%N ++ u " RECOMMENDED MODEL TO USE: models/Gemini-2.5-Flash")
        (fst (Diagnostic.script (Some (u "AIza-key")) (Ok sample_listing))).
Proof. split; vm_compute; tauto. Qed.

Lemma dict_set_keys_present (d : dict) (k : str) (v : pyvalue) :
  dict_get d k <> None -> map fst (dict_set d k v) = map fst d.
Proof.
  induction d as [| [k' v'] d IH]; simpl; [congruence |].
  destruct (str_eqb k' k) eqn:Hk; simpl.
  - intros _. apply str_eqb_eq in Hk. now subst k'.
  - intros H. now rewrite IH.
Qed.

Lemma sanitize_amount_keys (d d' : dict) :
  sanitize_amount d = Ok d' -> map fst d' = map fst d.
Proof.
  intros H. pose proof (sanitize_amount_result d d' H) as Hres.
  destruct (dict_get d (u "total_amount")) as [[] |] eqn:Hg;
    try (now subst d').
  destruct Hres as [-> _]. apply dict_set_keys_present. congruence.
Qed.

Lemma sanitize_amount_confidence (d d' : dict) :
  sanitize_amount d = Ok d' ->
  dict_get d' (u "confidence") = dict_get d (u "confidence").
Proof.
  intros H. pose proof (sanitize_amount_result d d' H) as Hres.
  destruct (dict_get d (u "total_amount")) as [[] |] eqn:Hg;
    try (now subst d').
  destruct Hres as [-> _]. apply dict_get_set_other. discriminate.
Qed.

(** X5. The confidence of a decoded reply.  On the way where nothing
    raises, the returned record has the confidence of the reply when
    the reply has one, whatever its value, and 85 when it has none. *)
Theorem confidence_defaulted_or_kept (E : Env) (image_path : str)
    (progress : option Progress) (w : World) (img : image)
    (reply : response) (t : str) (d : dict) :
  quiet progress ->
  (forall w', image_open E w' image_path = Ok img) ->
  (forall w', generate_content E w' (model (agent w)) img = Ok reply) ->
  text reply = Ok t ->
  json_loads E (strip (unfence (strip t))) = Ok (PyDict d) ->
  amount_readable d ->
  exists r w',
    analyze E image_path progress w = (Ok r, w')
    /\ dict_get r (u "confidence")
       = match dict_get d (u "confidence") with
         | Some c => Some c
         | None => Some (PyInt 85)
         end.
Proof.
  intros Hq Himg Hgen Ht Hj Hread.
  destruct (sanitize_amount_readable d Hread) as [d' [Hs _]].
  destruct (analyze_run E image_path progress w img reply t d d'
              Hq Himg Hgen Ht Hj Hs) as [w' Hrun].
  exists (ensure_confidence d'), w'. split; [exact Hrun |].
  rewrite <- (sanitize_amount_confidence d d' Hs).
  unfold ensure_confidence, dict_contains.
  destruct (dict_get d' (u "confidence")) eqn:Hc; [exact Hc |].
  apply dict_get_set_same.
Qed.

Lemma confidence_defaulted_or_kept_witness :
  let E := Scenario.env (Scenario.always (Scenario.answers partial_reply)) in
  exists r w',
    analyze E (u "receipt.png") None Scenario.start = (Ok r, w')
    /\ dict_get r (u "confidence") = Some (PyInt 85).
Proof.
  intros E.
  apply (confidence_defaulted_or_kept E (u "receipt.png") None Scenario.start
           O {| text := Ok partial_reply |} partial_reply
           [ (u "merchant_name", PyStr (u "Acme Store")) ]).
  - exact I.
  - reflexivity.
  - reflexivity.
  - reflexivity.
  - vm_compute. reflexivity.
  - intros s Hs. vm_compute in Hs. discriminate Hs.
Defined.

(** X6. The fields of the returned record.  On the way where nothing
    raises, the record has the keys of the decoded reply, in the order
    of the reply, and after them [confidence] when the reply had none:
    no other key is added, none is dropped. *)
Theorem returned_keys (E : Env) (image_path : str)
    (progress : option Progress) (w : World) (img : image)
    (reply : response) (t : str) (d : dict) :
  quiet progress ->
  (forall w', image_open E w' image_path = Ok img) ->
  (forall w', generate_content E w' (model (agent w)) img = Ok reply) ->
  text reply = Ok t ->
  json_loads E (strip (unfence (strip t))) = Ok (PyDict d) ->
  amount_readable d ->
  exists r w',
    analyze E image_path progress w = (Ok r, w')
    /\ map fst r
       = map fst d
           ++ (if dict_contains d (u "confidence") then []
               else [u "confidence"]).
Proof.
  intros Hq Himg Hgen Ht Hj Hread.
  destruct (sanitize_amount_readable d Hread) as [d' [Hs _]].
  destruct (analyze_run E image_path progress w img reply t d d'
              Hq Himg Hgen Ht Hj Hs) as [w' Hrun].
  exists (ensure_confidence d'), w'. split; [exact Hrun |].
  rewrite <- (sanitize_amount_keys d d' Hs).
  unfold ensure_confidence, dict_contains.
  rewrite <- (sanitize_amount_confidence d d' Hs).
  destruct (dict_get d' (u "confidence")) eqn:Hc.
  - now rewrite app_nil_r.
  - rewrite (dict_set_fresh d' _ _ Hc), map_app. reflexivity.
Qed.

Lemma returned_keys_witness :
  let E :=
    Scenario.env (Scenario.always (Scenario.answers naira_amount_reply)) in
  exists r w',
    analyze E (u "receipt.png") None Scenario.start = (Ok r, w')
    /\ map fst r = required_fields.
Proof.
  intros E.
  destruct (Scenario.decode (strip (unfence (strip naira_amount_reply))))
    as [[] | e | g] eqn:Hd; try (vm_compute in Hd; discriminate Hd).
  destruct (returned_keys E (u "receipt.png") None Scenario.start
              O {| text := Ok naira_amount_reply |} naira_amount_reply items)
    as [r [w' [Hrun Hkeys]]].
  - exact I.
  - reflexivity.
  - reflexivity.
  - reflexivity.
  - exact Hd.
  - vm_compute in Hd. injection Hd as <-. intros s Hs.
    vm_compute in Hs. injection Hs as <-.
    right. exists f1500_75. vm_compute. reflexivity.
  - exists r, w'. split; [exact Hrun |].
    rewrite Hkeys. vm_compute in Hd. injection Hd as <-.
    vm_compute. reflexivity.
Defined.

(** ** A fence without the tag *)

Lemma strip_keeps_backtick (r : str) :
  startswith (strip (96%N :: r)) [96%N] = true.
Proof.
  unfold strip. rewrite lstrip_fixed by reflexivity.
  rewrite rstrip_keeps_head by reflexivity.
  destruct (rstrip r); reflexivity.
Qed.

(** Of a text that opens with three backticks and no [json], what goes
    to the decoder is empty or opens with a backtick. *)
Lemma unfence_plain_fence (s : str) :
  startswith s (u "```") = true ->
  startswith s (u "```json") = false ->
  strip (unfence s) = [] \/ startswith (strip (unfence s)) [96%N] = true.
Proof.
  intros H3 Hj. unfold unfence. rewrite Hj.
  destruct s as [| a s]; [discriminate H3 |].
  change ((96 =? a)%N && startswith s [96; 96]%N = true) in H3.
  apply andb_true_iff in H3. destruct H3 as [Ha H3].
  destruct s as [| b s]; [discriminate H3 |].
  change ((96 =? b)%N && startswith s [96%N] = true) in H3.
  apply andb_true_iff in H3. destruct H3 as [Hb H3].
  destruct s as [| c r]; [discriminate H3 |].
  change ((96 =? c)%N && startswith r [] = true) in H3.
  apply andb_true_iff in H3. destruct H3 as [Hc _].
  apply N.eqb_eq in Ha, Hb, Hc. subst a b c.
  destruct (endswith (96%N :: 96%N :: 96%N :: r) (u "```")).
  - unfold slice_drop_last. simpl List.length.
    replace (S (S (S (List.length r))) - 3) with (List.length r) by lia.
    destruct r as [| x r']; [now left |].
    right. simpl firstn. apply strip_keeps_backtick.
  - right. apply strip_keeps_backtick.
Qed.

(** X7. A reply inside a fence that opens with three backticks without
    the [json] tag is lost: only the closing fence is taken off, the
    decoder, which refuses a text that is empty or opens with a
    backtick, raises, and [analyze] returns the default record.  The
    one way past the default record is an exception that is no
    instance of [Exception] and ends the first progress event or the
    loading of the image. *)
Theorem plain_fence_is_rejected (E : Env) (image_path : str)
    (progress : option Progress) (w : World) (reply : response) (t : str) :
  (forall s, s = [] \/ startswith s [96%N] = true ->
             exists e, json_loads E s = Raise e) ->
  (forall w' m img, generate_content E w' m img = Ok reply) ->
  text reply = Ok t ->
  startswith (strip t) (u "```") = true ->
  startswith (strip t) (u "```json") = false ->
  match load_image E image_path progress w with
  | (Escape g, _) => fst (analyze E image_path progress w) = Escape g
  | _ => fst (analyze E image_path progress w) = Ok default_result
  end.
Proof.
  intros Hrefuse Hgen Ht H3 Hj.
  unfold analyze, try_except, analyze_body, bind.
  destruct (load_image E image_path progress w) as [[img | e | g] w2];
    [| reflexivity | reflexivity].
  rewrite (call_model_primary_ok E img w2 reply (Hgen _ _ _)).
  unfold extract, bind, lift_result. rewrite Ht.
  destruct (Hrefuse _ (unfence_plain_fence (strip t) H3 Hj)) as [e He].
  rewrite He. reflexivity.
Qed.

Lemma scenario_decoder_refuses (s : str) :
  s = [] \/ startswith s [96%N] = true ->
  exists e, Scenario.decode s = Raise e.
Proof.
  intros [-> | H].
  - eexists. reflexivity.
  - destruct s as [| c r]; [discriminate |].
    change ((96 =? c)%N && startswith r [] = true) in H.
    apply andb_true_iff in H. destruct H as [H _].
    apply N.eqb_eq in H. subst c. eexists. reflexivity.
Qed.

Lemma plain_fence_is_rejected_witness :
  fst (analyze
         (Scenario.env (Scenario.always (Scenario.answers plain_fenced_reply)))
         (u "receipt.png") None Scenario.start)
  = Ok default_result.
Proof.
  refine (plain_fence_is_rejected
            (Scenario.env
               (Scenario.always (Scenario.answers plain_fenced_reply)))
            (u "receipt.png") None Scenario.start
            {| text := Ok plain_fenced_reply |} plain_fenced_reply
            scenario_decoder_refuses _ _ _ _).
  - reflexivity.
  - reflexivity.
  - vm_compute. reflexivity.
  - vm_compute. reflexivity.
Defined.

(** ** The class of an error *)

Lemma startswith_app_r (s p b : str) :
  startswith s p = true -> startswith (s ++ b) p = true.
Proof.
  revert s. induction p as [| a p IH]; intros s H; simpl.
  - now destruct (s ++ b).
  - destruct s as [| c s]; [discriminate |]. simpl in *.
    apply andb_true_iff in H. destruct H as [H1 H2].
    rewrite H1. now apply IH.
Qed.

Lemma contains_app_r (s p b : str) :
  contains s p = true -> contains (s ++ b) p = true.
Proof.
  induction s as [| c s IH]; intros H.
  - destruct p as [| a p]; [| discriminate H].
    destruct b; reflexivity.
  - change (contains (c :: s) p)
      with (startswith (c :: s) p || contains s p) in H.
    change (contains ((c :: s) ++ b) p)
      with (startswith ((c :: s) ++ b) p || contains (s ++ b) p).
    apply orb_true_iff in H. destruct H as [H | H].
    + rewrite (startswith_app_r (c :: s) p b H). reflexivity.
    + rewrite (IH H). apply orb_true_r.
Qed.

Lemma contains_app_l (a s p : str) :
  contains s p = true -> contains (a ++ s) p = true.
Proof.
  intros H. induction a as [| c a IH]; [exact H |].
  change (contains ((c :: a) ++ s) p)
    with (startswith ((c :: a) ++ s) p || contains (a ++ s) p).
  rewrite IH. apply orb_true_r.
Qed.

Lemma startswith_prefix (s p : str) :
  startswith s p = true <-> exists b, s = p ++ b.
Proof.
  revert s. induction p as [| a p IH]; intros s.
  - split; [intros _; exists s; reflexivity | intros _; now destruct s].
  - destruct s as [| c s].
    + split; [discriminate | intros [b Hb]; discriminate Hb].
    + change (startswith (c :: s) (a :: p))
        with ((a =? c)%N && startswith s p).
      rewrite andb_true_iff, N.eqb_eq, IH. split.
      * intros [-> [b ->]]. exists b. reflexivity.
      * intros [b Hb]. injection Hb as -> ->. split; [reflexivity | eauto].
Qed.

Lemma contains_of_startswith (s p : str) :
  startswith s p = true -> contains s p = true.
Proof.
  intros H. destruct s as [| c s].
  - change (contains [] p) with (startswith [] p || false).
    now rewrite H.
  - change (contains (c :: s) p)
      with (startswith (c :: s) p || contains s p).
    now rewrite H.
Qed.

(** [p in s] holds exactly when [p] stands somewhere in [s]. *)
Lemma contains_infix (s p : str) :
  contains s p = true <-> exists a b, s = a ++ p ++ b.
Proof.
  split.
  - induction s as [| c s IH]; intros H.
    + destruct p; [exists [], []; reflexivity | discriminate H].
    + change (contains (c :: s) p)
        with (startswith (c :: s) p || contains s p) in H.
      apply orb_true_iff in H. destruct H as [H | H].
      * apply startswith_prefix in H. destruct H as [b Hb].
        exists [], b. exact Hb.
      * destruct (IH H) as [a [b ->]]. exists (c :: a), b. reflexivity.
  - intros [a [b ->]]. apply contains_app_l, contains_of_startswith.
    apply startswith_prefix. eauto.
Qed.

Lemma lower_infix (s p : str) :
  contains (lower s) p = true <->
  exists before marker after,
    s = before ++ marker ++ after /\ lower marker = p.
Proof.
  rewrite contains_infix. unfold lower. split.
  - intros [a [b H]]. apply map_eq_app in H.
    destruct H as [a' [r [-> [Ha Hr]]]].
    apply map_eq_app in Hr. destruct Hr as [m' [b' [-> [Hm Hb]]]].
    exists a', m', b'. auto.
  - intros [a [m [b [-> Hm]]]].
    exists (map lower_char a), (map lower_char b).
    now rewrite !map_app, Hm.
Qed.

(** The test of line 70, by what the text of the error holds. *)
Lemma is_not_found_text (kind : exn_class) (msg : str) :
  is_not_found (Exn kind msg) = true <->
  (exists before after, msg = before ++ u "404" ++ after)
  \/ (exists before marker after,
         msg = before ++ marker ++ after /\ lower marker = u "not found").
Proof.
  unfold is_not_found. simpl exn_text.
  rewrite orb_true_iff, contains_infix, lower_infix. reflexivity.
Qed.

(** X8. The fallback is decided by the text of the error alone.  When
    the first request raises an instance of [Exception], of whatever
    class, a second request goes to the secondary model exactly when
    the text of the error holds 404 somewhere or, in any letter case,
    the words not found; with any other text the first request is the
    only one. *)
Theorem fallback_reads_error_text (E : Env) (img : image) (w : World)
    (kind : exn_class) (msg : str) :
  generate_content E w (model (agent w)) img = Raise (Exn kind msg) ->
  (((exists before after, msg = before ++ u "404" ++ after)
    \/ (exists before marker after,
           msg = before ++ marker ++ after /\ lower marker = u "not found"))
   <-> requests_since w (snd (call_model E img w))
       = [model (agent w); secondary_model])
  /\ (requests_since w (snd (call_model E img w)) = [model (agent w)]
      \/ requests_since w (snd (call_model E img w))
         = [model (agent w); secondary_model]).
Proof.
  intros H1. rewrite <- (is_not_found_text kind msg).
  destruct (is_not_found (Exn kind msg)) eqn:Hnf.
  - assert (Hreq : requests_since w (snd (call_model E img w))
                   = [model (agent w); secondary_model]).
    { rewrite (call_model_retry E img w _ H1 Hnf).
      apply requests_since_app.
      destruct (generate_content E (at_retry w) secondary_model img);
        simpl; rewrite <- app_assoc; reflexivity. }
    split; [split; auto | right; exact Hreq].
  - assert (Hreq : requests_since w (snd (call_model E img w))
                   = [model (agent w)]).
    { rewrite (call_model_other_error E img w _ H1 Hnf).
      apply requests_since_app. reflexivity. }
    split; [| left; exact Hreq].
    rewrite Hreq. split; intros H; discriminate H.
Qed.

Lemma fallback_reads_error_text_witness :
  let E :=
    Scenario.env
      (Scenario.scripted
         [ Scenario.fails "HTTP error: Model Not Found (retry later)";
           Scenario.answers (u "{}") ]) in
  requests_since Scenario.start (snd (call_model E O Scenario.start))
  = [primary_model; secondary_model].
Proof.
  intros E.
  destruct (fallback_reads_error_text E O Scenario.start
              (OtherException (u "GoogleAPIError"))
              (u "HTTP error: Model Not Found (retry later)") eq_refl)
    as [[Hto _] _].
  apply Hto. right.
  exists (u "HTTP error: Model "), (u "Not Found"), (u " (retry later)").
  split; reflexivity.
Defined.

(** ** The instance and its requests, once more *)

Lemma call_model_keeps_name (E : Env) img w :
  model_name (agent (snd (call_model E img w))) = model_name (agent w).
Proof.
  destruct (generate_content E w (model (agent w)) img) as [reply | e | g]
    eqn:H1.
  - now rewrite (call_model_primary_ok E img w reply H1).
  - destruct (is_not_found e) eqn:Hnf.
    + rewrite (call_model_retry E img w e H1 Hnf).
      destruct (generate_content E (at_retry w) secondary_model img);
        reflexivity.
    + now rewrite (call_model_other_error E img w e H1 Hnf).
  - now rewrite (call_model_primary_escape E img w g H1).
Qed.

Lemma analyze_keeps_name (E : Env) path progress w :
  model_name (agent (snd (analyze E path progress w)))
  = model_name (agent w).
Proof.
  assert (Hh : forall e, frames (on_failure e)).
  { intros e. apply frames_bind; auto with frames. }
  unfold analyze, try_except, analyze_body, bind.
  destruct (frames_load_image E path progress w) as [Ha1 _].
  destruct (load_image E path progress w) as [[img | e | g] w1];
    simpl in Ha1.
  - pose proof (call_model_keeps_name E img w1) as Hn.
    destruct (call_model E img w1) as [[reply | e | g] w2]; simpl in Hn.
    + destruct (frames_extract E progress reply w2) as [Ha3 _].
      destruct (extract E progress reply w2) as [[d | e | g] w3];
        simpl in Ha3.
      * simpl. now rewrite Ha3, Hn, Ha1.
      * destruct (Hh e w3) as [Ha4 _]. now rewrite Ha4, Ha3, Hn, Ha1.
      * simpl. now rewrite Ha3, Hn, Ha1.
    + destruct (Hh e w2) as [Ha4 _]. now rewrite Ha4, Hn, Ha1.
    + simpl. now rewrite Hn, Ha1.
  - destruct (Hh e w1) as [Ha4 _]. now rewrite Ha4, Ha1.
  - simpl. now rewrite Ha1.
Qed.

(** X9. [model_name] is written by the constructor only: through any
    sequence of calls of [analyze] it stays what it was, also when the
    handle has been replaced by the fallback, so that the warning of a
    later fallback still names the model the instance began with. *)
Theorem model_name_is_never_updated (E : Env)
    (calls : list (str * option Progress)) (w : World) :
  model_name (agent (analyze_all E calls w)) = model_name (agent w).
Proof.
  revert w. induction calls as [| [path progress] rest IH]; intros w; simpl.
  - reflexivity.
  - rewrite IH. apply analyze_keeps_name.
Qed.

(** The requests of one call, by what became of the image. *)
Lemma analyze_requests_after_load (E : Env) path progress w :
  match load_image E path progress w with
  | (Ok _, _) =>
      exists l,
        submissions (snd (analyze E path progress w)) = submissions w ++ l
        /\ (l = [model (agent w)] \/ l = [model (agent w); secondary_model])
  | _ => submissions (snd (analyze E path progress w)) = submissions w
  end.
Proof.
  assert (Hh : forall e, frames (on_failure e)).
  { intros e. apply frames_bind; auto with frames. }
  unfold analyze, try_except, analyze_body, bind.
  destruct (frames_load_image E path progress w) as [Ha1 Hs1].
  destruct (load_image E path progress w) as [[img | e | g] w1];
    simpl in Ha1, Hs1.
  - destruct (call_model_effect E img w1) as [[Hs2 _] | [Hs2 _]];
      destruct (call_model E img w1) as [[reply | e | g] w2]; simpl in Hs2;
      try (destruct (frames_extract E progress reply w2) as [_ Hs3];
           destruct (extract E progress reply w2) as [[d | e | g] w3];
           simpl in Hs3);
      try (destruct (Hh e w3) as [_ Hs4]);
      try (destruct (Hh e w2) as [_ Hs4]);
      eexists; (split; [cbn [snd]; chase; reflexivity |]); auto.
  - destruct (Hh e w1) as [_ Hs4]. cbn [snd]. chase. reflexivity.
  - cbn [snd]. chase. reflexivity.
Qed.

(** X10. A call of [analyze] sends at most two requests; it sends none
    when the image could not be loaded (or the first progress event
    raised), and at least one otherwise. *)
Theorem analyze_request_count (E : Env) (image_path : str)
    (progress : option Progress) (w : World) :
  List.length (requests_since w (snd (analyze E image_path progress w))) <= 2
  /\ match load_image E image_path progress w with
     | (Ok _, _) =>
         1 <= List.length
                (requests_since w (snd (analyze E image_path progress w)))
     | _ => requests_since w (snd (analyze E image_path progress w)) = []
     end.
Proof.
  pose proof (analyze_requests_after_load E image_path progress w) as H.
  destruct (load_image E image_path progress w) as [[img | e | g] w1].
  - destruct H as [l [Hs Hl]]. rewrite (requests_since_app _ _ _ Hs).
    destruct Hl as [-> | ->]; simpl; lia.
  - assert (Hs : submissions (snd (analyze E image_path progress w))
                 = submissions w ++ []) by now rewrite app_nil_r.
    rewrite (requests_since_app _ _ _ Hs). simpl. split; [lia | reflexivity].
  - assert (Hs : submissions (snd (analyze E image_path progress w))
                 = submissions w ++ []) by now rewrite app_nil_r.
    rewrite (requests_since_app _ _ _ Hs). simpl. split; [lia | reflexivity].
Qed.

(** ** What a call writes *)

Lemma store_updates_app (a b : list event) :
  store_updates (a ++ b) = store_updates a ++ store_updates b.
Proof.
  induction a as [| [lv msg | rid upd] a IH]; simpl; [reflexivity | exact IH |].
  now rewrite IH.
Qed.

Lemma store_updates_logs (logs : list event) :
  Forall is_log logs -> store_updates logs = [].
Proof.
  induction 1 as [| ev logs Hev _ IH]; [reflexivity |].
  destruct ev; [exact IH | destruct Hev].
Qed.

Create HintDb logs.

Lemma logs_only_ret {A} (a : A) : logs_only (ret a).
Proof. intros w. exists []. rewrite app_nil_r. simpl. auto. Qed.

Lemma logs_only_raise {A} (e : exn) : logs_only (@raise World A e).
Proof. intros w. exists []. rewrite app_nil_r. simpl. auto. Qed.

Lemma logs_only_lift_result {A} (r : result A) : logs_only (lift_result r).
Proof. intros w. exists []. rewrite app_nil_r. simpl. auto. Qed.

Lemma logs_only_log (lv : level) (msg : str) : logs_only (lift_io (log lv msg)).
Proof.
  intros w. exists [Log lv msg]. simpl. split; [reflexivity |].
  repeat constructor.
Qed.

Lemma logs_only_bind {A B} (c : M World A) (k : A -> M World B) :
  logs_only c -> (forall a, logs_only (k a)) -> logs_only (bind c k).
Proof.
  intros Hc Hk w. unfold bind. destruct (Hc w) as [l1 [H1 F1]].
  destruct (c w) as [[a | e | g] w1]; simpl in H1.
  - destruct (Hk a w1) as [l2 [H2 F2]].
    exists (l1 ++ l2). rewrite H2, H1, app_assoc. split; [reflexivity |].
    apply Forall_app. auto.
  - exists l1. auto.
  - exists l1. auto.
Qed.

Lemma logs_only_try {A} (c : M World A) (h : exn -> M World A) :
  logs_only c -> (forall e, logs_only (h e)) -> logs_only (try_except c h).
Proof.
  intros Hc Hh w. unfold try_except. destruct (Hc w) as [l1 [H1 F1]].
  destruct (c w) as [[a | e | g] w1]; simpl in H1.
  - exists l1. auto.
  - destruct (Hh e w1) as [l2 [H2 F2]].
    exists (l1 ++ l2). rewrite H2, H1, app_assoc. split; [reflexivity |].
    apply Forall_app. auto.
  - exists l1. auto.
Qed.

Lemma logs_only_open_image (E : Env) path : logs_only (open_image E path).
Proof. intros w. exists []. rewrite app_nil_r. simpl. auto. Qed.

Lemma logs_only_submit (E : Env) img : logs_only (submit E img).
Proof. intros w. exists []. rewrite app_nil_r. simpl. auto. Qed.

Lemma logs_only_set_model (m : str) : logs_only (set_model m).
Proof. intros w. exists []. rewrite app_nil_r. simpl. auto. Qed.

Lemma logs_only_get_model_name : logs_only get_model_name.
Proof. intros w. exists []. rewrite app_nil_r. simpl. auto. Qed.

Lemma logs_only_emit_if_none a s m p d : logs_only (emit_if None a s m p d).
Proof. apply logs_only_ret. Qed.

#[local] Hint Resolve logs_only_ret logs_only_raise logs_only_lift_result
  logs_only_log logs_only_open_image logs_only_submit logs_only_set_model
  logs_only_get_model_name logs_only_emit_if_none : logs.

Ltac logs_only_steps :=
  repeat first
    [ apply logs_only_bind; [| intros ?]
    | apply logs_only_try; [| intros ?]
    | match goal with |- logs_only (if ?b then _ else _) => destruct b end
    | solve [auto with logs] ].

Lemma logs_only_call_model (E : Env) img : logs_only (call_model E img).
Proof. unfold call_model. logs_only_steps. Qed.

Lemma logs_only_analyze (E : Env) path : logs_only (analyze E path None).
Proof.
  unfold analyze, analyze_body, load_image, extract, on_failure.
  apply logs_only_try; [| intros ?; logs_only_steps].
  apply logs_only_bind; [logs_only_steps |]. intros img.
  apply logs_only_bind; [apply logs_only_call_model |]. intros reply.
  logs_only_steps.
Qed.

(** X11. Without a progress collaborator [analyze] writes nothing to
    the store: it leaves the earlier events as they are and appends log
    records only. *)
Theorem analyze_alone_only_logs (E : Env) (image_path : str) (w : World) :
  (exists logs,
      io (snd (analyze E image_path None w)) = io w ++ logs
      /\ Forall is_log logs)
  /\ store_updates (io (snd (analyze E image_path None w)))
     = store_updates (io w).
Proof.
  destruct (logs_only_analyze E image_path w) as [logs [H F]].
  split; [eauto |].
  rewrite H, store_updates_app, (store_updates_logs logs F).
  apply app_nil_r.
Qed.

(** ** The events of [emit] *)

Ltac store_tail known_logs :=
  unfold progress_ref_update, log, ret;
  match goal with
  | |- context [store_update ?E0 ?ev ?rid ?u0] =>
      destruct (store_update E0 ev rid u0) as [[] | ? | ?]
  end;
  cbn [snd];
  exists known_logs; eexists;
  (split; [rewrite <- ?app_assoc; cbn [app]; reflexivity |]);
  (split; [auto |]);
  right; right; do 3 eexists;
  (split; [reflexivity |]); (split; [reflexivity |]);
  (split; [reflexivity |]);
  cbv iota beta; try eassumption; auto.

(** Every run of [emit]: some log records of the loop over the
    details, and then nothing more (an exception that is no instance
    of [Exception] left the call before the store was reached), or the
    error record of the handler, or the update handed to the store,
    followed by nothing that is an update. *)
Lemma emit_trace (E : Env) self a s m p details evs :
  exists logs tail,
    snd (emit E self a s m p details evs) = evs ++ logs ++ tail
    /\ Forall is_log logs
    /\ (tail = []
        \/ (exists msg, tail = [Log ERROR msg])
        \/ exists pct upd rest,
             py_int E p = Ok pct
             /\ tail = StoreUpdate (receipt_id self) upd :: rest
             /\ store_updates rest = []
             /\ match py_truth E details with
                | Ok false => upd = base_fields E a s m pct evs /\ logs = []
                | Ok true =>
                    match details with
                    | PyDict items =>
                        flatten_details E items (base_fields E a s m pct evs)
                                        evs
                        = (Ok upd, evs ++ logs)
                    | _ =>
                        upd = dict_set (base_fields E a s m pct evs)
                                       (u "progress_detail_info")
                                       (PyStr (py_str E details))
                        /\ logs = []
                    end
                | _ => False
                end).
Proof.
  unfold emit, try_except, emit_body, bind, lift_result, utcnow.
  destruct (py_int E p) as [pct | e0 | g0].
  - fold (base_fields E a s m pct evs).
    set (base := base_fields E a s m pct evs).
    destruct (py_truth E details) as [[|] | e0 | g0] eqn:Ht.
    + destruct details; try (simpl in Ht; discriminate Ht);
        try (store_tail (@nil event); fail).
      destruct (flatten_details_logs E items base evs) as [logs [Hl Hf]].
      destruct (flatten_details E items base evs) as [[upd | e0 | g0] evs1]
        eqn:Hfl; simpl in Hl; subst evs1.
      * store_tail logs.
      * unfold log. cbn [snd]. exists logs. eexists.
        split; [rewrite <- ?app_assoc; reflexivity |]. split; eauto.
      * cbn [snd]. exists logs, []. rewrite app_nil_r. auto.
    + store_tail (@nil event).
    + unfold log. cbn [snd]. exists []. eexists.
      split; [reflexivity |]. split; eauto.
    + cbn [snd]. exists [], []. rewrite app_nil_r. auto.
  - unfold log. cbn [snd]. exists []. eexists.
    split; [reflexivity |]. split; eauto.
  - cbn [snd]. exists [], []. rewrite app_nil_r. auto.
Qed.

(** The loop touches detail fields only. *)
Lemma flatten_details_keeps_field (E : Env) items (f : str) :
  (forall k, In k (map fst items) -> f <> detail_key k) ->
  forall upd evs upd' evs',
    flatten_details E items upd evs = (Ok upd', evs') ->
    dict_get upd' f = dict_get upd f.
Proof.
  induction items as [| [k0 v0] rest IH]; intros Hf upd evs upd' evs' Hrun.
  - simpl in Hrun. now injection Hrun as <- _.
  - simpl in Hrun. unfold bind in Hrun.
    destruct (flatten_item E upd k0 v0 evs) as [[upd1 | e | g] evs1]
      eqn:Hitem; [| discriminate | discriminate].
    rewrite (IH (fun k Hk => Hf k (or_intror Hk)) upd1 evs1 upd' evs' Hrun).
    destruct (flatten_item_fields E upd k0 v0 evs _ _ Hitem)
      as [[_ ->] | [_ [x ->]]]; [reflexivity |].
    apply dict_get_set_other. intros Heq. apply (Hf k0); simpl; auto.
Qed.

Lemma base_name_not_detail (f k : str) :
  In f base_field_names -> f <> detail_key k.
Proof.
  unfold base_field_names, detail_key. simpl.
  intros H Heq. subst f.
  repeat (destruct H as [H | H]; [discriminate H |]). exact H.
Qed.

Lemma events_since_trace (evs logs tail : list event) :
  Forall is_log logs ->
  store_updates (events_since evs (evs ++ logs ++ tail)) = store_updates tail.
Proof.
  intros Hf. rewrite events_since_app, store_updates_app.
  now rewrite (store_updates_logs logs Hf).
Qed.

(** X12. The details cannot reach the base fields.  Every update
    [emit] hands to the store goes to the document of its own receipt
    and carries the six base fields with the values of the call,
    whatever the details hold: a detail is written under
    [progress_detail_<key>] and nowhere else. *)
Theorem emit_update_keeps_base_fields (E : Env) (self : ProgressEmitter)
    (agent stage message progress details : pyvalue) (evs : list event)
    (rid : str) (upd : dict) :
  In (rid, upd)
     (store_updates
        (events_since evs
           (snd (emit E self agent stage message progress details evs)))) ->
  rid = receipt_id self
  /\ exists pct,
       py_int E progress = Ok pct
       /\ forall f,
            In f base_field_names ->
            dict_get upd f
            = dict_get (base_fields E agent stage message pct evs) f.
Proof.
  destruct (emit_trace E self agent stage message progress details evs)
    as [logs [tail [-> [Hlogs Htail]]]].
  rewrite (events_since_trace evs logs tail Hlogs).
  destruct Htail
    as [-> | [[msg ->] | [pct [upd0 [rest [Hp [-> [Hrest Hupd]]]]]]]];
    [intros [] | intros [] |].
  simpl. rewrite Hrest. intros [Heq | []]. injection Heq as <- <-.
  split; [reflexivity |]. exists pct. split; [exact Hp |].
  intros f Hf.
  destruct (py_truth E details) as [[|] | e | g];
    [| | destruct Hupd | destruct Hupd].
  - destruct details;
      try (match type of Hupd with
           | _ /\ _ => destruct Hupd as [Hupd' _]
           end;
           rewrite Hupd'; apply dict_get_set_other;
           intros Heq; symmetry in Heq;
           exact (base_name_not_detail f (u "info") Hf Heq)).
    apply (flatten_details_keeps_field E items f
             (fun k _ => base_name_not_detail f k Hf) _ _ _ _ Hupd).
  - now destruct Hupd as [-> _].
Qed.

Lemma emit_update_keeps_base_fields_witness :
  let E := Scenario.env (Scenario.always (Scenario.fails "unused")) in
  let details := PyDict [ (u "agent", PyStr (u "intruder")) ] in
  exists upd,
    store_updates
      (snd (emit E Scenario.emitter (PyStr (u "vision")) (PyStr (u "s"))
                 (PyStr (u "m")) (PyInt 5) details []))
    = [ (u "receipt-1", upd) ]
    /\ dict_get upd (u "progress_agent") = Some (PyStr (u "vision"))
    /\ dict_get upd (u "progress_detail_agent")
       = Some (PyStr (u "intruder")).
Proof.
  intros E details.
  destruct (store_updates
              (snd (emit E Scenario.emitter (PyStr (u "vision"))
                         (PyStr (u "s")) (PyStr (u "m")) (PyInt 5)
                         details []))) as [| [rid upd] rest] eqn:Hrun;
    [vm_compute in Hrun; discriminate Hrun |].
  destruct (emit_update_keeps_base_fields E Scenario.emitter
              (PyStr (u "vision")) (PyStr (u "s")) (PyStr (u "m")) (PyInt 5)
              details [] rid upd) as [Hrid [pct [Hp Hbase]]].
  { unfold events_since. cbn [List.length skipn]. rewrite Hrun.
    left. reflexivity. }
  exists upd.
  vm_compute in Hp. injection Hp as <-.
  split.
  - vm_compute in Hrun. injection Hrun as <- <- <-. reflexivity.
  - split.
    + rewrite (Hbase (u "progress_agent")) by (simpl; auto). reflexivity.
    + vm_compute in Hrun. injection Hrun as _ <- _. reflexivity.
Defined.

(** X13. One call of [emit] hands at most one update to the store, to
    the document of its own receipt, and leaves the earlier events as
    they are. *)
Theorem emit_writes_at_most_once (E : Env) (self : ProgressEmitter)
    (agent stage message progress details : pyvalue) (evs : list event) :
  exists new,
    snd (emit E self agent stage message progress details evs) = evs ++ new
    /\ (store_updates new = []
        \/ exists upd, store_updates new = [ (receipt_id self, upd) ]).
Proof.
  destruct (emit_trace E self agent stage message progress details evs)
    as [logs [tail [-> [Hlogs Htail]]]].
  exists (logs ++ tail). split; [reflexivity |].
  rewrite store_updates_app, (store_updates_logs logs Hlogs).
  destruct Htail as [-> | [[msg ->] | [pct [upd [rest [_ [-> [Hrest _]]]]]]]];
    simpl; rewrite ?Hrest; eauto.
Qed.

(** X14. Details that are no mapping.  When [details] is not a dict,
    the update is the six base fields and, if [details] is truthy, one
    more field, [progress_detail_info], with the text of [details];
    falsy details (None, an empty string, zero) add nothing.  The
    update is followed by the record that tells of the outcome, unless
    the store ended with an exception that is no instance of
    [Exception], which leaves [emit] at once. *)
Theorem emit_non_mapping_details (E : Env) (self : ProgressEmitter)
    (agent stage message details : pyvalue) (pct : Z) (evs : list event)
    (truthy : bool) :
  (forall items, details <> PyDict items) ->
  py_truth E details = Ok truthy ->
  (exists lv msg,
      snd (emit E self agent stage message (PyInt pct) details evs)
      = evs
          ++ [ StoreUpdate (receipt_id self)
                 (if truthy
                  then base_fields E agent stage message pct evs
                         ++ [ (u "progress_detail_info",
                               PyStr (py_str E details)) ]
                  else base_fields E agent stage message pct evs);
               Log lv msg ])
  \/ ((exists g,
          fst (emit E self agent stage message (PyInt pct) details evs)
          = Escape g)
      /\ snd (emit E self agent stage message (PyInt pct) details evs)
         = evs
             ++ [ StoreUpdate (receipt_id self)
                    (if truthy
                     then base_fields E agent stage message pct evs
                            ++ [ (u "progress_detail_info",
                                  PyStr (py_str E details)) ]
                     else base_fields E agent stage message pct evs) ]).
Proof.
  intros Hnd Ht.
  unfold emit, try_except, emit_body, bind, lift_result, utcnow.
  simpl py_int. cbv iota beta.
  fold (base_fields E agent stage message pct evs).
  set (base := base_fields E agent stage message pct evs).
  rewrite Ht.
  assert (Hfresh : forall v,
             dict_set base (u "progress_detail_info") v
             = base ++ [ (u "progress_detail_info", v) ]).
  { intros v. apply dict_set_fresh.
    exact (base_fields_no_detail E agent stage message pct evs (u "info")). }
  destruct truthy.
  - destruct details; try (exfalso; eapply Hnd; reflexivity);
      rewrite Hfresh; unfold progress_ref_update, log, ret;
      match goal with
      | |- context [store_update ?E0 ?ev ?rid ?u0] =>
          destruct (store_update E0 ev rid u0) as [[] | ? | ?]
      end; cbn [fst snd]; rewrite <- ?app_assoc;
      first [ left; do 2 eexists; reflexivity
            | right; split; [eexists; reflexivity | reflexivity] ].
  - unfold progress_ref_update, log, ret.
    destruct (store_update E evs (receipt_id self) base) as [[] | ? | ?];
      cbn [fst snd]; rewrite <- ?app_assoc;
      first [ left; do 2 eexists; reflexivity
            | right; split; [eexists; reflexivity | reflexivity] ].
Qed.

Lemma emit_non_mapping_details_witness :
  let E := Scenario.env (Scenario.always (Scenario.fails "unused")) in
  exists lv msg,
    snd (emit E Scenario.emitter (PyStr (u "forensic")) (PyStr (u "failed"))
              (PyStr (u "Forensics failed")) (PyInt 40)
              (PyStr (u "cv2.error: bad image")) [])
    = [ StoreUpdate (u "receipt-1")
          (base_fields E (PyStr (u "forensic")) (PyStr (u "failed"))
                       (PyStr (u "Forensics failed")) 40 []
             ++ [ (u "progress_detail_info",
                   PyStr (u "cv2.error: bad image")) ]);
        Log lv msg ].
Proof.
  intros E.
  destruct (emit_non_mapping_details E Scenario.emitter
              (PyStr (u "forensic")) (PyStr (u "failed"))
              (PyStr (u "Forensics failed"))
              (PyStr (u "cv2.error: bad image")) 40 [] true)
    as [H | [[g Hg] _]].
  - intros items H. discriminate H.
  - reflexivity.
  - exact H.
  - vm_compute in Hg. discriminate Hg.
Defined.

(** ** Values that are neither skipped nor primitive *)

(** When the turn of a pair stores [x], the update of the whole loop
    has [x] under the field of the pair: with distinct keys, no later
    turn writes there. *)
Lemma flatten_details_value (E : Env) items (k : str) (v x : pyvalue) :
  NoDup (map fst items) ->
  In (k, v) items ->
  (forall upd0 evs0,
      exists evs1,
        flatten_item E upd0 k v evs0
        = (Ok (dict_set upd0 (detail_key k) x), evs1)) ->
  forall upd evs upd' evs',
    flatten_details E items upd evs = (Ok upd', evs') ->
    dict_get upd' (detail_key k) = Some x.
Proof.
  intros Hnd Hin Hturn.
  induction items as [| [k0 v0] rest IH]; intros upd evs upd' evs' Hrun;
    [destruct Hin |].
  simpl in Hrun. unfold bind in Hrun.
  destruct (flatten_item E upd k0 v0 evs) as [[upd1 | e | g] evs1]
    eqn:Hitem; [| discriminate | discriminate].
  inversion Hnd as [| ? ? Hnotin Hnd']; subst.
  destruct Hin as [Heq | Hin].
  - injection Heq as -> ->.
    rewrite (flatten_details_keeps_field E rest (detail_key k)) with
      (upd := upd1) (evs := evs1) (evs' := evs'); [| | exact Hrun].
    + destruct (Hturn upd evs) as [evs2 Ht]. rewrite Ht in Hitem.
      injection Hitem as <- _. apply dict_get_set_same.
    + intros k' Hk' Heq. apply detail_key_inj in Heq. now subst k'.
  - exact (IH Hnd' Hin upd1 evs1 upd' evs' Hrun).
Qed.




(** X16. A NumPy integer is not an [int] for [emit]: where a plain
    integer is stored as a number, an [np.integer] of the same value,
    once NumPy has told that it equals neither [{}] nor [[]], is stored
    as the JSON text of that number, a string. *)
Theorem numpy_integer_stored_as_text (E : Env) (self : ProgressEmitter)
    (agent stage message progress : pyvalue) (items : dict)
    (evs : list event) (rid : str) (upd : dict) (key : str) (n : Z) :
  2 <= recursion_limit E ->
  numpy_eq_truth E (NpInteger n) (PyDict []) = Ok false ->
  numpy_eq_truth E (NpInteger n) (PyList []) = Ok false ->
  NoDup (map fst items) ->
  In (StoreUpdate rid upd)
     (events_since evs
        (snd (emit E self agent stage message progress (PyDict items) evs))) ->
  In (key, NpInteger n) items ->
  dict_get upd (detail_key key) = Some (PyStr (int_repr n)).
Proof.
  intros Hdepth Hd Hl Hnd Hw Hin.
  destruct (emit_written E self agent stage message progress items evs
              rid upd Hw) as [pct [evs1 [_ Hrun]]].
  apply (flatten_details_value E items key (NpInteger n)
           (PyStr (int_repr n)) Hnd Hin)
    with (upd := base_fields E agent stage message pct evs)
         (evs := evs) (evs' := evs1); [| exact Hrun].
  intros upd0 evs0.
  assert (Hj : json_dumps E (NpInteger n) = Ok (int_repr n)).
  { unfold json_dumps.
    destruct (recursion_limit E) as [| [| d]]; try lia. reflexivity. }
  unfold flatten_item, bind, lift_result, try_except, is_skipped,
    eq_empty_dict, eq_empty_list.
  simpl is_numpy. cbv iota beta. rewrite Hd, Hl.
  simpl is_primitive. cbv iota beta. rewrite Hj.
  unfold ret. eexists. reflexivity.
Qed.

Lemma numpy_integer_stored_as_text_witness :
  let E := Scenario.env (Scenario.always (Scenario.fails "unused")) in
  let items := [ (u "plain", PyInt 5); (u "numpy", NpInteger 5) ] in
  exists upd,
    In (StoreUpdate (u "receipt-1") upd)
       (snd (emit E Scenario.emitter (PyStr (u "forensic")) (PyStr (u "s"))
                  (PyStr (u "m")) (PyInt 5) (PyDict items) []))
    /\ dict_get upd (detail_key (u "plain")) = Some (PyInt 5)
    /\ dict_get upd (detail_key (u "numpy")) = Some (PyStr (u "5")).
Proof.
  intros E items.
  destruct (store_updates
              (snd (emit E Scenario.emitter (PyStr (u "forensic"))
                         (PyStr (u "s")) (PyStr (u "m")) (PyInt 5)
                         (PyDict items) []))) as [| [rid upd] rest] eqn:Hrun;
    [vm_compute in Hrun; discriminate Hrun |].
  assert (Hw : In (StoreUpdate (u "receipt-1") upd)
                 (snd (emit E Scenario.emitter (PyStr (u "forensic"))
                            (PyStr (u "s")) (PyStr (u "m")) (PyInt 5)
                            (PyDict items) []))).
  { vm_compute in Hrun. injection Hrun as _ <- _.
    vm_compute. left. reflexivity. }
  exists upd. split; [exact Hw |]. split.
  - vm_compute in Hrun. injection Hrun as _ <- _. reflexivity.
  - apply (numpy_integer_stored_as_text E Scenario.emitter
             (PyStr (u "forensic")) (PyStr (u "s")) (PyStr (u "m")) (PyInt 5)
             items [] (u "receipt-1") upd (u "numpy") 5).
    + apply Nat.leb_le. vm_compute. reflexivity.
    + reflexivity.
    + reflexivity.
    + repeat constructor; simpl; intuition discriminate.
    + exact Hw.
    + right. left. reflexivity.
Defined.

(** A pair whose comparison raises stops the loop. *)
Lemma flatten_details_raises (E : Env) items (k : str) (v : pyvalue) e :
  In (k, v) items ->
  is_skipped E v = Raise e ->
  forall upd evs upd' evs',
    flatten_details E items upd evs <> (Ok upd', evs').
Proof.
  intros Hin Hsk.
  induction items as [| [k0 v0] rest IH]; intros upd evs upd' evs' Hrun;
    [destruct Hin |].
  simpl in Hrun. unfold bind in Hrun.
  destruct Hin as [Heq | Hin].
  - injection Heq as -> ->.
    unfold flatten_item, bind, lift_result in Hrun. rewrite Hsk in Hrun.
    discriminate Hrun.
  - destruct (flatten_item E upd k0 v0 evs) as [[upd1 | e1 | g1] evs1];
      [| discriminate | discriminate].
    exact (IH Hin upd1 evs1 upd' evs' Hrun).
Qed.

(** X17. One comparison that NumPy refuses to give a truth value costs
    the whole update: when [value == {}] or [value == []] raises for
    one pair of the details, [emit] hands nothing to the store, not
    the base fields and not the fields of the other pairs. *)
Theorem numpy_failure_drops_update (E : Env) (self : ProgressEmitter)
    (agent stage message progress : pyvalue) (items : dict)
    (evs : list event) (key : str) (value : pyvalue) (e : exn) :
  In (key, value) items ->
  is_skipped E value = Raise e ->
  store_updates
    (snd (emit E self agent stage message progress (PyDict items) evs))
  = store_updates evs.
Proof.
  intros Hin Hsk.
  destruct (emit_trace E self agent stage message progress (PyDict items) evs)
    as [logs [tail [-> [Hlogs Htail]]]].
  rewrite !store_updates_app, (store_updates_logs logs Hlogs).
  destruct Htail as [-> | [[msg ->] | [pct [upd [tl [_ [_ [_ Hupd]]]]]]]].
  - simpl. now rewrite app_nil_r.
  - simpl. now rewrite app_nil_r.
  - exfalso. destruct items as [| it rest]; [destruct Hin |].
    simpl py_truth in Hupd. cbv iota beta in Hupd.
    exact (flatten_details_raises E (it :: rest) key value e Hin Hsk
             _ _ _ _ Hupd).
Qed.

Lemma numpy_failure_drops_update_witness :
  let E :=
    with_ambiguous_numpy
      (Scenario.env (Scenario.always (Scenario.fails "unused"))) in
  let items :=
    [ (u "verdict", PyStr (u "authentic"));
      (u "histogram", NpArray (PyList [PyInt 3; PyInt 7])) ] in
  store_updates
    (snd (emit E Scenario.emitter (PyStr (u "forensic")) (PyStr (u "s"))
               (PyStr (u "m")) (PyInt 50) (PyDict items) []))
  = []
  /\ store_updates
       (snd (emit E Scenario.emitter (PyStr (u "forensic")) (PyStr (u "s"))
                  (PyStr (u "m")) (PyInt 50)
                  (PyDict [ (u "verdict", PyStr (u "authentic")) ]) []))
     <> [].
Proof.
  intros E items. split.
  - apply (numpy_failure_drops_update E Scenario.emitter
             (PyStr (u "forensic")) (PyStr (u "s")) (PyStr (u "m"))
             (PyInt 50) items [] (u "histogram")
             (NpArray (PyList [PyInt 3; PyInt 7]))
             (Exn ValueError
                  (u "The truth value of an array with more than one element is ambiguous."))).
    + right. left. reflexivity.
    + reflexivity.
  - vm_compute. discriminate.
Defined.

(** X18. A NumPy float of half or single precision never brings NaN or
    Infinity into the JSON text: the encoder writes the [repr] of a
    finite float, the value itself when it is finite and 0.0 otherwise.
    A float of extended precision is tested before it is converted:
    when NumPy tells that it is NaN or infinite the encoder writes 0.0,
    and else it writes what [float] makes of it, which is Infinity for
    a finite value beyond the binary64 range. *)
Theorem numpy_float_encoded_finite (E : Env) (f : float) :
  2 <= recursion_limit E ->
  (exists g,
      json_dumps E (NpFloating f) = Ok (float_repr E g)
      /\ isnan g = false /\ isinf g = false
      /\ g = (if isnan f || isinf f then fzero else f))
  /\ (forall converted,
        json_dumps E (NpLongDouble true converted) = Ok (float_repr E fzero))
  /\ (forall converted,
        json_dumps E (NpLongDouble false converted)
        = Ok (floatstr E converted))
  /\ json_dumps E (NpLongDouble false (S754_infinity false))
     = Ok (u "Infinity").
Proof.
  intros Hdepth. unfold json_dumps.
  destruct (recursion_limit E) as [| [| d]]; try lia.
  split; [| repeat split; reflexivity].
  exists (if isnan f || isinf f then fzero else f).
  destruct f as [s | s | | s m e]; simpl; auto.
Qed.

Lemma numpy_float_encoded_finite_witness :
  let E := Scenario.env (Scenario.always (Scenario.fails "unused")) in
  json_dumps E (NpFloating (S754_infinity true)) = Ok (u "0.0")
  /\ (exists g,
        json_dumps E (NpFloating S754_nan) = Ok (float_repr E g)
        /\ isnan g = false /\ isinf g = false
        /\ g = fzero)
  /\ json_dumps E (NpLongDouble false (S754_infinity false))
     = Ok (u "Infinity").
Proof.
  intros E. split; [reflexivity |].
  assert (Hdepth : 2 <= recursion_limit E).
  { apply Nat.leb_le. vm_compute. reflexivity. }
  destruct (numpy_float_encoded_finite E S754_nan Hdepth)
    as [Hfinite [_ [_ Hlong]]].
  split; [exact Hfinite | exact Hlong].
Defined.

(** ** The progress events of a call *)

Lemma is_skipped_plain (E : Env) (v : pyvalue) :
  is_numpy v = false -> exists b, is_skipped E v = Ok b.
Proof.
  destruct v; simpl; intros H; try discriminate H; eauto.
  - destruct items; simpl; eauto.
  - destruct items; simpl; eauto.
Qed.

Lemma flatten_details_plain (E : Env) items :
  (forall k v, In (k, v) items -> is_numpy v = false) ->
  forall upd evs,
  exists upd' evs', flatten_details E items upd evs = (Ok upd', evs').
Proof.
  induction items as [| [k v] rest IH]; intros Hplain upd evs; simpl.
  - unfold ret. eauto.
  - unfold bind.
    assert (Hitem : exists upd1 evs1,
               flatten_item E upd k v evs = (Ok upd1, evs1)).
    { destruct (is_skipped_plain E v (Hplain k v (or_introl eq_refl)))
        as [b Hb].
      unfold flatten_item, bind, lift_result, try_except. rewrite Hb.
      destruct b; [unfold ret; eauto |].
      destruct (is_primitive v); [unfold ret; eauto |].
      pose proof (json_dumps_never_escapes E v) as Hj.
      destruct (json_dumps E v) as [t | e | g];
        [| | exfalso; exact (Hj g eq_refl)];
        unfold log, ret; simpl; eauto. }
    destruct Hitem as [upd1 [evs1 ->]].
    apply IH. intros k' v' Hin. apply (Hplain k' v'). now right.
Qed.

Lemma base_fields_stage (E : Env) a s m pct evs :
  dict_get (base_fields E a s m pct evs) (u "progress_stage")
  = Some (PyStr (py_str E s))
  /\ dict_get (base_fields E a s m pct evs) (u "progress_percentage")
     = Some (PyInt pct).
Proof. split; reflexivity. Qed.

Ltac plain_store_tail Hstore upd0 :=
  unfold ret, progress_ref_update, log;
  match goal with
  | |- context [store_update ?E0 ?ev ?rid ?u0] =>
      let Hs := fresh "Hs" in
      destruct (store_update E0 ev rid u0) as [[] | ? | ?] eqn:Hs;
      [| | exfalso; exact (Hstore _ _ _ _ Hs)]
  end;
  cbn [fst snd]; eexists; exists upd0;
  (split; [reflexivity |]);
  (split; [rewrite !store_updates_app; simpl; rewrite ?app_nil_r;
           reflexivity |]);
  split; assumption.

(** A call of [emit] with an integer percentage and details that are
    absent or a mapping of values that are not of NumPy hands exactly
    one update to the store, with the stage and the percentage of the
    call, and returns, whether the store takes the update or raises an
    instance of [Exception]. *)
Lemma emit_plain_run (E : Env) self a s m (pct : Z) details evs :
  (forall evs0 rid upd g, store_update E evs0 rid upd <> Escape g) ->
  details = PyNone
  \/ (exists items,
         details = PyDict items
         /\ forall k v, In (k, v) items -> is_numpy v = false) ->
  exists evs' upd,
    emit E self a s m (PyInt pct) details evs = (Ok tt, evs')
    /\ store_updates evs' = store_updates evs ++ [ (receipt_id self, upd) ]
    /\ dict_get upd (u "progress_stage") = Some (PyStr (py_str E s))
    /\ dict_get upd (u "progress_percentage") = Some (PyInt pct).
Proof.
  intros Hstore Hd.
  unfold emit, try_except, emit_body, bind, lift_result, utcnow.
  simpl py_int. cbv iota beta.
  fold (base_fields E a s m pct evs).
  destruct (base_fields_stage E a s m pct evs) as [Hst Hpc].
  set (base := base_fields E a s m pct evs) in *.
  destruct Hd as [-> | [items [-> Hplain]]].
  - simpl py_truth. cbv iota beta. plain_store_tail Hstore base.
  - simpl py_truth. destruct items as [| it rest].
    + plain_store_tail Hstore base.
    + destruct (flatten_details_plain E (it :: rest) Hplain base evs)
        as [upd [evs1 Hf]].
      destruct (flatten_details_logs E (it :: rest) base evs)
        as [logs [Hl Hlogs]].
      rewrite Hf in Hl. simpl in Hl. subst evs1.
      assert (Hst' : dict_get upd (u "progress_stage")
                     = Some (PyStr (py_str E s))).
      { rewrite (flatten_details_keeps_field E (it :: rest)
                   (u "progress_stage")
                   (fun k _ => base_name_not_detail (u "progress_stage") k
                                 ltac:(simpl; tauto))
                   base evs upd _ Hf). exact Hst. }
      assert (Hpc' : dict_get upd (u "progress_percentage")
                     = Some (PyInt pct)).
      { rewrite (flatten_details_keeps_field E (it :: rest)
                   (u "progress_percentage")
                   (fun k _ => base_name_not_detail
                                 (u "progress_percentage") k
                                 ltac:(simpl; tauto))
                   base evs upd _ Hf). exact Hpc. }
      clear Hst Hpc. rewrite Hf.
      unfold ret, progress_ref_update, log.
      destruct (store_update E (evs ++ logs) (receipt_id self) upd)
        as [[] | e1 | g1] eqn:Hs;
        [| | exfalso; exact (Hstore _ _ _ _ Hs)];
        cbn [fst snd]; eexists; exists upd;
        (split; [reflexivity |]);
        (split; [rewrite !store_updates_app,
                   (store_updates_logs logs Hlogs); simpl;
                 rewrite ?app_nil_r; reflexivity |]);
        split; assumption.
Qed.

Lemma dict_get_set_cases (d : dict) (k k' : str) (v x : pyvalue) :
  dict_get (dict_set d k v) k' = Some x ->
  x = v \/ dict_get d k' = Some x.
Proof.
  destruct (list_eq_dec N.eq_dec k k') as [<- | Hne].
  - rewrite dict_get_set_same. intros H. injection H as <-. now left.
  - rewrite (dict_get_set_other d k k' v Hne). now right.
Qed.

Lemma plain_values_set (d : dict) (k : str) (v : pyvalue) :
  plain_values d -> is_numpy v = false -> plain_values (dict_set d k v).
Proof.
  intros Hd Hv k' x Hget.
  destruct (dict_get_set_cases d k k' v x Hget) as [-> | H];
    [exact Hv | exact (Hd k' x H)].
Qed.

Lemma plain_values_sanitized (d d' : dict) :
  plain_values d ->
  sanitize_amount d = Ok d' ->
  plain_values (ensure_confidence d').
Proof.
  intros Hd Hs.
  assert (Hd' : plain_values d').
  { pose proof (sanitize_amount_result d d' Hs) as Hres.
    destruct (dict_get d (u "total_amount")) as [[] |];
      try (now subst d').
    destruct Hres as [-> _]. now apply plain_values_set. }
  unfold ensure_confidence.
  destruct (dict_contains d' (u "confidence")); [exact Hd' |].
  now apply plain_values_set.
Qed.

Lemma dict_get_none_plain (d : dict) (k : str) :
  plain_values d -> is_numpy (dict_get_none d k) = false.
Proof.
  intros Hd. unfold dict_get_none, dict_get_default.
  destruct (dict_get d k) eqn:Hg; [exact (Hd k p Hg) | reflexivity].
Qed.

(** X19. The two progress events of a call.  With a [ProgressEmitter]
    as collaborator, on the way where the image loads, the first
    request is answered and the answer decodes to an object of plain
    values with a readable amount, [analyze] hands exactly two updates
    to the store, both to the document of the emitter's receipt: the
    first with stage [ocr_started] and percentage 10, the second with
    stage [ocr_complete] and percentage 30; and it returns a record
    whether the store takes the updates or refuses them with an
    instance of [Exception]. *)
Theorem analyze_progress_updates (E : Env) (self : ProgressEmitter)
    (image_path : str) (w : World) (img : image) (reply : response)
    (t : str) (d : dict) :
  (forall evs rid upd g, store_update E evs rid upd <> Escape g) ->
  (forall w', image_open E w' image_path = Ok img) ->
  (forall w', generate_content E w' (model (agent w)) img = Ok reply) ->
  text reply = Ok t ->
  json_loads E (strip (unfence (strip t))) = Ok (PyDict d) ->
  amount_readable d ->
  plain_values d ->
  exists r w' started complete,
    analyze E image_path (Some (as_progress E self)) w = (Ok r, w')
    /\ store_updates (io w')
       = store_updates (io w)
           ++ [ (receipt_id self, started); (receipt_id self, complete) ]
    /\ stage_and_percentage (receipt_id self, started)
       = (Some (PyStr (u "ocr_started")), Some (PyInt 10))
    /\ stage_and_percentage (receipt_id self, complete)
       = (Some (PyStr (u "ocr_complete")), Some (PyInt 30)).
Proof.
  intros Hstore Himg Hgen Ht Hj Hread Hplain.
  destruct (sanitize_amount_readable d Hread) as [d' [Hs _]].
  pose proof (plain_values_sanitized d d' Hplain Hs) as Hdata.
  unfold analyze, try_except, analyze_body.
  (* the first event and the image *)
  unfold load_image, bind at 1 2 3, emit_if.
  cbn [emit_method as_progress].
  match goal with
  | |- context [lift_io (emit E self ?a ?s ?m (PyInt ?p) ?dd) w] =>
      destruct (emit_plain_run E self a s m p dd (io w) Hstore
                  (or_introl eq_refl))
        as [evs1 [started [He1 [Hu1 [Hst1 Hpc1]]]]];
      rewrite (lift_io_returns (emit E self a s m (PyInt p) dd) w tt evs1
                 He1)
  end.
  unfold lift_io at 1, log at 1, open_image. cbn [io agent submissions].
  rewrite Himg.
  (* the request *)
  unfold bind at 1.
  match goal with
  | |- context [call_model E img ?w1] =>
      rewrite (call_model_primary_ok E img w1 reply (Hgen w1))
  end.
  (* the reply *)
  unfold extract, bind, lift_result.
  rewrite Ht, Hj. simpl as_dict. cbv iota beta. rewrite Hs.
  unfold emit_if. cbn [emit_method as_progress].
  match goal with
  | |- context [lift_io (emit E self ?a ?s ?m (PyInt ?p) (PyDict ?its)) ?w2] =>
      assert (Hvals : forall k v, In (k, v) its -> is_numpy v = false)
        by (intros k v [H | [H | [H | []]]]; injection H as _ <-;
            apply dict_get_none_plain; exact Hdata);
      destruct (emit_plain_run E self a s m p (PyDict its) (io w2) Hstore
                  (or_intror (ex_intro _ its (conj eq_refl Hvals))))
        as [evs2 [complete [He2 [Hu2 [Hst2 Hpc2]]]]];
      rewrite (lift_io_returns (emit E self a s m (PyInt p) (PyDict its))
                 w2 tt evs2 He2)
  end.
  unfold lift_io, log, ret. cbn [io agent submissions fst snd after_submit].
  cbn [io agent submissions after_submit] in Hu2.
  do 2 eexists. exists started, complete.
  split; [reflexivity |]. cbn [io].
  split.
  - rewrite store_updates_app, Hu2, store_updates_app, Hu1. simpl.
    rewrite !app_nil_r, <- app_assoc. reflexivity.
  - unfold stage_and_percentage. cbn [snd].
    rewrite Hst1, Hpc1, Hst2, Hpc2. split; reflexivity.
Qed.

Lemma analyze_progress_updates_witness :
  let E :=
    Scenario.env (Scenario.always (Scenario.answers naira_amount_reply)) in
  exists r w' started complete,
    analyze E (u "receipt.png") (Some (as_progress E Scenario.emitter))
            Scenario.start = (Ok r, w')
    /\ store_updates (io w')
       = [ (u "receipt-1", started); (u "receipt-1", complete) ]
    /\ stage_and_percentage (u "receipt-1", started)
       = (Some (PyStr (u "ocr_started")), Some (PyInt 10))
    /\ stage_and_percentage (u "receipt-1", complete)
       = (Some (PyStr (u "ocr_complete")), Some (PyInt 30)).
Proof.
  intros E.
  destruct (Scenario.decode (strip (unfence (strip naira_amount_reply))))
    as [[] | e | g] eqn:Hd; try (vm_compute in Hd; discriminate Hd).
  apply (analyze_progress_updates E Scenario.emitter (u "receipt.png")
           Scenario.start O {| text := Ok naira_amount_reply |}
           naira_amount_reply items).
  - intros evs rid upd g H. discriminate H.
  - reflexivity.
  - reflexivity.
  - reflexivity.
  - exact Hd.
  - vm_compute in Hd. injection Hd as <-. intros s Hs.
    vm_compute in Hs. injection Hs as <-.
    right. exists f1500_75. vm_compute. reflexivity.
  - vm_compute in Hd. injection Hd as <-. intros k v Hget.
    unfold dict_get in Hget.
    repeat match type of Hget with
           | (if ?c then _ else _) = _ =>
               destruct c; [injection Hget as <-; reflexivity |]
           end.
    discriminate Hget.
Defined.
